(* ===== verification/_CoqProject ===== *)
-Q . S2P
Prelude.v
Spans.v
Attributes.v
InfectionSpans.v
CountModifiers.v
TableClassifier.v
Incidents.v
