(* ===== verification/Prelude.v ===== *)
(** * EpiTator: infection and structured-incident annotators, a Rocq model

    This library models the two annotators of the EpiTator repository,
    [src/epitator/infection_annotator.py] and
    [src/epitator/structured_incident_annotator.py], as executable Rocq
    functions, and proves what makes them correct.

    ** The program

    EpiTator annotates a document with named tiers of spans (offset
    ranges with metadata).  The two source files build on tiers produced
    by other annotators (spaCy tokens, noun chunks, named entities,
    geonames, dates, numbers, generic tables) that are not part of the
    sources and are inputs of the model:

    - [infection_annotator.py] reads the noun chunks of the document,
      computes for each one a list of attribute tags
      ([generate_attributes]) and a count ([generate_counts]), widens the
      chunk to its syntactic ancestors or its disjoint subtree when the
      chunk alone does not say that an infection, death or
      hospitalization happened ([from_noun_chunks_with_infection_lemmas],
      [from_noun_chunks_with_person_lemmas]), attaches nearby qualifier
      words ([add_count_modifiers]), resolves overlaps with the tier's
      optimal span set, and flattens the span groups
      ([collapse_span_group]).
    - [structured_incident_annotator.py] reads generic tables, types each
      column by majority vote against the entity tiers, walks every row
      to emit one incident per number cell, and reclassifies unmarked
      counts as cumulative when they exceed an incremental count of the
      same row.

    ** Files, in dependency order

    - [Prelude] (this file): the Python exceptions the code can raise,
      the result monad [res] that carries them (stdpp's [MBind]/[MRet],
      so [x ← c; k] reads like the straight-line Python), Python's string
      operations used by the code ([lower], substring [in], [strip]),
      [min]/[max] of a list, [omap] step lemmas, the tactics [res_inv],
      [res_simpl], [zdiv_lia] and the [epi] hint databases.
    - [Spans]: the [AnnoSpan]/[AnnoTier] methods the sources call
      (overlap, containment, [span.text], [span_before],
      [group_spans_by_containing_span], [without_overlaps], the sorted
      tier, [optimal_span_set]), over any type with offsets (the class
      [SpanLike]).  [annospan.py] and [annotier.py] are not under [src/]:
      these are modelled from the spec.
    - [Attributes]: [generate_attributes] with the [attribute_lemmas]
      table, the [groupby] of consecutive indices, [generate_counts] with
      its strict, determiner and lax stages, [has_trigger_lemmas],
      [has_single_count].  The number parser [parse_count_text] (in
      [utils.py]) is the interface [CountParser] with the contract of the
      spec ([ParserRecoverable]); [parse_count_text_model] is an
      executable instance used by the examples.
    - [InfectionSpans]: [from_noun_chunks_with_infection_lemmas] and
      [from_noun_chunks_with_person_lemmas] over a document of noun
      chunks with their ancestors and subtrees, as explicit results
      ([res]) of the per-chunk handlers; [document_of] builds that
      document from the token and noun-chunk tiers
      ([spacy_tokens_for_span], [spans_contained_by_span]).
    - [CountModifiers]: [collapse_span_group], [add_count_modifiers]
      (status and modifier qualifiers, the named-entity filter, the
      overlap resolution) and [InfectionAnnotator.annotate], which
      composes the two passes with the attacher.
    - [TableClassifier]: [is_null], [median], [merge_metadata],
      [combine_metadata] over nested span groups, [split_list], the
      entity tiers of lines 93-115, the column typing fold of lines
      152-178 (a state record [col_state] threaded through
      [classify_step]), header detection, row filtering, the date period
      and the title: [build_table] per table span.
    - [Incidents]: the row context (a fold of [update_ctx] over the
      cells), one incident per number cell ([emit_incident]), the
      backdating, the aggregation pass ([max_new], [reclassify],
      [finalize_row]) and [StructuredIncidentAnnotator.annotate].

    ** What the theorems show

    - counts (C1-C7): each stage of [generate_counts] on every branch,
      its totality under the parser's contract with [{}] exactly for no
      tokens (the guard that keeps [tokens[0]] from raising), the
      strict-stage [ValueError] that escapes and the lax-stage one that
      is caught; attributes (C8, C9): exact characterisation and the
      possessive exclusion;
    - infection spans (C10-C15): every accepted span has a trigger and a
      single count, the passes are total, spans stay within their
      tokens, and the widening conditions (one of which departs from the
      docstring, see the findings);
    - tables (C16-C22): column typing picks the first type of maximal
      count above 30%, the header row is kept as data, the
      [AttributeError] and [IndexError] paths, [split_list] against a
      reference, [combine_metadata] against its flat pre-order
      specification, and [median]: its error, its independence of the
      order of the values and the median property (at most half of the
      values strictly on either side);
    - incidents (C23-C28, C34): the aggregation pass exactly, what it
      keeps, the backdating of counts that the pass then makes
      cumulative (for every row of every table with a reporting period),
      emission on every branch, the [TypeError] path, the row context
      carry-down, and that any error of a table or a row fails the whole
      document;
    - count modifiers (C29-C33): collapse against the spec's flat union,
      the named-entity filter as an invariant of the attached tier, the
      annotator's output, the status qualifiers attached even inside a
      person or place name (no entity filter on lines 297-300), and no
      candidate lost by the overlap resolution (C33: every candidate is
      overlapped by an output span, from the optimality of
      [optimal_span_set]).

    ** Choices of the model

    - Python exceptions are values of [res]; a theorem about an error
      path names the exception.
    - [structured_incident_annotator.py] is Python 2 code ([len(zip(..))],
      [median(map(..))], integer [/]); the model follows Python 2: [/] is
      [Z.div], [zip] and [map] give lists.  Dictionary iteration order in
      [entities_by_type] is taken as the literal order of the source.
    - A Python dictionary of metadata is a record whose absent keys are
      [None]; an empty dictionary (false in Python) is [None].
    - The 30% threshold compares [3 * n < 10 * m] exactly; the float
      division agrees with it for any column shorter than 2^50 cells.
    - [optimal_span_set] is the specification itself, an exhaustive
      search over subsequences keeping the first of maximal score, so it
      is executable on the examples but exponential; no theorem depends
      on its complexity.  The default [max_dist] of
      [with_nearby_spans_from] is a parameter of [add_count_modifiers].
    - There are no loops without a bound: every function is structural,
      so no fuel is needed and termination is by construction (no claim
      of the termination kind is stated, since it would be a fact of
      the kernel and not of the program).

    ** What is not modelled

    The producers of the input tiers (spaCy tokens, noun chunks, named
    entities, geonames, dates, raw numbers, keyword resolutions,
    structured tables) and the number parser are external: their outputs
    are inputs of the model.  The [debug] flags only add a
    [debug_attributes] key that no other code reads; the model runs with
    [debug=False].  Logging and the lazy [doc.add_tiers] calls (they
    only run the producers of the inputs) are not modelled.  What
    remains outside the map is these calls, logging, comments,
    docstrings and imports: every other statement of the two source
    files is translated.  The tier methods of [annotier.py] and
    the number parser of [utils.py] stay modelled from the spec, since
    their code is not among the sources; that is why the span/tier model
    and the number parser are only partly modelled components.
    [utils.merge_dicts] is modelled from the spec's fill-gaps rule too,
    without the de-duplication of [unique=True]; the membership tests of
    the code cannot tell the two apart ([md_equiv] in [Attributes]). *)

From Stdlib Require Import ZArith.
From stdpp Require Import base list strings sorting sets.
From Stdlib Require Import Ascii.

Declare Scope epi_scope.
Delimit Scope epi_scope with epi.
Open Scope string_scope.
Open Scope list_scope.
Open Scope nat_scope.

(** ** Python exceptions and the result monad *)

(** The exceptions the modelled code can raise.  None of them is caught
    by the sources except [ValueError] in the lax stage of
    [generate_counts]. *)
Inductive py_exn : Type :=
  | IndexError
  | KeyError
  | TypeError
  | ValueError
  | AttributeError.

#[export] Instance py_exn_eq_dec : EqDecision py_exn.
Proof. solve_decision. Defined.

(** A computation that returns a value or raises. *)
Inductive res (A : Type) : Type :=
  | Ok (a : A)
  | Err (e : py_exn).
Arguments Ok {A} a.
Arguments Err {A} e.

#[export] Instance res_ret : MRet res := λ A a, Ok a.
#[export] Instance res_bind : MBind res :=
  λ A B f r, match r with Ok a => f a | Err e => Err e end.
#[export] Instance res_fmap : FMap res :=
  λ A B f r, match r with Ok a => Ok (f a) | Err e => Err e end.

(** [raises r] holds when the computation ends with an exception. *)
Definition raises {A} (r : res A) : bool :=
  match r with Ok _ => false | Err _ => true end.

Notation "'try' c 'except' e => h" :=
  (match c with Ok a => Ok a | Err e => h end)
  (at level 10, c at level 100, e name, h at level 200) : epi_scope.

(** ** Python string operations *)

Definition ascii_lower (c : ascii) : ascii :=
  let n := Ascii.nat_of_ascii c in
  if (65 <=? n)%nat && (n <=? 90)%nat then Ascii.ascii_of_nat (n + 32) else c.

(** [s.lower()] on the ASCII range. *)
Fixpoint lower (s : string) : string :=
  match s with
  | EmptyString => EmptyString
  | String c s' => String (ascii_lower c) (lower s')
  end.

(** [needle in hay] for strings. *)
Fixpoint str_contains (needle hay : string) : bool :=
  String.prefix needle hay ||
  match hay with
  | EmptyString => false
  | String _ hay' => str_contains needle hay'
  end.

(** The characters [str.strip()] removes: space, \t, \n, \v, \f, \r. *)
Definition is_py_space (c : ascii) : bool :=
  let n := Ascii.nat_of_ascii c in
  (n =? 32)%nat || ((9 <=? n)%nat && (n <=? 13)%nat).

Fixpoint lstrip (s : string) : string :=
  match s with
  | EmptyString => EmptyString
  | String c s' => if is_py_space c then lstrip s' else s
  end.

(** [s.strip()]: strip the left end, then the left end of the reverse. *)
Definition strip (s : string) : string :=
  String.rev (lstrip (String.rev (lstrip s))).

(** ** [min] and [max] of a list: Python raises [ValueError] on [[]] *)

Definition py_min (l : list Z) : res Z :=
  match l with
  | [] => Err ValueError
  | x :: l' => Ok (foldl Z.min x l')
  end.

Definition py_max (l : list Z) : res Z :=
  match l with
  | [] => Err ValueError
  | x :: l' => Ok (foldl Z.max x l')
  end.

(** ** Generic lemmas *)

Create HintDb epi discriminated.
Create Rewrite HintDb epi_rw.

Section ResLemmas.
Context {A B : Type}.

Lemma res_bind_Ok (r : res A) (f : A → res B) (b : B) :
  (r ≫= f) = Ok b ↔ ∃ a, r = Ok a ∧ f a = Ok b.
Proof.
  split.
  - destruct r as [a|e]; simpl; [eauto | discriminate].
  - intros (a & -> & Hf). exact Hf.
Qed.

Lemma res_bind_ret (r : res A) : (r ≫= (λ a, Ok a)) = r.
Proof. by destruct r. Qed.

Lemma mapM_res_Ok (f : A → res B) (l : list A) (l' : list B) :
  mapM f l = Ok l' → Forall2 (λ a b, f a = Ok b) l l'.
Proof.
  revert l'. induction l as [|a l IH]; intros l' H; simpl in H.
  - injection H as <-. constructor.
  - destruct (f a) as [b|e] eqn:Ef; [|discriminate]. simpl in H.
    destruct (mapM f l) as [k|e] eqn:Ek; [|discriminate].
    simpl in H. injection H as <-. constructor; auto.
Qed.

(** When [f] never raises, neither does [mapM f]. *)
Lemma mapM_res_total (f : A → res B) (l : list A) :
  (∀ a, a ∈ l → ∃ b, f a = Ok b) → ∃ l', mapM f l = Ok l'.
Proof.
  induction l as [|a l IH]; intros Hf; simpl.
  - by exists [].
  - destruct (Hf a) as [b Hb]; [set_solver|]. rewrite Hb. simpl.
    destruct IH as [k Hk]; [intros x Hx; apply Hf; set_solver|].
    rewrite Hk. by exists (b :: k).
Qed.
End ResLemmas.

Lemma foldl_min_le (x : Z) (l : list Z) :
  (foldl Z.min x l <= x)%Z ∧ Forall (λ y, foldl Z.min x l <= y)%Z l.
Proof.
  revert x. induction l as [|y l IH]; intros x; simpl.
  - split; [lia | constructor].
  - destruct (IH (Z.min x y)) as [H1 H2]. split; [lia|]. constructor; [lia | exact H2].
Qed.

Lemma foldl_max_ge (x : Z) (l : list Z) :
  (x <= foldl Z.max x l)%Z ∧ Forall (λ y, y <= foldl Z.max x l)%Z l.
Proof.
  revert x. induction l as [|y l IH]; intros x; simpl.
  - split; [lia | constructor].
  - destruct (IH (Z.max x y)) as [H1 H2]. split; [lia|]. constructor; [lia | exact H2].
Qed.

(** [min(l)] is a lower bound of [l]; it exists exactly when [l] is not
    empty. *)
Lemma py_min_spec (l : list Z) (m : Z) :
  py_min l = Ok m → Forall (λ y, m <= y)%Z l.
Proof.
  destruct l as [|x l]; simpl; [discriminate|]. intros [= <-].
  destruct (foldl_min_le x l). by constructor.
Qed.

Lemma py_max_spec (l : list Z) (m : Z) :
  py_max l = Ok m → Forall (λ y, y <= m)%Z l.
Proof.
  destruct l as [|x l]; simpl; [discriminate|]. intros [= <-].
  destruct (foldl_max_ge x l). by constructor.
Qed.

Lemma foldl_min_elem (x : Z) (l : list Z) : foldl Z.min x l ∈ x :: l.
Proof.
  revert x. induction l as [|y l IH]; intros x; simpl; [apply list_elem_of_here|].
  specialize (IH (Z.min x y)). apply elem_of_cons in IH as [-> | Hin].
  - destruct (Z.min_spec x y) as [[_ ->] | [_ ->]]; set_solver.
  - set_solver.
Qed.

Lemma foldl_max_elem (x : Z) (l : list Z) : foldl Z.max x l ∈ x :: l.
Proof.
  revert x. induction l as [|y l IH]; intros x; simpl; [apply list_elem_of_here|].
  specialize (IH (Z.max x y)). apply elem_of_cons in IH as [-> | Hin].
  - destruct (Z.max_spec x y) as [[_ ->] | [_ ->]]; set_solver.
  - set_solver.
Qed.

(** [min(l)] and [max(l)] are elements of [l]. *)
Lemma py_min_elem (l : list Z) (m : Z) : py_min l = Ok m → m ∈ l.
Proof. destruct l; simpl; [discriminate|]. intros [= <-]. apply foldl_min_elem. Qed.

Lemma py_max_elem (l : list Z) (m : Z) : py_max l = Ok m → m ∈ l.
Proof. destruct l; simpl; [discriminate|]. intros [= <-]. apply foldl_max_elem. Qed.

Lemma py_min_nonempty (l : list Z) : l ≠ [] → ∃ m, py_min l = Ok m.
Proof. destruct l; simpl; [congruence | eauto]. Qed.

Lemma py_max_nonempty (l : list Z) : l ≠ [] → ∃ m, py_max l = Ok m.
Proof. destruct l; simpl; [congruence | eauto]. Qed.

Lemma prefix_refl (s : string) : String.prefix s s = true.
Proof.
  induction s as [|c s IH]; simpl; [reflexivity|].
  destruct (ascii_dec c c); congruence.
Qed.

Lemma str_contains_refl (s : string) : str_contains s s = true.
Proof. destruct s as [|c s]; [reflexivity|]. unfold str_contains. by rewrite prefix_refl. Qed.

(** [omap] one element at a time, without unfolding it. *)
Lemma omap_cons_Some {A B} (f : A → option B) (x : A) (l : list A) (y : B) :
  f x = Some y → omap f (x :: l) = y :: omap f l.
Proof. intros H. cbn. by rewrite H. Qed.

Lemma omap_cons_None {A B} (f : A → option B) (x : A) (l : list A) :
  f x = None → omap f (x :: l) = omap f l.
Proof. intros H. cbn. by rewrite H. Qed.

#[export] Hint Resolve py_min_nonempty py_max_nonempty : epi.
#[export] Hint Resolve str_contains_refl : epi.

(** Invert an [Ok] result of a bind in a hypothesis. *)
Ltac res_inv :=
  repeat match goal with
  | H : (_ ≫= _) = Ok _ |- _ =>
      apply res_bind_Ok in H; destruct H as (? & ? & ?)
  | H : Ok _ = Ok _ |- _ => injection H as H
  end.

(** Run the binds of [res] whose left-hand side is a value, without
    unfolding anything else. *)
Ltac res_simpl := cbv beta iota delta [mbind res_bind mret res_ret].

(** [lia] after turning [/] and [mod] into their Euclidean equations. *)
Ltac zdiv_lia := Z.to_euclidean_division_equations; lia.
