(* ===== verification/Spans.v ===== *)
(** * Span and tier primitives ([annospan.py], [annotier.py])

    The sources call a handful of methods of [AnnoSpan] and [AnnoTier],
    which are not part of the sources; this file models them from the
    spec (section 2, "Span/Tier Model", and section 9) over any type with
    a start and an end offset, the typeclass [SpanLike]:
    - [overlaps] and [contains] of two spans;
    - [group_spans_by_containing_span]: each span of a tier with the
      spans of another tier it fully contains;
    - [without_overlaps]: the spans of a tier that overlap no span of
      another tier;
    - [span_before]: the last span of a tier that starts before a span
      (the source clips the returned title sentence at the table's start,
      so the span may run into the target);
    - [optimal_span_set]: a subset of pairwise non-overlapping spans of
      maximal score.  The spec leaves the algorithm and its tie-breaking
      open; the model is the specification itself, an executable search
      over the subsequences of the tier that keeps the first one of
      maximal score, with lemmas that it is a non-overlapping subsequence
      and that no non-overlapping subsequence scores higher. *)

From Stdlib Require Import ZArith.
From stdpp Require Import base list strings sorting sets.
From S2P Require Import Prelude.

Open Scope Z_scope.
Open Scope list_scope.

Class SpanLike (A : Type) := {
  span_start : A → Z;
  span_end : A → Z
}.

(** [span.text]: the document text between the span's offsets. *)
Definition span_text (doc_text : string) (s e : Z) : string :=
  String.substring (Z.to_nat s) (Z.to_nat (e - s)) doc_text.

Section Tier.
Context {A B : Type} `{SpanLike A} `{SpanLike B}.

(** [AnnoSpan.overlaps]: one span starts inside the other. *)
Definition overlaps (a : A) (b : B) : bool :=
  ((span_start b <=? span_start a) && (span_start a <? span_end b)) ||
  ((span_start a <=? span_start b) && (span_start b <? span_end a)).

(** [AnnoSpan.contains]: [b] lies within [a]. *)
Definition contains (a : A) (b : B) : bool :=
  (span_start a <=? span_start b) && (span_end b <=? span_end a).

(** [AnnoTier.group_spans_by_containing_span(other)]. *)
Definition group_spans_by_containing_span (tier : list A) (other : list B)
    : list (A * list B) :=
  map (λ a, (a, filter (λ b, contains a b = true) other)) tier.

(** [AnnoTier.spans_contained_by_span(span)]: the spans of the tier
    inside a span. *)
Definition spans_contained_by_span (tier : list B) (span : A) : list B :=
  filter (λ b, contains span b = true) tier.

(** [AnnoTier.without_overlaps(other)]. *)
Definition without_overlaps (tier : list A) (other : list B) : list A :=
  filter (λ a, existsb (overlaps a) other = false) tier.

(** [AnnoTier.span_before(target)]: the last span of the (sorted) tier
    that starts before the target. *)
Definition span_before (tier : list A) (target : B) : option A :=
  last (filter (λ a, (span_start a <? span_start target) = true) tier).
End Tier.

(** [AnnoTier(spans)]: a tier keeps its spans sorted by start, then end
    (a stable sort). *)
Definition tier_le {A} `{SpanLike A} (a b : A) : Prop :=
  span_start a < span_start b ∨ (span_start a = span_start b ∧ span_end a <= span_end b).

#[export] Instance tier_le_dec {A} `{SpanLike A} : RelDecision (@tier_le A _).
Proof. intros a b. unfold tier_le. apply _. Defined.

Definition mk_tier {A} `{SpanLike A} (spans : list A) : list A := merge_sort tier_le spans.

(** ** The optimal span set *)

Section Optimal.
Context {A : Type} `{SpanLike A}.

(** The subsequences of a list, those keeping the head first. *)
Fixpoint subseqs (l : list A) : list (list A) :=
  match l with
  | [] => [[]]
  | x :: l' => let r := subseqs l' in map (cons x) r ++ r
  end.

(** No two spans of the list overlap. *)
Fixpoint pairwise_disjoint (l : list A) : bool :=
  match l with
  | [] => true
  | x :: l' => forallb (λ y, negb (overlaps x y)) l' && pairwise_disjoint l'
  end.

(** Scores compare lexicographically. *)
Definition score_lt (a b : Z * Z) : bool :=
  (a.1 <? b.1) || ((a.1 =? b.1) && (a.2 <? b.2)).

(** [AnnoTier.optimal_span_set(prefer)], with the preference as a score
    of a candidate set. *)
Definition optimal_span_set (score : list A → Z * Z) (tier : list A) : list A :=
  foldl (λ best c, if score_lt (score best) (score c) then c else best) []
        (filter (λ c, pairwise_disjoint c = true) (subseqs tier)).

(** [prefer="text_length"], the default: the total length covered. *)
Definition text_length_score (l : list A) : Z * Z :=
  (foldr (λ a acc, span_end a - span_start a + acc) 0 l, 0).
End Optimal.

(** * Properties *)

Section TierProps.
Context {A B : Type} `{SpanLike A} `{SpanLike B}.

Lemma without_overlaps_spec (tier : list A) (other : list B) (a : A) :
  a ∈ without_overlaps tier other ↔ a ∈ tier ∧ ∀ b, b ∈ other → overlaps a b = false.
Proof.
  unfold without_overlaps. rewrite list_elem_of_filter.
  rewrite <-not_true_iff_false, existsb_exists.
  setoid_rewrite <-list_elem_of_In. setoid_rewrite <-not_true_iff_false. naive_solver.
Qed.

Lemma without_overlaps_sublist (tier : list A) (other : list B) :
  without_overlaps tier other `sublist_of` tier.
Proof. apply sublist_filter. Qed.

Lemma group_spans_by_containing_span_spec (tier : list A) (other : list B) :
  Forall2 (λ a g, g.1 = a ∧ ∀ b, b ∈ g.2 ↔ b ∈ other ∧ contains a b = true)
    tier (group_spans_by_containing_span tier other).
Proof.
  induction tier as [|a tier IH]; simpl; constructor; [|done].
  split; [done|]. intros b. simpl. rewrite list_elem_of_filter. tauto.
Qed.

Lemma span_before_spec (tier : list A) (target : B) (a : A) :
  span_before tier target = Some a → a ∈ tier ∧ span_start a < span_start target.
Proof.
  unfold span_before. intros Hl. apply last_Some_elem_of in Hl.
  apply list_elem_of_filter in Hl as [Hlt Hin]. split; [done | lia].
Qed.

Lemma span_before_None (tier : list A) (target : B) :
  span_before tier target = None ↔ ∀ a, a ∈ tier → span_start target <= span_start a.
Proof.
  unfold span_before. rewrite last_None. split.
  - intros Hnil a Ha. destruct (Z.leb_spec (span_start target) (span_start a)); [done|].
    assert (a ∈ filter (λ a, (span_start a <? span_start target) = true) tier) as Hin.
    { apply list_elem_of_filter. split; [lia | done]. }
    rewrite Hnil in Hin. inversion Hin.
  - intros Hall. destruct (filter _ tier) as [|x l] eqn:E; [done|]. exfalso.
    assert (x ∈ filter (λ a, (span_start a <? span_start target) = true) tier) as Hx.
    { rewrite E. apply list_elem_of_here. }
    apply list_elem_of_filter in Hx as [Hlt Hin]. specialize (Hall x Hin). lia.
Qed.
End TierProps.

Lemma tier_le_total {A} `{SpanLike A} : Total (@tier_le A _).
Proof. intros a b. unfold tier_le. lia. Qed.

(** A tier is sorted and holds the spans it was built from. *)
Lemma mk_tier_sorted {A} `{SpanLike A} (spans : list A) : Sorted tier_le (mk_tier spans).
Proof. apply Sorted_merge_sort, tier_le_total. Qed.

Lemma mk_tier_perm {A} `{SpanLike A} (spans : list A) : mk_tier spans ≡ₚ spans.
Proof. apply merge_sort_Permutation. Qed.

Section OptimalProps.
Context {A : Type} `{SpanLike A}.

Lemma subseqs_sublist (l c : list A) : c ∈ subseqs l ↔ c `sublist_of` l.
Proof.
  revert c. induction l as [|x l IH]; intros c; simpl.
  - rewrite list_elem_of_singleton. split; [intros ->; constructor|].
    intros Hs. by inversion Hs.
  - rewrite elem_of_app, list_elem_of_fmap, sublist_cons_r. setoid_rewrite IH.
    naive_solver.
Qed.

Lemma score_lt_iff (a b : Z * Z) :
  score_lt a b = true ↔ a.1 < b.1 ∨ (a.1 = b.1 ∧ a.2 < b.2).
Proof.
  unfold score_lt. rewrite orb_true_iff, andb_true_iff, !Z.ltb_lt, Z.eqb_eq. done.
Qed.

Lemma score_lt_false_iff (a b : Z * Z) :
  score_lt a b = false ↔ ¬ (a.1 < b.1 ∨ (a.1 = b.1 ∧ a.2 < b.2)).
Proof. rewrite <-score_lt_iff. destruct (score_lt a b); naive_solver. Qed.

Ltac score_lia :=
  repeat match goal with
  | H : score_lt _ _ = true |- _ => apply score_lt_iff in H
  | H : score_lt _ _ = false |- _ => apply score_lt_false_iff in H
  | |- score_lt _ _ = true => apply score_lt_iff
  | |- score_lt _ _ = false => apply score_lt_false_iff
  end; lia.

Lemma score_lt_irrefl (a : Z * Z) : score_lt a a = false.
Proof. score_lia. Qed.

Lemma score_lt_trans (a b c : Z * Z) :
  score_lt a b = true → score_lt b c = true → score_lt a c = true.
Proof. intros. score_lia. Qed.

Lemma score_le_trans (a b c : Z * Z) :
  score_lt a b = false → score_lt b c = false → score_lt a c = false.
Proof. intros. score_lia. Qed.

(** The running maximum of [optimal_span_set]'s fold. *)
Lemma foldl_argmax (score : list A → Z * Z) (init : list A) (cs : list (list A)) :
  let r := foldl (λ best c, if score_lt (score best) (score c) then c else best) init cs in
  (r = init ∨ r ∈ cs) ∧ score_lt (score r) (score init) = false ∧
  ∀ c, c ∈ cs → score_lt (score r) (score c) = false.
Proof.
  revert init. induction cs as [|c cs IH]; intros init; simpl.
  - split; [by left|]. split; [apply score_lt_irrefl | intros c Hc; inversion Hc].
  - destruct (score_lt (score init) (score c)) eqn:Hic.
    + destruct (IH c) as (Hr & Hinit & Hall).
      split; [destruct Hr as [->|Hr]; right; [apply list_elem_of_here | by apply list_elem_of_further]|].
      split.
      * destruct (score_lt _ (score init)) eqn:E; [|done].
        by rewrite (score_lt_trans _ _ _ E Hic) in Hinit.
      * intros c' [->|Hc']%elem_of_cons; [done | by apply Hall].
    + destruct (IH init) as (Hr & Hinit & Hall).
      split; [destruct Hr as [->|Hr]; [by left | right; by apply list_elem_of_further]|].
      split; [done|].
      intros c' [->|Hc']%elem_of_cons; [|by apply Hall].
      by apply (score_le_trans _ (score init)).
Qed.

(** The optimal span set is a subsequence of the tier. *)
Lemma pairwise_disjoint_map {B} `{SpanLike B} (f : A → B) (l : list A) :
  (∀ x, span_start (f x) = span_start x ∧ span_end (f x) = span_end x) →
  pairwise_disjoint (map f l) = pairwise_disjoint l.
Proof.
  intros Hf.
  assert (Hfa : ∀ y l', forallb (λ z, negb (overlaps (f y) z)) (map f l') =
                        forallb (λ z, negb (overlaps y z)) l').
  { intros y l'. induction l' as [|z l' IHl]; [done|]. simpl. rewrite IHl. unfold overlaps.
    destruct (Hf y) as [-> ->], (Hf z) as [-> ->]. done. }
  induction l as [|x l IH]; [done|]. simpl. by rewrite IH, Hfa.
Qed.

Lemma optimal_span_set_sublist (score : list A → Z * Z) (tier : list A) :
  optimal_span_set score tier `sublist_of` tier.
Proof.
  unfold optimal_span_set.
  destruct (foldl_argmax score [] (filter (λ c, pairwise_disjoint c = true) (subseqs tier)))
    as ([Hr|Hr] & _ & _).
  - rewrite Hr. apply sublist_nil_l.
  - apply list_elem_of_filter in Hr as [_ Hr]. by apply subseqs_sublist.
Qed.

(** No two spans of the optimal span set overlap. *)
Lemma optimal_span_set_disjoint (score : list A → Z * Z) (tier : list A) :
  pairwise_disjoint (optimal_span_set score tier) = true.
Proof.
  unfold optimal_span_set.
  destruct (foldl_argmax score [] (filter (λ c, pairwise_disjoint c = true) (subseqs tier)))
    as ([Hr|Hr] & _ & _).
  - by rewrite Hr.
  - by apply list_elem_of_filter in Hr as [? _].
Qed.

(** No subsequence of pairwise non-overlapping spans scores higher. *)
Lemma optimal_span_set_max (score : list A → Z * Z) (tier c : list A) :
  c `sublist_of` tier → pairwise_disjoint c = true →
  score_lt (score (optimal_span_set score tier)) (score c) = false.
Proof.
  intros Hsub Hdis. unfold optimal_span_set.
  destruct (foldl_argmax score [] (filter (λ c, pairwise_disjoint c = true) (subseqs tier)))
    as (_ & _ & Hall).
  apply Hall. apply list_elem_of_filter. split; [done | by apply subseqs_sublist].
Qed.

Lemma overlaps_sym (a b : A) : overlaps a b = overlaps b a.
Proof. unfold overlaps. apply orb_comm. Qed.

Lemma overlaps_self (a : A) : span_start a < span_end a → overlaps a a = true.
Proof. intros Hlt. unfold overlaps. apply orb_true_iff. left. apply andb_true_iff. lia. Qed.

Lemma forallb_Permutation (f : A → bool) (l l' : list A) :
  l ≡ₚ l' → forallb f l = forallb f l'.
Proof.
  intros Hp. apply Bool.eq_true_iff_eq. rewrite !forallb_forall.
  split; intros Hall x Hx; apply Hall; [rewrite Hp | rewrite <-Hp]; done.
Qed.

Lemma pairwise_disjoint_Permutation (l l' : list A) :
  l ≡ₚ l' → pairwise_disjoint l = pairwise_disjoint l'.
Proof.
  induction 1 as [|x l l' Hp IH|x y l|l l' l'' _ IH1 _ IH2]; simpl.
  - done.
  - by rewrite IH, (forallb_Permutation _ l l').
  - rewrite (overlaps_sym y x).
    destruct (forallb (λ z, negb (overlaps x z)) l), (forallb (λ z, negb (overlaps y z)) l),
      (overlaps x y), (pairwise_disjoint l); reflexivity.
  - by rewrite IH1.
Qed.

Lemma sublist_insert (tier s : list A) (c : A) :
  s `sublist_of` tier → c ∈ tier → c ∉ s → ∃ s', s' `sublist_of` tier ∧ s' ≡ₚ c :: s.
Proof.
  intros Hsub. revert c. induction Hsub as [|x l1 l2 Hsub IH|x l1 l2 Hsub IH]; intros c Hc Hn.
  - inversion Hc.
  - apply elem_of_cons in Hc as [->|Hc]; [by destruct Hn; left|].
    destruct (IH c Hc) as (s' & Hs' & Hp); [by intros ?; apply Hn; right|].
    exists (x :: s'). split; [by apply sublist_skip|]. rewrite Hp. apply Permutation_swap.
  - apply elem_of_cons in Hc as [->|Hc].
    + exists (x :: l1). split; [by apply sublist_skip | done].
    + destruct (IH c Hc Hn) as (s' & Hs' & Hp). exists s'. split; [by apply sublist_cons | done].
Qed.

(** A span of the tier that overlaps nothing the optimal set keeps could
    be added to it; when adding a span always raises the score, some
    span of the optimal set overlaps each span of the tier. *)
Lemma optimal_span_set_covers (score : list A → Z * Z) (tier : list A) (c : A) :
  (∀ s s', s' ≡ₚ c :: s → score_lt (score s) (score s') = true) →
  c ∈ tier → span_start c < span_end c →
  ∃ o, o ∈ optimal_span_set score tier ∧ overlaps o c = true.
Proof.
  intros Hscore Hc Hlen.
  set (opt := optimal_span_set score tier).
  destruct (existsb (λ o, overlaps o c) opt) eqn:Hex.
  { apply existsb_exists in Hex as (o & Ho & Hov). exists o. split; [by apply list_elem_of_In | done]. }
  exfalso.
  assert (Hno : ∀ o, o ∈ opt → overlaps o c = false).
  { intros o Ho. destruct (overlaps o c) eqn:Hov; [|done].
    rewrite <-Hex. symmetry. apply existsb_exists. exists o. split; [by apply list_elem_of_In | done]. }
  assert (Hnin : c ∉ opt) by (intros Hin; specialize (Hno c Hin); by rewrite overlaps_self in Hno).
  destruct (sublist_insert tier opt c) as (s' & Hs' & Hp);
    [apply optimal_span_set_sublist | done | done |].
  assert (Hdis : pairwise_disjoint s' = true).
  { rewrite (pairwise_disjoint_Permutation _ _ Hp). simpl. apply andb_true_iff. split.
    - apply forallb_forall. intros y Hy. apply list_elem_of_In in Hy.
      by rewrite overlaps_sym, Hno.
    - apply optimal_span_set_disjoint. }
  pose proof (optimal_span_set_max score tier s' Hs' Hdis) as Hmax.
  fold opt in Hmax. by rewrite Hscore in Hmax.
Qed.
End OptimalProps.
