(* ===== verification/Attributes.v ===== *)
(** * The attribute/count extractor of [infection_annotator.py]

    Tokens as spaCy hands them to the annotator, the [attribute_lemmas]
    table, [generate_attributes], the [groupby] of consecutive indices,
    [generate_counts] (strict numeric-modifier stage, singular-determiner
    stage, lax stage with its [except ValueError]), and the predicates
    [has_trigger_lemmas] and [has_single_count].  The number parser
    [parse_count_text] lives in [utils.py], outside the sources: it is the
    interface [CountParser], with the spec's contract [ParserRecoverable]
    and one executable instance [parse_count_text_model] for witnesses. *)

From Stdlib Require Import ZArith.
From stdpp Require Import base list strings sorting sets.
From S2P Require Import Prelude.

Open Scope string_scope.
Open Scope list_scope.
Open Scope nat_scope.

(** ** Tokens *)

(** A spaCy token as the annotator reads it ([TokenSpan] proxies these
    attributes): surface text, lemma, coarse POS tag, dependency label,
    entity type, index in the document and character offsets. *)
Record token := mk_token {
  text : string;
  lemma_ : string;
  pos_ : string;
  dep_ : string;
  ent_type_ : string;
  i : nat;
  tok_start : Z;
  tok_end : Z
}.

(** spaCy's [token.lower_]. *)
Definition lower_ (t : token) : string := lower (text t).

(** ** [attribute_lemmas] (lines 33-57): POS -> category -> lemmas, in
    the dictionary's order. *)
Definition attribute_lemmas : list (string * list (string * list string)) := [
  ("NOUN", [
    ("infection", ["case"; "victim"; "infection"; "instance"; "diagnosis"; "patient"]);
    ("death", ["death"; "fatality"]);
    ("hospitalization", ["hospitalization"]);
    ("person", ["people"; "person"; "victim"; "patient"; "man"; "woman";
                "male"; "female"; "employee"; "child"])]);
  ("ADJ", [
    ("infection", ["infected"; "sickened"]);
    ("death", ["dead"; "deceased"]);
    ("hospitalization", ["hospitalized"])]);
  ("VERB", [
    ("infection", ["infect"; "sicken"; "stricken"; "strike"; "diagnose"; "afflict"]);
    ("death", ["die"]);
    ("hospitalization", ["hospitalize"; "admit"])])
].

(** [d.get(k, {})] on a dictionary kept as an association list. *)
Fixpoint dict_get {A} (k : string) (d : list (string * A)) : option A :=
  match d with
  | [] => None
  | (k', v) :: d' => if bool_decide (k = k') then Some v else dict_get k d'
  end.

(** ** [generate_attributes] (lines 69-82) *)

(** The categories one token contributes: none for a possessive noun,
    otherwise every category of its POS whose lemma list holds its lemma. *)
Definition token_attributes (table : list (string * list (string * list string)))
    (t : token) : list string :=
  if bool_decide (pos_ t = "NOUN") && bool_decide (dep_ t = "poss") then []
  else
    foldr (λ '(category, lemmas) acc,
             if bool_decide (lemma_ t ∈ lemmas) then category :: acc else acc)
          [] (default [] (dict_get (pos_ t) table)).

Definition generate_attributes_with (table : list (string * list (string * list string)))
    (tokens : list token) : list string :=
  foldr (λ t acc, token_attributes table t ++ acc) [] tokens.

Definition generate_attributes (tokens : list token) : list string :=
  generate_attributes_with attribute_lemmas tokens.

(** ** [itertools.groupby] and the consecutive-index groups *)

(** [groupby(l, key)] keeps adjacent elements with equal keys together. *)
Fixpoint groupby_go {A K} `{EqDecision K} (key : A → K) (k : K) (cur : list A)
    (l : list A) : list (list A) :=
  match l with
  | [] => [cur]
  | x :: l' =>
      if decide (key x = k) then groupby_go key k (cur ++ [x]) l'
      else cur :: groupby_go key (key x) [x] l'
  end.

Definition groupby {A K} `{EqDecision K} (key : A → K) (l : list A) : list (list A) :=
  match l with
  | [] => []
  | x :: l' => groupby_go key (key x) [x] l'
  end.

(** Lines 115-116 (and 161-162): the indices are grouped by the key
    [position - index] of [enumerate(quant_idx)]; each match keeps the
    token it indexes, [tokens[i]]. *)
Definition consecutive_groups (q : list (nat * token)) : list (list (nat * token)) :=
  map (map snd)
      (groupby fst (imap (λ pos ix, (Z.of_nat pos - Z.of_nat ix.1, ix)%Z) q)).

(** ** [generate_counts] (lines 96-171) *)

(** What [parse_count_text] does with a text: a number, [None], or
    raising [ValueError]. *)
Inductive parse_outcome : Type :=
  | Parsed (n : Z)
  | NoValue
  | ParseError.

Class CountParser := parse_count_text : string → parse_outcome.

(** The spec's contract: the parser fails recoverably, it never raises. *)
Class ParserRecoverable `{CountParser} :=
  parse_never_raises : ∀ s, parse_count_text s ≠ ParseError.

Section GenerateCounts.
Context `{CountParser}.

(** The Python call [parse_count_text(s)]. *)
Definition parse_count (s : string) : res (option Z) :=
  match parse_count_text s with
  | Parsed n => Ok (Some n)
  | NoValue => Ok None
  | ParseError => Err ValueError
  end.

Definition is_strict_quant (t : token) : bool :=
  bool_decide (ent_type_ t ∈ ["CARDINAL"; "QUANTITY"]) && bool_decide (dep_ t = "nummod").

Definition is_lax_quant (t : token) : bool :=
  bool_decide (ent_type_ t ∈ ["CARDINAL"; "QUANTITY"]) || bool_decide (dep_ t = "nummod").

(** [[i for (i, t) in enumerate(tokens) if p(t)]], each index with its token. *)
Definition quant_idx (p : token → bool) (tokens : list token) : list (nat * token) :=
  filter (λ it, p it.2 = true) (imap pair tokens).

(** One stage of count matching (lines 103-120, and 153-166 with an
    empty separator): one match is parsed alone, several matches are
    parsed joined when they form one run of adjacent indices.  The
    result is the value of the ["count"] key, [None] when it is not set. *)
Definition count_from_matches (sep : string) (q : list (nat * token))
    : res (option (option Z)) :=
  match q with
  | [] => Ok None
  | [(_, t)] => c ← parse_count (text t); Ok (Some c)
  | _ =>
      match consecutive_groups q with
      | [g] => c ← parse_count (String.concat sep (map (λ it, text it.2) g)); Ok (Some c)
      | _ => Ok None
      end
  end.

(** Lines 131-133: a noun whose lower-cased text differs from its lemma. *)
Definition is_plural (t : token) : bool :=
  bool_decide (lower_ t ≠ lemma_ t) && bool_decide (pos_ t = "NOUN").

Definition exclude_articles : list string := ["any"].

(** Lines 122-141, entered when no ["count"] key is set yet: the
    guard reads [tokens[0]], which raises [IndexError] on an empty list;
    [Ok None] when the stage sets no count. *)
Definition singular_stage (tokens : list token) : res (option (option Z)) :=
  match tokens with
  | [] => Err IndexError
  | t0 :: _ =>
      if bool_decide (dep_ t0 = "det") then
        if negb (existsb is_plural tokens) && negb (bool_decide (lower_ t0 ∈ exclude_articles))
        then Ok (Some (Some 1%Z)) else Ok None
      else Ok None
  end.

(** The dictionary [generate_counts] returns: [{}], or
    [{"attributes": [], "count": ...}] with the count key optional. *)
Inductive counts_md : Type :=
  | NoCounts
  | CountsMd (count : option (option Z)).

Definition generate_counts (tokens : list token) (strict_only : bool) : res counts_md :=
  if bool_decide (length tokens = 0) then Ok NoCounts
  else
    c1 ← count_from_matches " " (quant_idx is_strict_quant tokens);
    c2 ← (match c1 with Some _ => Ok c1 | None => singular_stage tokens end);
    match c2 with
    | Some _ => Ok (CountsMd c2)
    | None =>
        if strict_only then Ok (CountsMd None)
        else
          match count_from_matches "" (quant_idx is_lax_quant tokens) with
          | Ok c3 => Ok (CountsMd c3)
          | Err ValueError => Ok NoCounts
          | Err e => Err e
          end
    end.
End GenerateCounts.

(** ** Merged metadata *)

(** The metadata of a candidate span: its attribute list and its count
    ([None] when the ["count"] key is absent or holds [None]). *)
Record metadata := mk_md {
  attributes : list string;
  count : option Z
}.

(** [utils.merge_dicts] (outside the sources), as the spec states it:
    attribute lists are concatenated, a count fills a gap and never
    overwrites one. *)
Definition merge_dicts (a b : metadata) : metadata :=
  mk_md (attributes a ++ attributes b)
        (match count a with Some n => Some n | None => count b end).

Definition counts_to_md (c : counts_md) : metadata :=
  match c with
  | CountsMd (Some (Some n)) => mk_md [] (Some n)
  | _ => mk_md [] None
  end.

(** [merge_dicts([generate_attributes(ts), generate_counts(ts)], unique=True)]
    (lines 223-226, 234-237, 335-338, 346-349, 361-364). *)
Definition attrs_and_counts `{CountParser} (tokens : list token) : res metadata :=
  c ← generate_counts tokens false;
  Ok (merge_dicts (mk_md (generate_attributes tokens) None) (counts_to_md c)).

(** [has_trigger_lemmas] (lines 202-203). *)
Definition trigger_lemmas : list string := ["infection"; "death"; "hospitalization"].

Definition has_trigger_lemmas (md : metadata) : bool :=
  existsb (λ l, bool_decide (l ∈ attributes md)) trigger_lemmas.

(** [has_single_count] (lines 206-207): a count is set and is not a list;
    counts are never lists here, [merge_dicts] does not build one. *)
Definition has_single_count (md : metadata) : bool :=
  match count md with Some _ => true | None => false end.

(** ** An executable number parser

    [utils.parse_count_text] is outside the sources; the spec asks it to
    accept integers and spelled-out numbers and to fail with "no value".
    This instance reads decimal digits and the spelled numbers up to
    twelve; it never raises. *)
Definition digit_value (c : Ascii.ascii) : option Z :=
  let n := Ascii.nat_of_ascii c in
  if (48 <=? n)%nat && (n <=? 57)%nat then Some (Z.of_nat n - 48)%Z else None.

Fixpoint digits_value (acc : Z) (s : string) : option Z :=
  match s with
  | EmptyString => Some acc
  | String c s' =>
      match digit_value c with
      | Some d => digits_value (10 * acc + d)%Z s'
      | None => None
      end
  end.

Definition spelled_numbers : list (string * Z) :=
  [("one", 1); ("two", 2); ("three", 3); ("four", 4); ("five", 5); ("six", 6);
   ("seven", 7); ("eight", 8); ("nine", 9); ("ten", 10); ("eleven", 11);
   ("twelve", 12)]%Z.

Definition parse_count_text_model (s : string) : parse_outcome :=
  let s' := strip s in
  match s' with
  | EmptyString => NoValue
  | _ =>
      match digits_value 0 s' with
      | Some n => Parsed n
      | None =>
          match dict_get (lower s') spelled_numbers with
          | Some n => Parsed n
          | None => NoValue
          end
      end
  end.

#[export] Instance model_parser : CountParser := parse_count_text_model.

#[export] Instance model_parser_recoverable : ParserRecoverable.
Proof.
  intros s. unfold parse_count_text, model_parser, parse_count_text_model.
  destruct (strip s); [discriminate|].
  destruct (digits_value _ _); [discriminate|].
  destruct (dict_get _ _); discriminate.
Qed.

(** ** Metadata up to the order and multiplicity of attributes

    The code only tests membership in attribute lists, and [merge_dicts]
    with [unique=True] deduplicates them: two metadata that agree on
    membership and count are interchangeable. *)
Definition md_equiv (a b : metadata) : Prop :=
  (∀ x, x ∈ attributes a ↔ x ∈ attributes b) ∧ count a = count b.

(** ** Sample tokens, used by the witnesses below *)

Definition three_tok := mk_token "Three" "three" "NUM" "nummod" "CARDINAL" 0 0 5.
Definition patients_tok := mk_token "patients" "patient" "NOUN" "nsubjpass" "" 1 6 14.
Definition a_tok := mk_token "a" "a" "DET" "det" "" 0 0 1.
Definition patient_tok := mk_token "patient" "patient" "NOUN" "dobj" "" 1 2 9.
Definition some_tok := mk_token "some" "some" "DET" "det" "" 0 0 4.
Definition the_tok := mk_token "the" "the" "DET" "det" "" 0 0 3.
Definition patient_poss_tok := mk_token "patient" "patient" "NOUN" "poss" "" 1 4 11.
Definition children_tok := mk_token "children" "child" "NOUN" "dobj" "" 3 14 22.

(** A parser that raises on every text. *)
Definition raising_parser : CountParser := λ _, ParseError.

(** * Properties *)

(** ** [groupby] *)

Section Groupby.
Context {A K : Type} `{EqDecision K} (key : A → K).

Lemma groupby_go_concat (k : K) (cur l : list A) :
  concat (groupby_go key k cur l) = cur ++ l.
Proof.
  revert k cur. induction l as [|x l IH]; intros k cur; simpl.
  - by rewrite app_nil_r.
  - destruct (decide (key x = k)); simpl; rewrite IH; [by rewrite <-app_assoc | done].
Qed.

Lemma groupby_go_nonempty (k : K) (cur l : list A) :
  1 ≤ length (groupby_go key k cur l).
Proof.
  revert k cur. induction l as [|x l IH]; intros k cur; simpl; [lia|].
  case_decide; [apply IH | simpl; lia].
Qed.

Lemma groupby_go_single (k : K) (cur l : list A) :
  length (groupby_go key k cur l) = 1 ↔ Forall (λ y, key y = k) l.
Proof.
  revert k cur. induction l as [|x l IH]; intros k cur; simpl.
  - split; [constructor | done].
  - case_decide as Hk.
    + rewrite IH, Forall_cons. naive_solver.
    + simpl. pose proof (groupby_go_nonempty (key x) [x] l).
      rewrite Forall_cons. split; [lia | naive_solver].
Qed.

(** Flattening the groups gives back the list. *)
Lemma groupby_concat (l : list A) : concat (groupby key l) = l.
Proof. destruct l as [|x l]; [done|]. apply groupby_go_concat. Qed.

(** One group exactly when all keys are the first one. *)
Lemma groupby_single (x : A) (l : list A) :
  length (groupby key (x :: l)) = 1 ↔ Forall (λ y, key y = key x) l.
Proof. apply groupby_go_single. Qed.
End Groupby.

(** ** The consecutive-index groups *)

(** C5: [consecutive_groups] (the [groupby] of lines 115-116 and
    161-162) yields one group exactly when the matched indices form one
    run [i0, i0+1, i0+2, ...]. *)
Lemma consecutive_groups_single_run (i0 : nat) (t0 : token) (q : list (nat * token)) :
  length (consecutive_groups ((i0, t0) :: q)) = 1 ↔
  ∀ p ix, q !! p = Some ix → ix.1 = i0 + S p.
Proof.
  unfold consecutive_groups. rewrite length_map, imap_cons, groupby_single.
  rewrite Forall_lookup. simpl.
  setoid_rewrite list_lookup_imap.
  split.
  - intros Hall p ix Hp. specialize (Hall p ((Z.of_nat (S p) - Z.of_nat ix.1)%Z, ix)).
    rewrite Hp in Hall. simpl in Hall. specialize (Hall eq_refl). lia.
  - intros Hrun p y Hy. destruct (q !! p) as [ix|] eqn:Hp; [|discriminate].
    simpl in Hy. injection Hy as <-. simpl. specialize (Hrun p ix Hp). lia.
Qed.

(** Every match ends up in exactly one group, in order. *)
Lemma map_snd_imap_tag {B} (kf : nat → nat * token → B) (q : list (nat * token)) :
  map snd (imap (λ p ix, (kf p ix, ix)) q) = q.
Proof.
  revert kf. induction q as [|ix q IH]; intros kf; [done|].
  rewrite imap_cons. simpl. f_equal. apply (IH (λ p, kf (S p))).
Qed.

(** Every match ends up in exactly one group, in order. *)
Lemma consecutive_groups_concat (q : list (nat * token)) :
  concat (consecutive_groups q) = q.
Proof.
  unfold consecutive_groups. rewrite <-concat_map, groupby_concat.
  apply map_snd_imap_tag.
Qed.

(** ** [generate_counts] *)

Section CountsProps.
Context `{CountParser}.

Lemma quant_idx_nil_tokens (p : token → bool) : quant_idx p [] = [].
Proof. done. Qed.

(** With a parser that never raises, a matching stage never raises. *)
Lemma count_from_matches_total `{!ParserRecoverable} (sep : string)
    (q : list (nat * token)) :
  ∃ c, count_from_matches sep q = Ok c.
Proof.
  assert (Hp : ∀ s, ∃ c, parse_count s = Ok c).
  { intros s. unfold parse_count. pose proof (parse_never_raises s).
    destruct (parse_count_text s); eauto; congruence. }
  unfold count_from_matches. repeat case_match; eauto;
    match goal with |- ∃ _, (parse_count ?s ≫= _) = _ => destruct (Hp s) as [c ->] end;
    simpl; eauto.
Qed.

(** Past the guard of line 97 on a non-empty token list. *)
Local Ltac gc_cons :=
  unfold generate_counts; try rewrite (bool_decide_eq_false_2 (length (_ :: _) = 0)) by (simpl; lia).

(** C1: when exactly one token is a cardinal or quantity entity in a
    numeric-modifier role, the count is the parse of that token's text
    alone, whatever the later stages would say. *)
Theorem generate_counts_strict_single (tokens : list token) (strict_only : bool)
    (k : nat) (t : token) (n : Z) :
  quant_idx is_strict_quant tokens = [(k, t)] →
  parse_count_text (text t) = Parsed n →
  generate_counts tokens strict_only = Ok (CountsMd (Some (Some n))).
Proof.
  intros Hq Hp. destruct tokens as [|t0 ts]; [discriminate|].
  gc_cons. rewrite Hq. simpl. unfold parse_count. by rewrite Hp.
Qed.

(** C2: a chunk opened by a determiner other than "any", with no strict
    numeric match and no plural noun, is inferred to count one. *)
Theorem generate_counts_singular (t0 : token) (ts : list token) (strict_only : bool) :
  quant_idx is_strict_quant (t0 :: ts) = [] →
  dep_ t0 = "det" →
  lower_ t0 ∉ exclude_articles →
  Forall (λ t, is_plural t = false) (t0 :: ts) →
  generate_counts (t0 :: ts) strict_only = Ok (CountsMd (Some (Some 1%Z))).
Proof.
  intros Hq Hdet Hex Hpl.
  assert (Hnp : existsb is_plural (t0 :: ts) = false).
  { apply not_true_iff_false. rewrite existsb_exists.
    intros (t & Ht & Htp). rewrite Forall_forall in Hpl.
    rewrite Hpl in Htp; [discriminate | by apply list_elem_of_In]. }
  gc_cons. rewrite Hq. unfold singular_stage. rewrite Hnp.
  rewrite bool_decide_eq_true_2 by done.
  rewrite (bool_decide_eq_false_2 (lower_ t0 ∈ exclude_articles)) by done.
  reflexivity.
Qed.

(** C3: with a plural noun and no numeric token at all (neither strict
    nor lax), no count is produced. *)
Theorem generate_counts_plural_no_count (tokens : list token) (strict_only : bool) :
  quant_idx is_strict_quant tokens = [] →
  quant_idx is_lax_quant tokens = [] →
  Exists (λ t, is_plural t = true) tokens →
  generate_counts tokens strict_only = Ok (CountsMd None).
Proof.
  intros Hq Hlax Hpl. destruct tokens as [|t0 ts]; [inversion Hpl|].
  assert (Hp : existsb is_plural (t0 :: ts) = true).
  { apply existsb_exists. apply Exists_exists in Hpl.
    destruct Hpl as (t & Ht & Htp). exists t. split; [by apply list_elem_of_In | done]. }
  gc_cons. rewrite Hq. unfold singular_stage. rewrite Hp, Hlax.
  simpl. by destruct (bool_decide _), strict_only.
Qed.

(** C6: a [ValueError] of the parser at the strict stage is not caught:
    [generate_counts] raises it. *)
Theorem generate_counts_strict_raises (tokens : list token) (strict_only : bool)
    (k : nat) (t : token) :
  quant_idx is_strict_quant tokens = [(k, t)] →
  parse_count_text (text t) = ParseError →
  generate_counts tokens strict_only = Err ValueError.
Proof.
  intros Hq Hp. destruct tokens as [|t0 ts]; [discriminate|].
  gc_cons. rewrite Hq. simpl. unfold parse_count. by rewrite Hp.
Qed.


(** Past the guard, the singular stage reads [tokens[0]] safely. *)
Lemma singular_stage_cons_ok (t0 : token) (ts : list token) :
  ∃ c, singular_stage (t0 :: ts) = Ok c.
Proof. unfold singular_stage. repeat case_match; eauto. Qed.

Lemma generate_counts_ok `{!ParserRecoverable} (tokens : list token)
    (strict_only : bool) :
  ∃ c, generate_counts tokens strict_only = Ok c ∧ (c = NoCounts ↔ tokens = []).
Proof.
  destruct tokens as [|t0 ts]; [by exists NoCounts|]. gc_cons.
  destruct (count_from_matches_total " " (quant_idx is_strict_quant (t0 :: ts)))
    as [c1 ->].
  destruct (singular_stage_cons_ok t0 ts) as [c2 Hs].
  destruct (count_from_matches_total "" (quant_idx is_lax_quant (t0 :: ts)))
    as [c3 ->].
  res_simpl. destruct c1; [|rewrite Hs; destruct c2]; [..|destruct strict_only];
    (eexists; split; [reflexivity | split; discriminate]).
Qed.

(** C4: under the spec's contract on the parser, [generate_counts] never
    raises, for every token sequence and strictness, and it returns the
    empty dictionary [{}] exactly for the empty token list (the guard of
    line 97, which also keeps [tokens[0]] of line 122 from raising). *)
Theorem generate_counts_total `{!ParserRecoverable} (tokens : list token)
    (strict_only : bool) :
  ∃ c, generate_counts tokens strict_only = Ok c ∧ (c = NoCounts ↔ tokens = []).
Proof. apply generate_counts_ok. Qed.

(** [merge_dicts([generate_attributes(ts), generate_counts(ts)])] never
    raises under the parser's contract. *)
Lemma attrs_and_counts_ok `{!ParserRecoverable} (tokens : list token) :
  ∃ md, attrs_and_counts tokens = Ok md.
Proof.
  unfold attrs_and_counts. destruct (generate_counts_ok tokens false) as [c [-> _]].
  simpl. eauto.
Qed.

Lemma attrs_and_counts_nil : attrs_and_counts [] = Ok (mk_md [] None).
Proof. reflexivity. Qed.

(** Metadata with a trigger category comes from a non-empty token list. *)
Lemma attrs_and_counts_trigger_nonempty (tokens : list token) (md : metadata) :
  attrs_and_counts tokens = Ok md → has_trigger_lemmas md = true → tokens ≠ [].
Proof.
  intros Hmd Ht ->. rewrite attrs_and_counts_nil in Hmd.
  injection Hmd as <-. discriminate.
Qed.
End CountsProps.

(** ** [generate_attributes] *)

Section AttributesProps.
Context (table : list (string * list (string * list string))).

Lemma category_fold_spec (x a : string) (cats : list (string * list string)) :
  a ∈ foldr (λ '(category, lemmas) acc,
               if bool_decide (x ∈ lemmas) then category :: acc else acc) [] cats ↔
  ∃ lemmas, (a, lemmas) ∈ cats ∧ x ∈ lemmas.
Proof.
  induction cats as [|[c ls] cats IH]; simpl.
  - split; [intros Ha; inversion Ha | intros (? & Hin & _); inversion Hin].
  - case_bool_decide; rewrite ?elem_of_cons, IH; setoid_rewrite elem_of_cons;
      naive_solver.
Qed.

Lemma token_attributes_spec (t : token) (a : string) :
  a ∈ token_attributes table t ↔
  ¬ (pos_ t = "NOUN" ∧ dep_ t = "poss") ∧
  ∃ cats lemmas, dict_get (pos_ t) table = Some cats ∧ (a, lemmas) ∈ cats ∧
                 lemma_ t ∈ lemmas.
Proof.
  unfold token_attributes.
  destruct (bool_decide (pos_ t = "NOUN") && bool_decide (dep_ t = "poss")) eqn:E.
  - apply andb_true_iff in E as [E1 E2]. apply bool_decide_eq_true_1 in E1, E2.
    split; [intros Ha; inversion Ha | naive_solver].
  - rewrite category_fold_spec. apply andb_false_iff in E.
    assert (¬ (pos_ t = "NOUN" ∧ dep_ t = "poss")).
    { intros [E1 E2]. destruct E as [E|E]; apply bool_decide_eq_false_1 in E; auto. }
    destruct (dict_get (pos_ t) table) as [cats|]; simpl.
    + naive_solver.
    + split; [intros (? & Hin & _); inversion Hin | naive_solver].
Qed.

Lemma generate_attributes_with_app (l1 l2 : list token) :
  generate_attributes_with table (l1 ++ l2) =
  generate_attributes_with table l1 ++ generate_attributes_with table l2.
Proof.
  induction l1 as [|t l1 IH]; [done|]. simpl. rewrite IH. apply app_assoc.
Qed.

Lemma generate_attributes_with_elem (tokens : list token) (a : string) :
  a ∈ generate_attributes_with table tokens ↔
  ∃ t, t ∈ tokens ∧ a ∈ token_attributes table t.
Proof.
  induction tokens as [|t ts IH]; simpl.
  - split; [intros Ha; inversion Ha | intros (? & Hin & _); inversion Hin].
  - rewrite elem_of_app, IH. setoid_rewrite elem_of_cons. naive_solver.
Qed.
End AttributesProps.

(** C8: a category is among the attributes of a token sequence exactly
    when some token that is not a possessive noun has a lemma listed
    under that category for its part of speech. *)
Theorem generate_attributes_spec (tokens : list token) (a : string) :
  a ∈ generate_attributes tokens ↔
  ∃ t, t ∈ tokens ∧ ¬ (pos_ t = "NOUN" ∧ dep_ t = "poss") ∧
       ∃ cats lemmas, dict_get (pos_ t) attribute_lemmas = Some cats ∧
                      (a, lemmas) ∈ cats ∧ lemma_ t ∈ lemmas.
Proof.
  unfold generate_attributes. rewrite generate_attributes_with_elem.
  setoid_rewrite token_attributes_spec. done.
Qed.

(** C9: a noun in a possessive role contributes no attribute: removing it
    from the sequence leaves the attributes unchanged. *)
Theorem generate_attributes_skip_possessive (l1 l2 : list token) (t : token) :
  pos_ t = "NOUN" → dep_ t = "poss" →
  generate_attributes (l1 ++ t :: l2) = generate_attributes (l1 ++ l2).
Proof.
  intros Hpos Hdep. unfold generate_attributes.
  rewrite !generate_attributes_with_app. f_equal. simpl.
  unfold token_attributes. rewrite Hpos, Hdep. reflexivity.
Qed.

(** ** Metadata up to attribute membership *)

#[export] Instance md_equiv_equivalence : Equivalence md_equiv.
Proof.
  split.
  - intros a. split; [done | reflexivity].
  - intros a b [Ha Hc]. split; [intros x; by rewrite Ha | done].
  - intros a b c [Hab Hcab] [Hbc Hcbc]. split; [intros x; by rewrite Hab | congruence].
Qed.

Lemma has_trigger_lemmas_spec (md : metadata) :
  has_trigger_lemmas md = true ↔ ∃ l, l ∈ trigger_lemmas ∧ l ∈ attributes md.
Proof.
  unfold has_trigger_lemmas. rewrite existsb_exists.
  setoid_rewrite bool_decide_eq_true. setoid_rewrite <-list_elem_of_In. done.
Qed.

#[export] Instance has_trigger_lemmas_proper : Proper (md_equiv ==> eq) has_trigger_lemmas.
Proof.
  intros a b [Ha _]. apply Bool.eq_iff_eq_true. rewrite !has_trigger_lemmas_spec.
  setoid_rewrite Ha. done.
Qed.

#[export] Instance has_single_count_proper : Proper (md_equiv ==> eq) has_single_count.
Proof. intros a b [_ Hc]. unfold has_single_count. by rewrite Hc. Qed.

#[export] Instance merge_dicts_proper : Proper (md_equiv ==> md_equiv ==> md_equiv) merge_dicts.
Proof.
  intros a a' [Ha Hca] b b' [Hb Hcb]. split; simpl.
  - intros x. rewrite !elem_of_app, Ha, Hb. done.
  - by rewrite Hca, Hcb.
Qed.

(** Deduplicating the attribute list, as [merge_dicts(..., unique=True)]
    does, gives equivalent metadata. *)
Lemma md_equiv_remove_dups (l : list string) (c : option Z) :
  md_equiv (mk_md (remove_dups l) c) (mk_md l c).
Proof. split; [intros x; apply elem_of_remove_dups | done]. Qed.

Lemma has_trigger_lemmas_merge (a b : metadata) :
  has_trigger_lemmas (merge_dicts a b) = has_trigger_lemmas a || has_trigger_lemmas b.
Proof.
  apply Bool.eq_iff_eq_true. rewrite orb_true_iff, !has_trigger_lemmas_spec. simpl.
  setoid_rewrite elem_of_app. naive_solver.
Qed.

Lemma has_single_count_merge (a b : metadata) :
  has_single_count (merge_dicts a b) = has_single_count a || has_single_count b.
Proof. unfold has_single_count. simpl. by destruct (count a), (count b). Qed.

#[export] Hint Rewrite has_trigger_lemmas_merge has_single_count_merge : epi_rw.

(** ** Witnesses *)

Lemma generate_counts_strict_single_witness :
  generate_counts [three_tok; patients_tok] false = Ok (CountsMd (Some (Some 3%Z))).
Proof. apply (generate_counts_strict_single _ _ 0 three_tok); reflexivity. Defined.

Lemma generate_counts_singular_witness :
  generate_counts [a_tok; patient_tok] false = Ok (CountsMd (Some (Some 1%Z))).
Proof.
  apply generate_counts_singular; [reflexivity | reflexivity | vm_compute; set_solver |].
  repeat constructor.
Defined.

Lemma generate_counts_plural_no_count_witness :
  generate_counts [some_tok; patients_tok] false = Ok (CountsMd None).
Proof.
  apply generate_counts_plural_no_count; [reflexivity | reflexivity |].
  apply Exists_cons; right. apply Exists_cons; left. reflexivity.
Defined.

Lemma generate_counts_total_witness :
  ∃ c, generate_counts [the_tok; patient_poss_tok; children_tok] true = Ok c ∧
       (c = NoCounts ↔ [the_tok; patient_poss_tok; children_tok] = []).
Proof. apply generate_counts_total. Defined.

Lemma generate_counts_strict_raises_witness :
  @generate_counts raising_parser [three_tok; patients_tok] false = Err ValueError.
Proof. apply (@generate_counts_strict_raises raising_parser _ _ 0 three_tok); reflexivity. Defined.


Lemma generate_attributes_skip_possessive_witness :
  generate_attributes [the_tok; patient_poss_tok; children_tok] = ["person"].
Proof.
  change [the_tok; patient_poss_tok; children_tok]
    with ([the_tok] ++ patient_poss_tok :: [children_tok]).
  rewrite (generate_attributes_skip_possessive [the_tok] [children_tok] patient_poss_tok)
    by reflexivity.
  reflexivity.
Defined.
