(* ===== verification/InfectionSpans.v ===== *)
(** * The infection span builder of [infection_annotator.py]

    [from_noun_chunks_with_infection_lemmas] (lines 210-260) and
    [from_noun_chunks_with_person_lemmas] (lines 326-382): for every noun
    chunk, the merged attributes and count of its tokens, the widening to
    the root's ancestors (shared by both passes) and, in the person pass,
    to the disjoint subtree, and the span built from the contributing
    tokens.  A document is the [spacy.noun_chunks] tier, each chunk with
    the tokens the token tier holds inside it and the ancestors and
    subtree spaCy's parse gives ([TokenSpan] projections). *)

From Stdlib Require Import ZArith.
From stdpp Require Import base list strings sorting sets.
From S2P Require Import Prelude Spans Attributes.

Open Scope string_scope.
Open Scope list_scope.
Open Scope nat_scope.

(** A noun chunk: [tokens_tier.spans_contained_by_span(nc)], the
    ancestors of [nc.span.root], and [nc.span.subtree].  The tokens of
    [nc.span] are the chunk's tokens. *)
Record noun_chunk := mk_nc {
  nc_tokens : list token;
  nc_ancestors : list token;
  nc_subtree : list token
}.

(** The document, as far as these passes read it. *)
Record document := mk_doc {
  noun_chunks : list noun_chunk
}.

(** A token of [spacy.tokens] is a span. *)
#[export] Instance token_spanlike : SpanLike token :=
  {| span_start := tok_start; span_end := tok_end |}.

(** [spacy_tokens_for_span] (lines 86-93): the tokens of the token tier
    inside a span (the source maps each [TokenSpan] to its token, which
    the model does not distinguish). *)
Definition spacy_tokens_for_span {A} `{SpanLike A} (tokens_tier : list token) (span : A)
    : list token :=
  spans_contained_by_span tokens_tier span.

(** A span of [spacy.noun_chunks] with the projections of its root's
    ancestors and of its subtree (lines 233, 345 and 360). *)
Record nc_span := mk_ncspan {
  ncs_start : Z;
  ncs_end : Z;
  ncs_ancestors : list token;
  ncs_subtree : list token
}.

#[export] Instance nc_spanlike : SpanLike nc_span :=
  {| span_start := ncs_start; span_end := ncs_end |}.

(** Lines 221 and 334: [nc_tokens], the tokens of the token tier inside
    the chunk. *)
Definition chunk_of_span (tokens_tier : list token) (nc : nc_span) : noun_chunk :=
  mk_nc (spans_contained_by_span tokens_tier nc) (ncs_ancestors nc) (ncs_subtree nc).

(** Lines 213-214 and 327-328: the document the two passes walk, from
    the noun-chunk tier and the token tier. *)
Definition document_of (tokens_tier : list token) (ncs : list nc_span) : document :=
  mk_doc (map (chunk_of_span tokens_tier) ncs).

(** An [AnnoSpan(start, end, doc, metadata=metadata)] of the result. *)
Record infection_span := mk_ispan {
  is_start : Z;
  is_end : Z;
  is_meta : metadata
}.

Section Builder.
Context `{CountParser}.

(** Lines 232/344: some token of the chunk is a subject or direct object. *)
Definition subject_deps : list string := ["nsubj"; "nsubjpass"; "dobj"].

Definition has_subject_dep (ts : list token) : bool :=
  existsb (λ dep, bool_decide (dep ∈ map dep_ ts)) subject_deps.

(** Lines 232-243 and 344-355: merge the ancestors when the chunk is a
    subject or object and the ancestors carry a trigger category. *)
Definition widen_with_ancestors (nc : noun_chunk) (out_tokens : list token)
    (md : metadata) : res (list token * metadata) :=
  if has_subject_dep (nc_tokens nc) then
    amd ← attrs_and_counts (nc_ancestors nc);
    if has_trigger_lemmas amd then Ok (out_tokens ++ nc_ancestors nc, merge_dicts md amd)
    else Ok (out_tokens, md)
  else Ok (out_tokens, md).

(** Line 360: the subtree tokens that are not tokens of the chunk. *)
Definition disjoint_subtree (nc : noun_chunk) : list token :=
  filter (λ w, i w ∉ map i (nc_tokens nc)) (nc_subtree nc).

(** Lines 359-370: merge the disjoint subtree when it carries a trigger. *)
Definition widen_with_subtree (nc : noun_chunk) (out_tokens : list token)
    (md : metadata) : res (list token * metadata) :=
  smd ← attrs_and_counts (disjoint_subtree nc);
  if has_trigger_lemmas smd then Ok (out_tokens ++ disjoint_subtree nc, merge_dicts md smd)
  else Ok (out_tokens, md).

(** Lines 256-258 and 378-380: the span from the smallest start to the
    largest end of the contributing tokens ([min]/[max] raise on an empty
    list). *)
Definition span_of_tokens (out_tokens : list token) (md : metadata) : res infection_span :=
  start ← py_min (map tok_start out_tokens);
  end_ ← py_max (map tok_end out_tokens);
  Ok (mk_ispan start end_ md).

(** The body of the loop of [from_noun_chunks_with_infection_lemmas]. *)
Definition infection_chunk (nc : noun_chunk) : res (option infection_span) :=
  md ← attrs_and_counts (nc_tokens nc);
  '(out_tokens, md) ←
    (if has_trigger_lemmas md then widen_with_ancestors nc (nc_tokens nc) md
     else Ok (nc_tokens nc, md));
  if has_trigger_lemmas md && has_single_count md then
    s ← span_of_tokens out_tokens md; Ok (Some s)
  else Ok None.

(** The body of the loop of [from_noun_chunks_with_person_lemmas]. *)
Definition person_chunk (nc : noun_chunk) : res (option infection_span) :=
  md ← attrs_and_counts (nc_tokens nc);
  if bool_decide ("person" ∈ attributes md) then
    '(out_tokens, md) ← widen_with_ancestors nc (nc_tokens nc) md;
    '(out_tokens, md) ←
      (if has_trigger_lemmas md then Ok (out_tokens, md)
       else widen_with_subtree nc out_tokens md);
    if bool_decide ("person" ∈ attributes md) && has_trigger_lemmas md &&
       has_single_count md then
      s ← span_of_tokens out_tokens md; Ok (Some s)
    else Ok None
  else Ok None.

(** The two passes keep the accepted spans in chunk order. *)
Definition collect_spans (step : noun_chunk → res (option infection_span))
    (doc : document) : res (list infection_span) :=
  spans ← mapM step (noun_chunks doc); Ok (omap id spans).

Definition from_noun_chunks_with_infection_lemmas (doc : document)
    : res (list infection_span) :=
  collect_spans infection_chunk doc.

Definition from_noun_chunks_with_person_lemmas (doc : document)
    : res (list infection_span) :=
  collect_spans person_chunk doc.

(** Lines 388-390: the candidate spans of [InfectionAnnotator.annotate],
    the first pass followed by the second. *)
Definition candidate_spans (doc : document) : res (list infection_span) :=
  s1 ← from_noun_chunks_with_infection_lemmas doc;
  s2 ← from_noun_chunks_with_person_lemmas doc;
  Ok (s1 ++ s2).
End Builder.

(** ** Sample documents, used by the witnesses below *)

(** "Three patients were infected in the outbreak." *)
Definition were_tok := mk_token "were" "be" "AUX" "auxpass" "" 2 15 19.
Definition infected_tok := mk_token "infected" "infect" "VERB" "ROOT" "" 3 20 28.
Definition in_tok := mk_token "in" "in" "ADP" "prep" "" 4 29 31.
Definition the_outbreak_tok := mk_token "the" "the" "DET" "det" "" 5 32 35.
Definition outbreak_tok := mk_token "outbreak" "outbreak" "NOUN" "pobj" "" 6 36 44.
Definition three_patients_chunk :=
  mk_nc [three_tok; patients_tok] [infected_tok] [three_tok; patients_tok].
Definition outbreak_chunk :=
  mk_nc [the_outbreak_tok; outbreak_tok] [in_tok; infected_tok] [the_outbreak_tok; outbreak_tok].
Definition three_patients_doc := mk_doc [three_patients_chunk; outbreak_chunk].

(** "Three people died.": the chunk names persons, the verb the event. *)
Definition people_tok := mk_token "people" "people" "NOUN" "nsubj" "" 1 6 12.
Definition died_tok := mk_token "died" "die" "VERB" "ROOT" "" 2 13 17.
Definition three_people_chunk :=
  mk_nc [three_tok; people_tok] [died_tok] [three_tok; people_tok].
Definition three_people_doc := mk_doc [three_people_chunk].

(** * Properties *)

Section BuilderProps.
Context `{CountParser}.

(** ** The span of the contributing tokens *)

Lemma span_of_tokens_ok (out : list token) (md : metadata) :
  out ≠ [] → ∃ s, span_of_tokens out md = Ok s.
Proof.
  intros Hne. unfold span_of_tokens.
  destruct (py_min_nonempty (map tok_start out)) as [lo ->];
    [by intros Hm%map_eq_nil|].
  destruct (py_max_nonempty (map tok_end out)) as [hi ->];
    [by intros Hm%map_eq_nil|].
  simpl. eauto.
Qed.

(** The span reaches over every contributing token and keeps the
    metadata. *)
Lemma span_of_tokens_covers (out : list token) (md : metadata) (s : infection_span) :
  span_of_tokens out md = Ok s →
  is_meta s = md ∧
  Forall (λ t, (is_start s <= tok_start t)%Z ∧ (tok_end t <= is_end s)%Z) out.
Proof.
  unfold span_of_tokens. intros Hs.
  apply res_bind_Ok in Hs as (lo & Hlo & Hs). apply res_bind_Ok in Hs as (hi & Hhi & Hs).
  injection Hs as <-. simpl. split; [done|].
  apply py_min_spec in Hlo. apply py_max_spec in Hhi.
  rewrite Forall_map in Hlo, Hhi. by apply Forall_and.
Qed.

(** ** Widening keeps the chunk's tokens and a trigger's tokens *)

(** A trigger category in the metadata is backed by some token. *)
Definition supported (out : list token) (md : metadata) : Prop :=
  has_trigger_lemmas md = true → out ≠ [].

Lemma supported_app (out extra : list token) (md : metadata) :
  extra ≠ [] → supported (out ++ extra) md.
Proof. intros Hx _ Happ. apply app_eq_nil in Happ as [_ ?]. done. Qed.

Lemma widen_with_ancestors_shape (nc : noun_chunk) (out : list token) (md : metadata)
    (out' : list token) (md' : metadata) :
  widen_with_ancestors nc out md = Ok (out', md') →
  (∃ extra, out' = out ++ extra ∧ extra ⊆ nc_ancestors nc) ∧
  (supported out md → supported out' md').
Proof.
  unfold widen_with_ancestors. destruct (has_subject_dep (nc_tokens nc)).
  - destruct (attrs_and_counts (nc_ancestors nc)) as [amd|e] eqn:Ea; [|discriminate].
    simpl. destruct (has_trigger_lemmas amd) eqn:Ht; intros [= <- <-].
    + split; [eauto|]. intros _. apply supported_app.
      by apply (attrs_and_counts_trigger_nonempty _ amd).
    + split; [exists []; rewrite app_nil_r; split; [done | set_solver] | done].
  - intros [= <- <-]. split; [exists []; rewrite app_nil_r; split; [done | set_solver] | done].
Qed.

Lemma widen_with_subtree_shape (nc : noun_chunk) (out : list token) (md : metadata)
    (out' : list token) (md' : metadata) :
  widen_with_subtree nc out md = Ok (out', md') →
  (∃ extra, out' = out ++ extra ∧ extra ⊆ nc_subtree nc) ∧
  (supported out md → supported out' md').
Proof.
  unfold widen_with_subtree.
  destruct (attrs_and_counts (disjoint_subtree nc)) as [smd|e] eqn:Es; [|discriminate].
  simpl. destruct (has_trigger_lemmas smd) eqn:Ht; intros [= <- <-].
  - split.
    + exists (disjoint_subtree nc). split; [done|]. intros x Hx.
      unfold disjoint_subtree in Hx. by apply list_elem_of_filter in Hx as [_ ?].
    + intros _. apply supported_app. by apply (attrs_and_counts_trigger_nonempty _ smd).
  - split; [exists []; rewrite app_nil_r; split; [done | set_solver] | done].
Qed.



Lemma chunk_supported (nc : noun_chunk) (md : metadata) :
  attrs_and_counts (nc_tokens nc) = Ok md → supported (nc_tokens nc) md.
Proof. intros Hmd Ht. by apply (attrs_and_counts_trigger_nonempty _ md). Qed.

(** A span built from a chunk: the hull of a token list that holds the
    chunk's tokens and only adds ancestors or subtree tokens, with a
    trigger category behind it. *)
Definition built_from (nc : noun_chunk) (s : infection_span) : Prop :=
  ∃ out, nc_tokens nc ⊆ out ∧
         out ⊆ nc_tokens nc ++ nc_ancestors nc ++ nc_subtree nc ∧
         out ≠ [] ∧ span_of_tokens out (is_meta s) = Ok s.

Lemma built_from_intro (nc : noun_chunk) (extra : list token) (md : metadata)
    (s : infection_span) :
  extra ⊆ nc_ancestors nc ++ nc_subtree nc →
  supported (nc_tokens nc ++ extra) md → has_trigger_lemmas md = true →
  span_of_tokens (nc_tokens nc ++ extra) md = Ok s →
  built_from nc s.
Proof.
  intros Hx Hsup Ht Hs. exists (nc_tokens nc ++ extra).
  destruct (span_of_tokens_covers _ _ _ Hs) as [Hm _]. subst md.
  split; [set_solver|]. split; [set_solver|]. split; [by apply Hsup | done].
Qed.

(** The first pass: a span has a trigger category and a single count, and
    is built from its chunk. *)
Lemma infection_chunk_some (nc : noun_chunk) (s : infection_span) :
  infection_chunk nc = Ok (Some s) →
  has_trigger_lemmas (is_meta s) = true ∧ has_single_count (is_meta s) = true ∧
  built_from nc s.
Proof.
  unfold infection_chunk. intros Hc.
  apply res_bind_Ok in Hc as (md & Hmd & Hc).
  apply res_bind_Ok in Hc as ([out md'] & Hw & Hc). simpl in Hc.
  destruct (has_trigger_lemmas md' && has_single_count md') eqn:Hts; [|discriminate].
  apply andb_true_iff in Hts as [Ht Hsc].
  apply res_bind_Ok in Hc as (s' & Hs & [= <-]).
  destruct (span_of_tokens_covers _ _ _ Hs) as [Hmeta _]. rewrite Hmeta.
  do 2 (split; [done|]).
  destruct (has_trigger_lemmas md).
  - destruct (widen_with_ancestors_shape _ _ _ _ _ Hw) as [(extra & -> & Hx) Hsup].
    apply (built_from_intro nc extra md'); [set_solver | by apply Hsup, chunk_supported | done..].
  - injection Hw as <- <-. rewrite <-(app_nil_r (nc_tokens nc)) in Hs.
    apply (built_from_intro nc [] md); [set_solver | rewrite app_nil_r; by apply chunk_supported | done..].
Qed.

(** The person pass: a span also has the "person" attribute. *)
Lemma person_chunk_some (nc : noun_chunk) (s : infection_span) :
  person_chunk nc = Ok (Some s) →
  "person" ∈ attributes (is_meta s) ∧ has_trigger_lemmas (is_meta s) = true ∧
  has_single_count (is_meta s) = true ∧ built_from nc s.
Proof.
  unfold person_chunk. intros Hc.
  apply res_bind_Ok in Hc as (md & Hmd & Hc).
  case_bool_decide; [|discriminate].
  apply res_bind_Ok in Hc as ([out1 md1] & Hw1 & Hc). simpl in Hc.
  apply res_bind_Ok in Hc as ([out2 md2] & Hw2 & Hc). simpl in Hc.
  destruct (bool_decide ("person" ∈ attributes md2) && has_trigger_lemmas md2 &&
            has_single_count md2) eqn:Hts; [|discriminate].
  apply andb_true_iff in Hts as [[Hp Ht]%andb_true_iff Hsc].
  apply bool_decide_eq_true_1 in Hp.
  apply res_bind_Ok in Hc as (s' & Hs & [= <-]).
  destruct (span_of_tokens_covers _ _ _ Hs) as [Hmeta _]. rewrite Hmeta.
  do 3 (split; [done|]).
  destruct (widen_with_ancestors_shape _ _ _ _ _ Hw1) as [(x1 & -> & Hx1) Hsup1].
  pose proof (Hsup1 (chunk_supported _ _ Hmd)) as Hs1.
  destruct (has_trigger_lemmas md1).
  - injection Hw2 as <- <-.
    apply (built_from_intro nc x1 md1); [set_solver | done..].
  - destruct (widen_with_subtree_shape _ _ _ _ _ Hw2) as [(x2 & -> & Hx2) Hsup2].
    rewrite <-app_assoc in Hs, Hsup2.
    apply (built_from_intro nc (x1 ++ x2) md2); [set_solver | by apply Hsup2 | done..].
Qed.



(** ** The passes *)

Lemma collect_spans_elem (step : noun_chunk → res (option infection_span))
    (doc : document) (spans : list infection_span) (s : infection_span) :
  collect_spans step doc = Ok spans → s ∈ spans →
  ∃ nc, nc ∈ noun_chunks doc ∧ step nc = Ok (Some s).
Proof.
  unfold collect_spans. intros Hc Hs.
  apply res_bind_Ok in Hc as (os & Hos & [= <-]).
  apply mapM_res_Ok in Hos. apply list_elem_of_omap in Hs as (o & Ho & Hso).
  destruct o as [s'|]; [|discriminate]. injection Hso as ->.
  induction Hos as [|nc o ncs os Hstep Hrest IH].
  - inversion Ho.
  - apply elem_of_cons in Ho as [-> | Ho].
    + exists nc. split; [apply elem_of_cons; by left | done].
    + destruct (IH Ho) as (nc' & Hin & Hnc'). exists nc'.
      split; [apply elem_of_cons; by right | done].
Qed.


Lemma candidate_spans_elem (doc : document) (spans : list infection_span)
    (s : infection_span) :
  candidate_spans doc = Ok spans → s ∈ spans →
  ∃ nc, nc ∈ noun_chunks doc ∧
        (infection_chunk nc = Ok (Some s) ∨ person_chunk nc = Ok (Some s)).
Proof.
  unfold candidate_spans. intros Hc Hs.
  apply res_bind_Ok in Hc as (s1 & H1 & Hc). apply res_bind_Ok in Hc as (s2 & H2 & [= <-]).
  apply elem_of_app in Hs as [Hs|Hs].
  - destruct (collect_spans_elem _ _ _ _ H1 Hs) as (nc & ? & ?). eauto.
  - destruct (collect_spans_elem _ _ _ _ H2 Hs) as (nc & ? & ?). eauto.
Qed.

Lemma built_from_bounds (nc : noun_chunk) (s : infection_span) :
  (∀ t, t ∈ nc_tokens nc ++ nc_ancestors nc ++ nc_subtree nc →
        (tok_start t <= tok_end t)%Z) →
  built_from nc s →
  (is_start s <= is_end s)%Z ∧
  Forall (λ t, (is_start s <= tok_start t)%Z ∧ (tok_end t <= is_end s)%Z) (nc_tokens nc) ∧
  (∃ t, t ∈ nc_tokens nc ++ nc_ancestors nc ++ nc_subtree nc ∧ is_start s = tok_start t) ∧
  (∃ t, t ∈ nc_tokens nc ++ nc_ancestors nc ++ nc_subtree nc ∧ is_end s = tok_end t).
Proof.
  intros Hwf (out & Hsub & Hsup & Hne & Hs).
  destruct (span_of_tokens_covers _ _ _ Hs) as [_ Hcov]. rewrite Forall_forall in Hcov.
  unfold span_of_tokens in Hs.
  apply res_bind_Ok in Hs as (lo & Hlo & Hs). apply res_bind_Ok in Hs as (hi & Hhi & Hs).
  injection Hs as Hs. rewrite <-Hs in Hcov |- *. simpl in *.
  apply py_min_elem, list_elem_of_In, in_map_iff in Hlo as (t1 & <- & Ht1).
  apply py_max_elem, list_elem_of_In, in_map_iff in Hhi as (t2 & <- & Ht2).
  apply list_elem_of_In in Ht1, Ht2.
  split; [|split; [|split]].
  - specialize (Hcov t1 Ht1). specialize (Hwf t1 (Hsup t1 Ht1)). simpl in Hcov. lia.
  - apply Forall_forall. intros t Ht. apply Hcov, Hsub, Ht.
  - exists t1. split; [by apply Hsup | done].
  - exists t2. split; [by apply Hsup | done].
Qed.

(** C10: every span of the first pass has a trigger category (infection,
    death or hospitalization) and a single count. *)
Theorem infection_pass_trigger_and_count (doc : document) (spans : list infection_span) :
  from_noun_chunks_with_infection_lemmas doc = Ok spans →
  Forall (λ s, has_trigger_lemmas (is_meta s) = true ∧ has_single_count (is_meta s) = true)
    spans.
Proof.
  intros Hc. apply Forall_forall. intros s Hs.
  destruct (collect_spans_elem _ _ _ _ Hc Hs) as (nc & _ & Hnc).
  by destruct (infection_chunk_some _ _ Hnc) as (? & ? & _).
Qed.

(** C11: every span of the person pass has the "person" attribute, a
    trigger category and a single count. *)
Theorem person_pass_person_trigger_count (doc : document) (spans : list infection_span) :
  from_noun_chunks_with_person_lemmas doc = Ok spans →
  Forall (λ s, "person" ∈ attributes (is_meta s) ∧ has_trigger_lemmas (is_meta s) = true ∧
               has_single_count (is_meta s) = true) spans.
Proof.
  intros Hc. apply Forall_forall. intros s Hs.
  destruct (collect_spans_elem _ _ _ _ Hc Hs) as (nc & _ & Hnc).
  by destruct (person_chunk_some _ _ Hnc) as (? & ? & ? & _).
Qed.


(** C13: every candidate span is the hull of tokens of one chunk, its
    ancestors and its subtree: it starts at one of their starts, ends at
    one of their ends, and covers every token of the chunk. *)
Theorem candidate_spans_bounds (doc : document) (spans : list infection_span) :
  (∀ nc t, nc ∈ noun_chunks doc → t ∈ nc_tokens nc ++ nc_ancestors nc ++ nc_subtree nc →
           (tok_start t <= tok_end t)%Z) →
  candidate_spans doc = Ok spans →
  ∀ s, s ∈ spans →
    ∃ nc, nc ∈ noun_chunks doc ∧
      (is_start s <= is_end s)%Z ∧
      Forall (λ t, (is_start s <= tok_start t)%Z ∧ (tok_end t <= is_end s)%Z) (nc_tokens nc) ∧
      (∃ t, t ∈ nc_tokens nc ++ nc_ancestors nc ++ nc_subtree nc ∧ is_start s = tok_start t) ∧
      (∃ t, t ∈ nc_tokens nc ++ nc_ancestors nc ++ nc_subtree nc ∧ is_end s = tok_end t).
Proof.
  intros Hwf Hc s Hs. destruct (candidate_spans_elem _ _ _ Hc Hs) as (nc & Hnc & Hstep).
  exists nc. split; [done|]. apply built_from_bounds; [intros t; by apply Hwf|].
  destruct Hstep as [Hstep|Hstep].
  - by destruct (infection_chunk_some _ _ Hstep) as (_ & _ & ?).
  - by destruct (person_chunk_some _ _ Hstep) as (_ & _ & _ & ?).
Qed.

(** C14: the first pass consults the ancestors only for a chunk whose own
    tokens carry a trigger category: a chunk without one yields no span,
    whatever its ancestors say. *)
Theorem infection_chunk_requires_own_trigger (nc : noun_chunk) (md : metadata) :
  attrs_and_counts (nc_tokens nc) = Ok md →
  has_trigger_lemmas md = false →
  infection_chunk nc = Ok None.
Proof.
  intros Hmd Ht. unfold infection_chunk. rewrite Hmd. res_simpl.
  rewrite Ht. res_simpl. by rewrite Ht.
Qed.

(** C15: a chunk with a trigger category, in a subject or object role,
    whose ancestors carry a trigger category, is widened to its ancestors:
    the span is the hull of the chunk and the ancestors, with the merged
    metadata, as soon as the merged metadata has a count. *)
Theorem infection_chunk_widened (nc : noun_chunk) (md amd : metadata) :
  attrs_and_counts (nc_tokens nc) = Ok md →
  has_trigger_lemmas md = true →
  has_subject_dep (nc_tokens nc) = true →
  attrs_and_counts (nc_ancestors nc) = Ok amd →
  has_trigger_lemmas amd = true →
  has_single_count (merge_dicts md amd) = true →
  ∃ s, infection_chunk nc = Ok (Some s) ∧
       span_of_tokens (nc_tokens nc ++ nc_ancestors nc) (merge_dicts md amd) = Ok s.
Proof.
  intros Hmd Ht Hsub Hamd Hat Hsc.
  destruct (span_of_tokens_ok (nc_tokens nc ++ nc_ancestors nc) (merge_dicts md amd))
    as [s Hs].
  { intros [_ Hanc]%app_eq_nil. by apply (attrs_and_counts_trigger_nonempty _ amd) in Hanc. }
  exists s. split; [|done].
  unfold infection_chunk, widen_with_ancestors. rewrite Hmd. res_simpl.
  rewrite Ht, Hsub, Hamd. res_simpl. rewrite Hat. res_simpl.
  rewrite has_trigger_lemmas_merge, Ht, Hsc. simpl. by rewrite Hs.
Qed.

End BuilderProps.

(** ** Witnesses *)

Lemma infection_pass_trigger_and_count_witness :
  Forall (λ s, has_trigger_lemmas (is_meta s) = true ∧ has_single_count (is_meta s) = true)
    [mk_ispan 0 28 (mk_md ["infection"; "person"; "infection"] (Some 3%Z))].
Proof.
  apply (infection_pass_trigger_and_count three_patients_doc). vm_compute. reflexivity.
Defined.

Lemma person_pass_person_trigger_count_witness :
  Forall (λ s, "person" ∈ attributes (is_meta s) ∧ has_trigger_lemmas (is_meta s) = true ∧
               has_single_count (is_meta s) = true)
    [mk_ispan 0 17 (mk_md ["person"; "death"] (Some 3%Z))].
Proof.
  apply (person_pass_person_trigger_count three_people_doc). vm_compute. reflexivity.
Defined.


Lemma candidate_spans_bounds_witness :
  ∃ nc, nc ∈ noun_chunks three_patients_doc ∧ (0 <= 28)%Z ∧
    Forall (λ t, (0 <= tok_start t)%Z ∧ (tok_end t <= 28)%Z) (nc_tokens nc) ∧
    (∃ t, t ∈ nc_tokens nc ++ nc_ancestors nc ++ nc_subtree nc ∧ 0%Z = tok_start t) ∧
    (∃ t, t ∈ nc_tokens nc ++ nc_ancestors nc ++ nc_subtree nc ∧ 28%Z = tok_end t).
Proof.
  pose (sp := mk_ispan 0 28 (mk_md ["infection"; "person"; "infection"] (Some 3%Z))).
  apply (candidate_spans_bounds three_patients_doc [sp; sp]) with (s := sp).
  - intros nc t Hnc Ht. vm_compute in Hnc.
    repeat (apply elem_of_cons in Hnc as [-> | Hnc]; [vm_compute in Ht;
      repeat (apply elem_of_cons in Ht as [-> | Ht]; [vm_compute; congruence|]);
      by apply elem_of_nil in Ht|]).
    by apply elem_of_nil in Hnc.
  - vm_compute. reflexivity.
  - apply list_elem_of_here.
Defined.

Lemma infection_chunk_requires_own_trigger_witness :
  infection_chunk three_people_chunk = Ok None.
Proof.
  apply (infection_chunk_requires_own_trigger _ (mk_md ["person"] (Some 3%Z)));
    vm_compute; reflexivity.
Defined.

Lemma infection_chunk_widened_witness :
  ∃ s, infection_chunk three_patients_chunk = Ok (Some s) ∧
       span_of_tokens (nc_tokens three_patients_chunk ++ nc_ancestors three_patients_chunk)
         (merge_dicts (mk_md ["infection"; "person"] (Some 3%Z)) (mk_md ["infection"] None))
       = Ok s.
Proof. apply infection_chunk_widened; vm_compute; reflexivity. Defined.

(** The sample document is the one the token and noun-chunk tiers of
    "Three patients were infected in the outbreak." give. *)
Lemma three_patients_doc_of_tiers :
  three_patients_doc =
  document_of [three_tok; patients_tok; were_tok; infected_tok; in_tok; the_outbreak_tok; outbreak_tok]
    [mk_ncspan 0 14 [infected_tok] [three_tok; patients_tok];
     mk_ncspan 32 44 [in_tok; infected_tok] [the_outbreak_tok; outbreak_tok]].
Proof. vm_compute. reflexivity. Qed.
