(* ===== verification/CountModifiers.v ===== *)
(** * The count-modifier attacher of [infection_annotator.py]

    [collapse_span_group] (lines 263-281), [add_count_modifiers] (lines
    284-323) and [InfectionAnnotator.annotate] (lines 385-392).  The
    candidate infection spans are paired with nearby qualifier words
    (suspected/confirmed, the ten modifier lemma groups), the pairs are
    added to the tier, the tier is reduced to an optimal set of
    non-overlapping spans, and every span group is collapsed into one
    span whose attributes are the sorted attributes of its parts.

    The tier operations [label_spans], [with_nearby_spans_from] and the
    ["num_spans_and_no_linebreaks"] preference of [optimal_span_set]
    belong to [annotier.py], outside the sources; they are modelled from
    the spec (sections 4.3 and 9) with the default distance of
    [with_nearby_spans_from] left as a parameter. *)

From Stdlib Require Import ZArith Ascii.
From stdpp Require Import base list strings sorting sets.
From S2P Require Import Prelude Spans Attributes InfectionSpans.

Open Scope string_scope.
Open Scope list_scope.
Open Scope Z_scope.

(** ** Span groups *)

(** An [AnnoSpan] with its label, its metadata ([None] for an empty
    dictionary, which Python treats as false) and its base spans (empty
    for a span that is not a group). *)
Inductive mspan : Type :=
  | MSpan (m_start m_end : Z) (m_label : option string) (m_meta : option metadata)
          (m_base : list mspan).

Definition m_start (s : mspan) : Z := let '(MSpan a _ _ _ _) := s in a.
Definition m_end (s : mspan) : Z := let '(MSpan _ b _ _ _) := s in b.
Definition m_label (s : mspan) : option string := let '(MSpan _ _ l _ _) := s in l.
Definition m_meta (s : mspan) : option metadata := let '(MSpan _ _ _ m _) := s in m.
Definition m_base (s : mspan) : list mspan := let '(MSpan _ _ _ _ b) := s in b.

#[export] Instance mspan_span : SpanLike mspan := {| span_start := m_start; span_end := m_end |}.

(** [SpanGroup(base_spans, label)]: the hull of its base spans, with no
    metadata of its own. *)
Definition mspan_group (base : list mspan) (label : option string) : mspan :=
  match base with
  | [] => MSpan 0 0 label None []
  | b :: bs => MSpan (foldl Z.min (m_start b) (map m_start bs))
                     (foldl Z.max (m_end b) (map m_end bs)) label None base
  end.

(** Lines 274-277: [dict(dict(collapsed, **child), attributes=...)]: the
    child's keys win, except the attributes, which are concatenated. *)
Definition merge_child (collapsed child : metadata) : metadata :=
  mk_md (attributes collapsed ++ attributes child)
        (match count child with Some c => Some c | None => count collapsed end).

Definition attr_le : relation string := String.le.

(** Lines 268-271: [[span_group.label]] when the label is true. *)
Definition label_attrs (label : option string) : list string :=
  match label with None | Some "" => [] | Some l => [l] end.

(** [collapse_span_group] (lines 263-281). *)
Fixpoint collapse_span_group (s : mspan) : mspan :=
  match s with
  | MSpan a b label md [] => s
  | MSpan a b label md base =>
      let init := mk_md (label_attrs label) None in
      let collapsed :=
        foldl (λ acc c, match m_meta (collapse_span_group c) with
                        | Some cm => merge_child acc cm
                        | None => acc
                        end) init base in
      MSpan a b None (Some (mk_md (merge_sort attr_le (attributes collapsed)) (count collapsed))) []
  end.

(** ** The tiers [add_count_modifiers] reads *)

(** A named entity of [spacy.nes]. *)
Record ne := mk_ne { ne_start : Z; ne_end : Z; ne_label : string }.

#[export] Instance ne_span : SpanLike ne := {| span_start := ne_start; span_end := ne_end |}.

(** A token of [spacy.tokens] as a span without metadata. *)
Definition token_span (t : token) : mspan := MSpan (tok_start t) (tok_end t) None None [].

(** [search_lemmas(lemmas, match_name)] (lines 289-295): the tokens whose
    lemma is one of [lemmas], each in a group labelled [match_name]
    ([AnnoTier.label_spans]). *)
Definition search_lemmas (tokens : list token) (lemmas : list string) (match_name : string)
    : list mspan :=
  map (λ t, mspan_group [token_span t] (Some match_name))
      (filter (λ t, lemma_ t ∈ lemmas) tokens).

(** [AnnoTier.with_nearby_spans_from(other, max_dist)]: each span of the
    tier grouped with each span of the other tier at most [max_dist]
    characters away. *)
Definition near (max_dist : Z) (a b : mspan) : bool :=
  (m_start b - m_end a <=? max_dist) && (m_start a - m_end b <=? max_dist).

Definition with_nearby_spans_from (max_dist : Z) (tier other : list mspan) : list mspan :=
  mk_tier (concat (map (λ a, map (λ b, mspan_group [a; b] None) (filter (near max_dist a) other))
                       tier)).

(** [prefer="num_spans_and_no_linebreaks"]: the number of base spans
    (one for a span that is not a group), then the number of spans with
    no line break. *)
Definition num_spans (s : mspan) : Z :=
  match m_base s with [] => 1 | base => Z.of_nat (length base) end.

Definition has_linebreak (text : string) (s : mspan) : bool :=
  str_contains (String (Ascii.ascii_of_nat 10) EmptyString) (span_text text (m_start s) (m_end s)).

Definition num_spans_and_no_linebreaks (text : string) (l : list mspan) : Z * Z :=
  (foldr (λ s acc, num_spans s + acc) 0 l,
   foldr (λ s acc, (if has_linebreak text s then 0 else 1) + acc) 0 l).

(** Lines 303-314, each group split on ['|']; its first lemma names it. *)
Definition modifier_lemma_groups : list (list string) :=
  [["average"; "mean"];
   ["annual"; "annually"];
   ["monthly"];
   ["weekly"];
   ["cumulative"; "total"; "already"];
   ["incremental"; "new"; "additional"; "recent"];
   ["max"; "less"; "below"; "under"; "most"; "maximum"; "up"];
   ["min"; "greater"; "above"; "over"; "least"; "minimum"; "down"; "exceeds"];
   ["approximate"; "about"; "near"; "around"];
   ["ongoing"; "active"]].

(** ** [add_count_modifiers] (lines 284-323) *)

Section AddCountModifiers.
Context (default_max_dist : Z).

(** Lines 297-300. *)
Definition with_case_statuses (tokens : list token) (tier : list mspan) : list mspan :=
  let case_statuses :=
    mk_tier (search_lemmas tokens ["suspect"] "suspected" ++
             search_lemmas tokens ["confirm"] "confirmed") in
  mk_tier (tier ++ with_nearby_spans_from 1 tier case_statuses).

(** Line 302. *)
Definition person_and_place_nes (nes : list ne) : list ne :=
  mk_tier (filter (λ n, ne_label n = "GPE") nes ++ filter (λ n, ne_label n = "PERSON") nes).

(** Lines 316-321, for one lemma group. *)
Definition modifier_step (tokens : list token) (nes : list ne) (tier : list mspan)
    (group : list string) : list mspan :=
  let results :=
    without_overlaps (search_lemmas tokens group (default "" (head group)))
                     (person_and_place_nes nes) in
  mk_tier (tier ++ with_nearby_spans_from default_max_dist tier results).

(** The tier before the overlap resolution of line 322. *)
Definition attach_modifiers (tokens : list token) (nes : list ne) (spans : list mspan)
    : list mspan :=
  foldl (modifier_step tokens nes) (with_case_statuses tokens (mk_tier spans))
        modifier_lemma_groups.

Definition add_count_modifiers (text : string) (tokens : list token) (nes : list ne)
    (spans : list mspan) : list mspan :=
  map collapse_span_group
      (optimal_span_set (num_spans_and_no_linebreaks text) (attach_modifiers tokens nes spans)).
End AddCountModifiers.

(** ** [InfectionAnnotator.annotate] (lines 385-392) *)

(** The document as the annotator reads it: its text, the noun chunks
    the two passes walk, and the token and named-entity tiers. *)
Record infection_doc := mk_idoc {
  id_text : string;
  id_chunks : document;
  id_tokens : list token;
  id_nes : list ne
}.

Definition candidate_mspan (s : infection_span) : mspan :=
  MSpan (is_start s) (is_end s) None (Some (is_meta s)) [].

Definition infection_annotate `{CountParser} (default_max_dist : Z) (doc : infection_doc)
    : res (list mspan) :=
  spans ← candidate_spans (id_chunks doc);
  Ok (add_count_modifiers default_max_dist (id_text doc) (id_tokens doc) (id_nes doc)
                          (map candidate_mspan spans)).

(** * Properties *)

(** ** [collapse_span_group] *)

(** Induction on span groups through their lists of base spans. *)
Fixpoint mspan_ind_nested (P : mspan → Prop)
    (f : ∀ a b l m base, Forall P base → P (MSpan a b l m base)) (s : mspan) : P s :=
  match s with
  | MSpan a b l m base =>
      f a b l m base
        ((fix go (xs : list mspan) : Forall P xs :=
            match xs with
            | [] => @List.Forall_nil mspan P
            | x :: xs' => @List.Forall_cons mspan P x xs' (mspan_ind_nested P f x) (go xs')
            end) base)
  end.

(** The specification of section 4.3: the group's own label, then the
    attributes of every descendant, recursively; a span that is not a
    group contributes its own attributes. *)
Fixpoint flat_attrs (s : mspan) : list string :=
  match s with
  | MSpan _ _ _ md [] => match md with Some m => attributes m | None => [] end
  | MSpan _ _ label _ base => label_attrs label ++ concat (map flat_attrs base)
  end.

(** The counts of the descendants that are not groups, left to right. *)
Fixpoint leaf_counts (s : mspan) : list Z :=
  match s with
  | MSpan _ _ _ md [] => match md with Some m => option_list (count m) | None => [] end
  | MSpan _ _ _ _ base => concat (map leaf_counts base)
  end.

(** What a collapsed span tells its parent. *)
Definition collapsed_rel (c : mspan) : Prop :=
  match m_meta (collapse_span_group c) with
  | None => flat_attrs c = [] ∧ leaf_counts c = []
  | Some m => attributes m ≡ₚ flat_attrs c ∧ count m = last (leaf_counts c)
  end.

Lemma last_option_list (o : option Z) : last (option_list o) = o.
Proof. by destruct o. Qed.

Lemma collapse_fold (base : list mspan) (acc : metadata) :
  Forall collapsed_rel base →
  let r := foldl (λ acc c, match m_meta (collapse_span_group c) with
                           | Some cm => merge_child acc cm
                           | None => acc
                           end) acc base in
  attributes r ≡ₚ attributes acc ++ concat (map flat_attrs base) ∧
  count r = match last (concat (map leaf_counts base)) with
            | Some c => Some c
            | None => count acc
            end.
Proof.
  revert acc. induction base as [|c base IH]; intros acc Hall; simpl.
  - by rewrite app_nil_r.
  - apply Forall_cons in Hall as [Hc Hall]. unfold collapsed_rel in Hc.
    destruct (m_meta (collapse_span_group c)) as [cm|] eqn:Hm.
    + destruct Hc as [Ha Hn]. destruct (IH (merge_child acc cm) Hall) as [IHa IHn].
      split.
      * rewrite IHa. simpl. rewrite <-app_assoc. by apply Permutation_app_head, Permutation_app_tail.
      * rewrite IHn. cbn [concat map]. rewrite last_app. simpl. rewrite Hn.
        destruct (last (concat (map leaf_counts base))); [done|]. by destruct (last (leaf_counts c)).
    + destruct Hc as [Ha Hn]. rewrite Ha, Hn. simpl. by apply IH.
Qed.

Lemma collapse_group_shape (a b : Z) (label : option string) (md : option metadata)
    (c : mspan) (base : list mspan) :
  collapse_span_group (MSpan a b label md (c :: base)) =
  let init := mk_md (label_attrs label) None in
  let collapsed :=
    foldl (λ acc c, match m_meta (collapse_span_group c) with
                    | Some cm => merge_child acc cm
                    | None => acc
                    end) init (c :: base) in
  MSpan a b None (Some (mk_md (merge_sort attr_le (attributes collapsed)) (count collapsed))) [].
Proof. reflexivity. Qed.

Lemma collapsed_rel_all (s : mspan) : collapsed_rel s.
Proof.
  induction s as [a b label md base IH] using mspan_ind_nested.
  destruct base as [|c base].
  - unfold collapsed_rel. simpl. destruct md as [m|]; [|done].
    split; [done|]. by rewrite last_option_list.
  - unfold collapsed_rel. rewrite collapse_group_shape. cbv zeta. cbn [m_meta].
    destruct (collapse_fold (c :: base) (mk_md (label_attrs label) None) IH) as [Ha Hn].
    cbn [attributes count] in *. split.
    + rewrite merge_sort_Permutation, Ha. reflexivity.
    + rewrite Hn. by destruct (last _).
Qed.

Lemma attr_le_total : Total attr_le.
Proof. apply String.le_total. Qed.

(** C29: collapsing a span group (lines 263-281) gives a span with the
    group's offsets, no label and no base spans, whose attributes are the
    sorted multiset of the group's own label and of the attributes of all
    its descendants (section 4.3), and whose count is the last count of
    its descendants from left to right: a later child's count overrides
    an earlier one. *)
Theorem collapse_span_group_spec (s : mspan) :
  m_base s ≠ [] →
  ∃ m, collapse_span_group s = MSpan (m_start s) (m_end s) None (Some m) [] ∧
       Sorted attr_le (attributes m) ∧ attributes m ≡ₚ flat_attrs s ∧
       count m = last (leaf_counts s).
Proof.
  destruct s as [a b label md [|c base]]; [done|]. intros _.
  pose proof (collapsed_rel_all (MSpan a b label md (c :: base))) as Hrel.
  unfold collapsed_rel in Hrel. rewrite collapse_group_shape in Hrel |- *.
  eexists. split; [reflexivity|]. cbn [m_meta] in Hrel. destruct Hrel as [Ha Hn].
  split; [|split; [exact Ha | exact Hn]].
  apply Sorted_merge_sort, attr_le_total.
Qed.

(** ** Named entities are never qualifiers *)

(** A span and all its descendants. *)
Fixpoint subspans (s : mspan) : list mspan :=
  let '(MSpan _ _ _ _ base) := s in s :: concat (map subspans base).

(** The names of the ten modifier lemma groups. *)
Definition modifier_names : list string := map (λ g, default "" (head g)) modifier_lemma_groups.

(** No part of the span labelled with a modifier group overlaps a person
    or place entity. *)
Definition ne_free (nes : list ne) (s : mspan) : Prop :=
  ∀ t, t ∈ subspans s → ∀ l, m_label t = Some l → l ∈ modifier_names →
    ∀ n, n ∈ person_and_place_nes nes → overlaps t n = false.

Lemma ne_free_leaf (nes : list ne) (a b : Z) (md : option metadata) :
  ne_free nes (MSpan a b None md []).
Proof. intros t Ht l Hl. simpl in Ht. apply list_elem_of_singleton in Ht as ->. done. Qed.

Lemma ne_free_group (nes : list ne) (base : list mspan) (label : option string) :
  Forall (ne_free nes) base →
  (∀ l, label = Some l → l ∈ modifier_names →
     ∀ n, n ∈ person_and_place_nes nes → overlaps (mspan_group base label) n = false) →
  ne_free nes (mspan_group base label).
Proof.
  intros Hbase Hlab t Ht l Hl Hm n Hn.
  assert (Hsub : subspans (mspan_group base label) = mspan_group base label :: concat (map subspans base))
    by (destruct base; reflexivity).
  rewrite Hsub in Ht. apply elem_of_cons in Ht as [->|Ht].
  - apply (Hlab l); [by destruct base | done | done].
  - apply list_elem_of_In, in_concat in Ht as (sub & Hsub' & Ht).
    apply in_map_iff in Hsub' as (c & <- & Hc).
    rewrite Forall_forall in Hbase.
    apply (Hbase c (proj2 (list_elem_of_In _ _) Hc) t (proj2 (list_elem_of_In _ _) Ht) l); done.
Qed.

Lemma status_labels_not_modifiers : "suspected" ∉ modifier_names ∧ "confirmed" ∉ modifier_names.
Proof. split; vm_compute; set_solver. Qed.

Lemma Forall_mk_tier {A} `{SpanLike A} (P : A → Prop) (l : list A) :
  Forall P l → Forall P (mk_tier l).
Proof. intros Hl. by rewrite mk_tier_perm. Qed.

(** The attached tier keeps any property of spans that holds for the
    candidates, for the qualifier groups the loop draws in, and for the
    pair of a span with a nearby qualifier. *)
Section TierInvariant.
Context (P : mspan → Prop) (d : Z) (tokens : list token) (nes : list ne).
Hypothesis P_pair : ∀ a b, P a → P b → P (mspan_group [a; b] None).
Hypothesis P_statuses :
  Forall P (search_lemmas tokens ["suspect"] "suspected" ++ search_lemmas tokens ["confirm"] "confirmed").
Hypothesis P_results : ∀ group,
  Forall P (without_overlaps (search_lemmas tokens group (default "" (head group)))
                             (person_and_place_nes nes)).

Lemma with_nearby_inv (dist : Z) (tier other : list mspan) :
  Forall P tier → Forall P other → Forall P (with_nearby_spans_from dist tier other).
Proof.
  intros Ht Ho. apply Forall_mk_tier, Forall_concat, Forall_forall.
  intros l Hl. apply list_elem_of_In, in_map_iff in Hl as (a & <- & Ha).
  apply Forall_forall. intros g Hg. apply list_elem_of_In, in_map_iff in Hg as (b & <- & Hb).
  apply list_elem_of_In, list_elem_of_filter in Hb as [_ Hb].
  apply list_elem_of_In in Ha. rewrite Forall_forall in Ht, Ho. auto.
Qed.

Lemma attach_modifiers_inv (spans : list mspan) :
  Forall P spans → Forall P (attach_modifiers d tokens nes spans).
Proof.
  intros Hs. unfold attach_modifiers.
  assert (H0 : Forall P (with_case_statuses tokens (mk_tier spans))).
  { unfold with_case_statuses. apply Forall_mk_tier, Forall_app. split; [by apply Forall_mk_tier|].
    apply with_nearby_inv; [by apply Forall_mk_tier|]. by apply Forall_mk_tier. }
  generalize (with_case_statuses tokens (mk_tier spans)) H0.
  induction modifier_lemma_groups as [|g gs IH]; intros tier Ht; simpl; [done|].
  apply IH. unfold modifier_step. apply Forall_mk_tier, Forall_app. split; [done|].
  by apply with_nearby_inv.
Qed.
End TierInvariant.

Section NeFree.
Context (nes : list ne).

Lemma search_lemmas_ne_free (tokens : list token) (lemmas : list string) (name : string) :
  name ∉ modifier_names → Forall (ne_free nes) (search_lemmas tokens lemmas name).
Proof.
  intros Hn. apply Forall_forall. intros g Hg. unfold search_lemmas in Hg.
  apply list_elem_of_In, in_map_iff in Hg as (t & <- & _).
  apply ne_free_group; [repeat constructor; apply ne_free_leaf|].
  by intros l [= <-].
Qed.

Lemma modifier_results_ne_free (tokens : list token) (group : list string) :
  Forall (ne_free nes)
    (without_overlaps (search_lemmas tokens group (default "" (head group))) (person_and_place_nes nes)).
Proof.
  apply Forall_forall. intros g Hg. apply without_overlaps_spec in Hg as [Hg Hno].
  unfold search_lemmas in Hg. apply list_elem_of_In, in_map_iff in Hg as (t & Heq & _).
  rewrite <-Heq in Hno |- *.
  apply ne_free_group; [repeat constructor; apply ne_free_leaf|].
  intros l _ _ n Hn. by apply Hno.
Qed.

Lemma attach_modifiers_ne_free (d : Z) (tokens : list token) (spans : list mspan) :
  Forall (ne_free nes) spans → Forall (ne_free nes) (attach_modifiers d tokens nes spans).
Proof.
  apply attach_modifiers_inv.
  - intros a b Ha Hb. apply ne_free_group; [repeat constructor; done | done].
  - destruct status_labels_not_modifiers. apply Forall_app. split; by apply search_lemmas_ne_free.
  - apply modifier_results_ne_free.
Qed.
End NeFree.

(** C30: the count-modifier attacher never uses a qualifier token that
    overlaps a person or place entity (section 8, "New York" must not
    give "new"): every output span is the collapse of a span of the
    attached tier none of whose parts labelled with a modifier group
    overlaps such an entity, provided the candidate spans have none. *)
Theorem add_count_modifiers_ne_free (d : Z) (text : string) (tokens : list token)
    (nes : list ne) (spans : list mspan) :
  Forall (ne_free nes) spans →
  Forall (λ o, ∃ s, s ∈ attach_modifiers d tokens nes spans ∧ ne_free nes s ∧
                    o = collapse_span_group s)
         (add_count_modifiers d text tokens nes spans).
Proof.
  intros Hs. pose proof (attach_modifiers_ne_free nes d tokens spans Hs) as Hall.
  unfold add_count_modifiers. apply Forall_forall. intros o Ho.
  apply list_elem_of_In, in_map_iff in Ho as (s & <- & Hs').
  apply list_elem_of_In in Hs'.
  pose proof (optimal_span_set_sublist (num_spans_and_no_linebreaks text)
                (attach_modifiers d tokens nes spans)) as Hsub.
  assert (Hin : s ∈ attach_modifiers d tokens nes spans) by (eapply elem_of_sublist; eassumption).
  exists s. split; [done|]. split; [|done]. rewrite Forall_forall in Hall. by apply Hall.
Qed.

Lemma collapse_span_group_shape (s : mspan) :
  m_start (collapse_span_group s) = m_start s ∧ m_end (collapse_span_group s) = m_end s ∧
  m_base (collapse_span_group s) = [].
Proof. by destruct s as [a b l md [|c base]]. Qed.

Lemma candidate_mspan_ne_free (nes : list ne) (s : infection_span) :
  ne_free nes (candidate_mspan s).
Proof. apply ne_free_leaf. Qed.

(** C31: [InfectionAnnotator.annotate] (lines 385-392) composes the two
    passes of the span builder with the count-modifier attacher: its
    spans do not overlap one another, none is a group, and each is the
    collapse of a span whose qualifiers avoid person and place entities. *)
Theorem infection_annotate_output `{CountParser} (d : Z) (doc : infection_doc)
    (out : list mspan) :
  infection_annotate d doc = Ok out →
  pairwise_disjoint out = true ∧
  Forall (λ o, m_base o = [] ∧ ∃ s, ne_free (id_nes doc) s ∧ o = collapse_span_group s) out.
Proof.
  unfold infection_annotate. intros Hout. res_inv. subst. split.
  - unfold add_count_modifiers. rewrite pairwise_disjoint_map; [apply optimal_span_set_disjoint|].
    intros y. destruct (collapse_span_group_shape y) as (Hs & He & _). done.
  - eapply Forall_impl; [apply add_count_modifiers_ne_free|].
    + apply Forall_forall. intros s Hs. apply list_elem_of_In, in_map_iff in Hs as (c & <- & _).
      apply candidate_mspan_ne_free.
    + intros o (s & _ & Hne & ->). split; [apply collapse_span_group_shape|]. eauto.
Qed.

(** ** Examples *)

(** "3 cases in New York": a candidate span over "3 cases", and "New"
    (lemma "new", of the incremental group) inside the place "New York". *)
Definition ny_text : string := "3 cases in New York".

Definition ny_tokens : list token :=
  [mk_token "3" "3" "NUM" "nummod" "CARDINAL" 0 0 1;
   mk_token "cases" "case" "NOUN" "ROOT" "" 1 2 7;
   mk_token "in" "in" "ADP" "prep" "" 2 8 10;
   mk_token "New" "new" "PROPN" "compound" "GPE" 3 11 14;
   mk_token "York" "York" "PROPN" "pobj" "GPE" 4 15 19].

Definition three_cases : mspan := MSpan 0 7 None (Some (mk_md ["infection"] (Some 3))) [].

Lemma collapse_span_group_spec_witness :
  let g := mspan_group [mspan_group [three_cases; MSpan 8 11 None None []] (Some "suspected");
                       mspan_group [MSpan 12 15 None (Some (mk_md ["person"] (Some 7))) []] None]
                      (Some "cumulative") in
  collapse_span_group g = MSpan 0 15 None (Some (mk_md ["cumulative"; "infection"; "person"; "suspected"] (Some 7))) [] ∧
  ∃ m, collapse_span_group g = MSpan (m_start g) (m_end g) None (Some m) [] ∧
       Sorted attr_le (attributes m) ∧ attributes m ≡ₚ flat_attrs g ∧
       count m = last (leaf_counts g).
Proof.
  cbv zeta. split; [vm_compute; reflexivity|].
  apply collapse_span_group_spec. discriminate.
Defined.

Lemma add_count_modifiers_ne_free_witness :
  Forall (λ o, ∃ s, s ∈ attach_modifiers 100 ny_tokens [mk_ne 11 19 "GPE"] [three_cases] ∧
                    ne_free [mk_ne 11 19 "GPE"] s ∧ o = collapse_span_group s)
         (add_count_modifiers 100 ny_text ny_tokens [mk_ne 11 19 "GPE"] [three_cases]).
Proof.
  apply add_count_modifiers_ne_free. repeat constructor. apply ne_free_leaf.
Defined.

(** "Three patients were infected in the outbreak." through the whole
    annotator. *)
Definition three_patients_idoc : infection_doc :=
  mk_idoc "Three patients were infected in the outbreak." three_patients_doc
          [three_tok; patients_tok; were_tok; infected_tok; in_tok; the_outbreak_tok; outbreak_tok] [].

Lemma infection_annotate_output_witness :
  infection_annotate 100 three_patients_idoc =
    Ok [MSpan 0 28 None (Some (mk_md ["infection"; "person"; "infection"] (Some 3))) []] ∧
  pairwise_disjoint [MSpan 0 28 None (Some (mk_md ["infection"; "person"; "infection"] (Some 3))) []] = true.
Proof.
  split; [vm_compute; reflexivity|].
  apply (infection_annotate_output 100 three_patients_idoc). vm_compute. reflexivity.
Defined.

(** ** No candidate is lost *)

Lemma num_spans_pos (s : mspan) : 1 <= num_spans s.
Proof. destruct s as [a b l md [|c base]]; unfold num_spans; cbn [m_base]; [lia|]. rewrite length_cons. lia. Qed.

Lemma foldr_sum_Permutation (f : mspan → Z) (l l' : list mspan) :
  l ≡ₚ l' → foldr (λ s acc, f s + acc) 0 l = foldr (λ s acc, f s + acc) 0 l'.
Proof. induction 1; simpl; [done | by f_equal | lia | congruence]. Qed.

Lemma num_spans_score_grows (text : string) (c : mspan) (s s' : list mspan) :
  s' ≡ₚ c :: s →
  score_lt (num_spans_and_no_linebreaks text s) (num_spans_and_no_linebreaks text s') = true.
Proof.
  intros Hp. unfold num_spans_and_no_linebreaks, score_lt. simpl.
  rewrite (foldr_sum_Permutation num_spans _ _ Hp). simpl.
  pose proof (num_spans_pos c). apply orb_true_iff. left. apply Z.ltb_lt. lia.
Qed.

(** The later lemma groups only add spans to the tier. *)
Lemma attach_modifiers_keeps (d : Z) (tokens : list token) (nes : list ne) (spans : list mspan)
    (c : mspan) :
  c ∈ with_case_statuses tokens (mk_tier spans) → c ∈ attach_modifiers d tokens nes spans.
Proof.
  unfold attach_modifiers. generalize (with_case_statuses tokens (mk_tier spans)).
  induction modifier_lemma_groups as [|g gs IH]; intros tier Ht; simpl; [done|].
  apply IH. unfold modifier_step. rewrite mk_tier_perm. apply elem_of_app. by left.
Qed.

Lemma attach_modifiers_incl (d : Z) (tokens : list token) (nes : list ne) (spans : list mspan)
    (c : mspan) :
  c ∈ spans → c ∈ attach_modifiers d tokens nes spans.
Proof.
  intros Hc. apply attach_modifiers_keeps.
  unfold with_case_statuses. rewrite mk_tier_perm. apply elem_of_app. left. by rewrite mk_tier_perm.
Qed.

Lemma search_lemmas_elem (tokens : list token) (lemmas : list string) (name : string) (t : token) :
  t ∈ tokens → lemma_ t ∈ lemmas → mspan_group [token_span t] (Some name) ∈ search_lemmas tokens lemmas name.
Proof.
  intros Ht Hl. unfold search_lemmas. apply list_elem_of_In, in_map_iff. exists t.
  split; [done|]. apply list_elem_of_In, list_elem_of_filter. by split.
Qed.

Lemma with_nearby_spans_from_elem (dist : Z) (tier other : list mspan) (a b : mspan) :
  a ∈ tier → b ∈ other → near dist a b = true →
  mspan_group [a; b] None ∈ with_nearby_spans_from dist tier other.
Proof.
  intros Ha Hb Hn. unfold with_nearby_spans_from. rewrite mk_tier_perm.
  apply list_elem_of_In, in_concat. exists (map (λ b, mspan_group [a; b] None) (filter (near dist a) other)).
  split; apply in_map_iff.
  - exists a. split; [done | by apply list_elem_of_In].
  - exists b. split; [done|]. apply list_elem_of_In, list_elem_of_filter.
    split; [by rewrite Hn | done].
Qed.

(** C32: the case statuses of lines 297-300 are attached without the
    named-entity filter that lines 318-320 apply to the other
    qualifiers: a token with lemma "suspect" or "confirm" at most one
    character from a candidate span is paired with it, in a group
    labelled "suspected" or "confirmed", whatever the entities of the
    document, so also when the token lies inside a person or place name
    (the spec excludes every qualifier inside such an entity). *)
Theorem status_attached_inside_entities (d : Z) (tokens : list token) (nes : list ne)
    (spans : list mspan) (c : mspan) (t : token) (name : string) :
  c ∈ spans → t ∈ tokens →
  (lemma_ t, name) ∈ [("suspect", "suspected"); ("confirm", "confirmed")] →
  near 1 c (token_span t) = true →
  mspan_group [c; mspan_group [token_span t] (Some name)] None ∈ attach_modifiers d tokens nes spans.
Proof.
  intros Hc Ht Hl Hn. apply attach_modifiers_keeps. unfold with_case_statuses.
  rewrite mk_tier_perm. apply elem_of_app. right.
  apply with_nearby_spans_from_elem; [by rewrite mk_tier_perm | | exact Hn].
  rewrite mk_tier_perm. apply elem_of_app.
  apply elem_of_cons in Hl as [Hl | Hl%list_elem_of_singleton]; injection Hl as Hl ->;
    [left | right]; apply search_lemmas_elem; rewrite ?Hl; first [done | by left].
Qed.

(** C33: no candidate span is lost by the overlap resolution of line
    322: every candidate of positive length is overlapped by some span
    of the output, either itself or a group built around it (a span that
    overlapped nothing kept would raise the [num_spans] score if added). *)
Theorem add_count_modifiers_covers (d : Z) (text : string) (tokens : list token)
    (nes : list ne) (spans : list mspan) (c : mspan) :
  c ∈ spans → m_start c < m_end c →
  ∃ o, o ∈ add_count_modifiers d text tokens nes spans ∧ overlaps o c = true.
Proof.
  intros Hc Hlen.
  destruct (optimal_span_set_covers (num_spans_and_no_linebreaks text)
              (attach_modifiers d tokens nes spans) c) as (s & Hs & Hov).
  - intros s s'. apply num_spans_score_grows.
  - by apply attach_modifiers_incl.
  - done.
  - exists (collapse_span_group s). split.
    + unfold add_count_modifiers. apply list_elem_of_In, in_map_iff. exists s.
      split; [done | by apply list_elem_of_In].
    + destruct (collapse_span_group_shape s) as (Hst & Hen & _).
      unfold overlaps in *. simpl in *. by rewrite Hst, Hen.
Qed.

Lemma add_count_modifiers_covers_witness :
  ∃ o, o ∈ add_count_modifiers 100 ny_text ny_tokens [] [three_cases] ∧ overlaps o three_cases = true.
Proof. apply add_count_modifiers_covers; [by left | simpl; lia]. Defined.

(** "3 cases Confirmed Smith": "Confirmed" inside the person name. *)
Definition smith_tokens : list token :=
  [mk_token "3" "3" "NUM" "nummod" "CARDINAL" 0 0 1;
   mk_token "cases" "case" "NOUN" "ROOT" "" 1 2 7;
   mk_token "Confirmed" "confirm" "PROPN" "compound" "PERSON" 2 8 17;
   mk_token "Smith" "Smith" "PROPN" "appos" "PERSON" 3 18 23].

Lemma status_attached_inside_entities_witness :
  mspan_group [three_cases; mspan_group [token_span (mk_token "Confirmed" "confirm" "PROPN" "compound" "PERSON" 2 8 17)]
                                        (Some "confirmed")] None
    ∈ attach_modifiers 100 smith_tokens [mk_ne 8 23 "PERSON"] [three_cases] ∧
  add_count_modifiers 100 "3 cases Confirmed Smith" smith_tokens [mk_ne 8 23 "PERSON"] [three_cases] =
    [MSpan 0 17 None (Some (mk_md ["confirmed"; "infection"] (Some 3))) []].
Proof.
  split; [|vm_compute; reflexivity].
  apply status_attached_inside_entities; [by left | by right; right; left | by right; left | reflexivity].
Defined.
