(* ===== verification/TableClassifier.v ===== *)
(** * The table classifier of [structured_incident_annotator.py]

    The helpers of lines 18-72 ([is_null], [median], [merge_metadata],
    [combine_metadata], [split_list]), the entity tiers the annotator
    compares the tables with (lines 93-115), and the per-table work of
    lines 117-211: header detection, the filter on the number of cells,
    the column typing by majority vote, the column definitions, the rows
    of entities and the reporting period of a date column.

    The code is Python 2 code ([len] of a [zip], integer [/] in
    [median]); the model follows Python 2: [/] on integers and on
    [timedelta]s floors, as [Z.div] does.  Instants and durations are
    integers (a fixed unit such as microseconds). *)

From Stdlib Require Import ZArith.
From stdpp Require Import base list strings sorting sets.
From S2P Require Import Prelude Spans.

Open Scope string_scope.
Open Scope list_scope.
Open Scope nat_scope.

(** ** Entity spans *)

(** A species resolution: [resolution['entity']['id']],
    [resolution['entity']['label']] and [resolution['weight']]. *)
Record species_resolution := mk_species {
  species_id : string;
  species_label : string;
  species_weight : Z
}.

(** The metadata keys the annotator reads: ['geoname'] (the resolved
    place, kept as its identifier), ['datetime_range'] (its start and
    end instants), ['species'] and ['number']. *)
Record entity_meta := mk_emeta {
  geoname : option string;
  datetime_range : option (Z * Z);
  species : option species_resolution;
  number : option Z
}.

Definition empty_meta : entity_meta := mk_emeta None None None None.

(** An entity span, possibly a [SpanGroup] of base spans. *)
Inductive espan : Type :=
  | ESpan (e_start e_end : Z) (e_meta : entity_meta) (e_base : list espan).

Definition e_start (s : espan) : Z := let '(ESpan a _ _ _) := s in a.
Definition e_end (s : espan) : Z := let '(ESpan _ b _ _) := s in b.
Definition e_meta (s : espan) : entity_meta := let '(ESpan _ _ m _) := s in m.
Definition e_base (s : espan) : list espan := let '(ESpan _ _ _ l) := s in l.

#[export] Instance espan_span : SpanLike espan := {| span_start := e_start; span_end := e_end |}.

(** A table cell: an [AnnoSpan] of the table's [data]. *)
Record cell := mk_cell { cell_start : Z; cell_end : Z }.

#[export] Instance cell_span : SpanLike cell := {| span_start := cell_start; span_end := cell_end |}.

Definition cell_text (doc_text : string) (c : cell) : string :=
  span_text doc_text (cell_start c) (cell_end c).

Definition espan_text (doc_text : string) (s : espan) : string :=
  span_text doc_text (e_start s) (e_end s).

(** ** Helpers (lines 25-72) *)

(** [is_null] (lines 25-27). *)
Definition is_null (val_string : string) : bool :=
  let v := strip val_string in bool_decide (v = "") || bool_decide (v = "-").

(** [median] (lines 30-36), in Python 2: [mid_idx] floors, [li[-1]] is the
    last element, and an empty list raises [IndexError]. *)
Definition median (li : list Z) : res Z :=
  let n := Z.of_nat (length li) in
  let mid_idx := ((n - 1) / 2)%Z in
  let li := merge_sort Z.le li in
  let at_ (k : Z) : res Z :=
    let k' := if (k <? 0)%Z then (n + k)%Z else k in
    if (0 <=? k')%Z && (k' <? n)%Z then
      match li !! Z.to_nat k' with Some x => Ok x | None => Err IndexError end
    else Err IndexError in
  if (n mod 2 =? 1)%Z then at_ mid_idx
  else a ← at_ mid_idx; b ← at_ (mid_idx + 1)%Z; Ok ((a + b) / 2)%Z.

Definition first_some {X} (a b : option X) : option X :=
  match a with Some _ => a | None => b end.

(** [merge_metadata] (lines 39-44): [dict(child, **sofar)] keeps the keys
    of [sofar], except that a heavier species of the child wins. *)
Definition merge_metadata (sofar child : entity_meta) : entity_meta :=
  let sp :=
    match species sofar, species child with
    | Some s, Some c => if (species_weight s <? species_weight c)%Z then Some c else Some s
    | _, _ => first_some (species sofar) (species child)
    end in
  mk_emeta (first_some (geoname sofar) (geoname child))
           (first_some (datetime_range sofar) (datetime_range child))
           sp
           (first_some (number sofar) (number child)).

(** [combine_metadata] (lines 47-58): the merged metadata of the spans and
    of their descendants, folded in pre-order. *)
Fixpoint span_metadata (s : espan) : entity_meta :=
  let '(ESpan _ _ m base) := s in
  merge_metadata m (foldl (λ acc c, merge_metadata acc (span_metadata c)) empty_meta base).

Definition combine_metadata (spans : list espan) : entity_meta :=
  foldl (λ acc s, merge_metadata acc (span_metadata s)) empty_meta spans.

(** [split_list] (lines 61-71): the maximal runs of present values. *)
Fixpoint split_list_go {X} (group : list X) (li : list (option X)) : list (list X) :=
  match li with
  | [] => match group with [] => [] | _ => [group] end
  | Some v :: li' => split_list_go (group ++ [v]) li'
  | None :: li' =>
      match group with
      | [] => split_list_go [] li'
      | _ => group :: split_list_go [] li'
      end
  end.

Definition split_list {X} (li : list (option X)) : list (list X) := split_list_go [] li.

(** A reference for [split_list]: cut the list at every missing value,
    then drop the empty pieces. *)
Fixpoint split_on_none {X} (li : list (option X)) : list (list X) :=
  match li with
  | [] => [[]]
  | None :: li' => [] :: split_on_none li'
  | Some v :: li' =>
      match split_on_none li' with
      | g :: gs => (v :: g) :: gs
      | [] => [[v]]
      end
  end.

(** ** The entity tiers (lines 93-115) *)

(** One entry of [k.metadata['resolutions']]. *)
Record resolution := mk_resolution {
  entity_type : string;
  resolution_species : species_resolution
}.

(** A span of the [resolved_keywords] tier. *)
Record keyword_span := mk_kw {
  kw_start : Z;
  kw_end : Z;
  resolutions : list resolution
}.

(** Lines 99-107: a keyword with a species resolution becomes a span with
    the first such resolution as its ['species']. *)
Definition species_span (k : keyword_span) : option espan :=
  match list_find (λ r, entity_type r = "species") (resolutions k) with
  | Some (_, r) =>
      Some (ESpan (kw_start k) (kw_end k) (mk_emeta None None (Some (resolution_species r)) None) [])
  | None => None
  end.

Definition species_list (keywords : list keyword_span) : list espan := omap species_span keywords.

(** A [generic table] span of the [structured_data] tier: its ['type']
    and its ['data'], rows of cells. *)
Record table_span := mk_table_span {
  ts_start : Z;
  ts_end : Z;
  ts_type : string;
  ts_data : list (list cell)
}.

#[export] Instance table_span_span : SpanLike table_span :=
  {| span_start := ts_start; span_end := ts_end |}.

(** The tiers the annotator reads (lines 92-96 and the sentence tier of
    line 120); the [add_tiers] calls of lines 79-90, which run other
    annotators when a tier is missing, are not modelled. *)
Record annotated_doc := mk_adoc {
  doc_text : string;
  structured_data : list table_span;
  geonames : list espan;
  dates : list espan;
  resolved_keywords : list keyword_span;
  spacy_tokens : list espan;
  spacy_sentences : list espan;
  raw_numbers : list espan
}.

(** [AnnoTier.search_spans(regex)] (outside the sources): the spans whose
    whole text matches the pattern, ignoring case. *)
Definition search_spans (text : string) (tier : list espan) (matches : string → bool)
    : list espan :=
  filter (λ t, matches (lower (espan_text text t)) = true) tier.

(** [r'(case|death)s?'] and [r'suspected|confirmed'] (lines 113-114). *)
Definition incident_type_word (w : string) : bool :=
  bool_decide (w ∈ ["case"; "cases"; "death"; "deaths"]).

Definition incident_status_word (w : string) : bool :=
  bool_decide (w ∈ ["suspected"; "confirmed"]).

(** [entities_by_type] (lines 108-115), in the order the dictionary is
    written. *)
Definition entities_by_type (doc : annotated_doc) : list (string * list espan) :=
  [("geoname", geonames doc);
   ("date", dates doc);
   ("species", optimal_span_set text_length_score (species_list (resolved_keywords doc)));
   ("number", raw_numbers doc);
   ("incident_type", search_spans (doc_text doc) (spacy_tokens doc) incident_type_word);
   ("incident_status", search_spans (doc_text doc) (spacy_tokens doc) incident_status_word)].

(** ** Column typing (lines 148-178) *)

(** [SpanGroup(base_spans, metadata)]: the hull of its base spans. *)
Definition span_group (base : list espan) (m : entity_meta) : espan :=
  match base with
  | [] => ESpan 0 0 m []
  | b :: bs => ESpan (foldl Z.min (e_start b) (map e_start bs))
                     (foldl Z.max (e_end b) (map e_end bs)) m base
  end.

(** Lines 164-166: per cell, the group of the entities it contains, or
    [None]. *)
Definition column_entities (column : list cell) (spans : list espan) : list (option espan) :=
  map (λ '(_, contained),
         match contained with
         | [] => None
         | _ => Some (span_group contained (combine_metadata contained))
         end)
      (group_spans_by_containing_span column spans).

Definition count_matches (ents : list (option espan)) : nat :=
  length (filter (λ o, is_Some o) ents).

(** Line 170: [num_non_null_rows > 0 and float(num_matches) / num_non_null_rows
    > 0.3], compared exactly; the float comparison agrees with it for any
    column shorter than 2^50 cells. *)
Definition exceeds_threshold (num_matches num_non_null : nat) : bool :=
  bool_decide (0 < num_non_null) && bool_decide (3 * num_non_null < 10 * num_matches).

(** The loop state: [max_matches], [matching_column_entities], [column_type]. *)
Record col_state := mk_cstate {
  cs_max : nat;
  cs_entities : option (list (option espan));
  cs_type : string
}.

Definition classify_step (dates_tier : list espan) (column : list cell) (num_non_null : nat)
    (st : col_state) (vt : string * list espan) : col_state :=
  let '(value_type, value_spans) := vt in
  let filtered :=
    if bool_decide (value_type = "number") then without_overlaps value_spans dates_tier
    else value_spans in
  let ents := column_entities column filtered in
  let n := count_matches ents in
  let st' :=
    if exceeds_threshold n num_non_null && bool_decide (cs_max st < n)
    then mk_cstate n (Some ents) value_type else st in
  match cs_entities st' with
  | None => mk_cstate (cs_max st') (Some (map (λ _, None) column)) (cs_type st')
  | Some _ => st'
  end.

(** One column: its type and the entity of each of its cells. *)
Definition classify_column (text : string) (dates_tier : list espan)
    (ebt : list (string * list espan)) (column : list cell) : string * list (option espan) :=
  let num_non_null := length (filter (λ c, is_null (cell_text text c) = false) column) in
  let st := foldl (classify_step dates_tier column num_non_null) (mk_cstate 0 None "text") ebt in
  (cs_type st, default (map (λ _, None) column) (cs_entities st)).

(** ** Tables (lines 116-211) *)

(** Python's [zip] over the unpacked rows: the columns, as many as the
    shortest row has cells. *)
Definition zip_star {X} (rows : list (list X)) : list (list X) :=
  match rows with
  | [] => []
  | r0 :: _ =>
      let n := foldr (λ r m, Nat.min (length r) m) (length r0) rows in
      map (λ j, omap (λ r, r !! j) rows) (seq 0 n)
  end.

(** A column definition: [{'name': header.text, 'type': t}] or
    [{'type': t}]. *)
Record column_def := mk_coldef { col_name : option string; col_type : string }.

Inductive aggregation := Cumulative | Incremental.

#[export] Instance aggregation_eq_dec : EqDecision aggregation.
Proof. solve_decision. Defined.

(** The [Table] object (lines 18-22) with the metadata the annotator gives
    it (lines 203-211). *)
Record table := mk_table {
  column_definitions : list column_def;
  rows : list (list (option espan));
  date_period : option Z;
  table_aggregation : option aggregation;
  last_geoname_mentioned : option espan;
  last_date_mentioned : option espan
}.

(** Lines 134-138: the first row is a header when none of its cells
    contains a number. *)
Definition has_header (numbers : list espan) (first_row : list cell) : bool :=
  forallb (λ '(_, ents), bool_decide (ents = [])) (group_spans_by_containing_span first_row numbers).

(** Lines 145-146: the rows with the median number of cells. *)
Definition rows_with_median_length (all_rows : list (list cell)) (median_num_cols : Z)
    : list (list cell) :=
  filter (λ row, Z.of_nat (length row) = median_num_cols) all_rows.

(** Lines 179-189. *)
Definition make_column_definitions (header : bool) (first_row : list cell) (text : string)
    (column_types : list string) : list column_def :=
  if header then zip_with (λ t h, mk_coldef (Some (cell_text text h)) t) column_types first_row
  else map (mk_coldef None) column_types.

(** [d.metadata['datetime_range'][0]]. *)
Definition range_start (d : espan) : res Z :=
  match datetime_range (e_meta d) with
  | Some (a, _) => Ok a
  | None => Err KeyError
  end.

(** [zip(group, group[1:])]. *)
Fixpoint consecutive_pairs {X} (l : list X) : list (X * X) :=
  match l with
  | x :: ((y :: _) as l') => (x, y) :: consecutive_pairs l'
  | _ => []
  end.

(** Lines 196-200: the gaps between the starts of consecutive dates of
    each run of a date column. *)
Definition date_diffs (entities : list (option espan)) : res (list Z) :=
  diffs ← mapM (λ group,
                  mapM (λ '(d, next_d),
                          a ← range_start d; b ← range_start next_d; Ok (Z.abs (a - b)))
                       (consecutive_pairs group))
               (split_list entities);
  Ok (concat diffs).

(** Lines 193-202: the median gap of the first date column, if any. *)
Fixpoint compute_date_period (defs : list column_def) (parsed : list (list (option espan)))
    : res (option Z) :=
  match defs, parsed with
  | d :: defs', ents :: parsed' =>
      if bool_decide (col_type d = "date") then
        diffs ← date_diffs ents; p ← median diffs; Ok (Some p)
      else compute_date_period defs' parsed'
  | _, _ => Ok None
  end.

(** Lines 121-126 and 209: the title is the sentence before the table,
    clipped at the table's start; [table_title.text] raises
    [AttributeError] when there is none. *)
Definition title_aggregation (text : string) (sentences : list espan) (span : table_span)
    : res (option aggregation) :=
  match span_before sentences span with
  | None => Err AttributeError
  | Some t =>
      let title := span_text text (e_start t) (Z.min (e_end t) (ts_start span)) in
      Ok (if str_contains "cumulative" (lower title) then Some Cumulative else None)
  end.

(** The body of the loop of lines 117-211 for one table span. *)
Definition build_table (doc : annotated_doc) (span : table_span) : res table :=
  let text := doc_text doc in
  let all_rows := ts_data span in
  first_row ← (match all_rows with [] => Err IndexError | r :: _ => Ok r end);
  let header := has_header (raw_numbers doc) first_row in
  median_num_cols ← median (map (λ row, Z.of_nat (length row)) all_rows);
  let data_rows := rows_with_median_length all_rows median_num_cols in
  let typed := map (classify_column text (dates doc) (entities_by_type doc)) (zip_star data_rows) in
  let column_types := map fst typed in
  let parsed := map snd typed in
  let defs := make_column_definitions header first_row text column_types in
  period ← compute_date_period defs parsed;
  agg ← title_aggregation text (spacy_sentences doc) span;
  Ok (mk_table defs (zip_star parsed) period agg
               (span_before (geonames doc) span) (span_before (dates doc) span)).

(** Lines 116-119: one [Table] per span of type ["table"]. *)
Definition build_tables (doc : annotated_doc) : res (list table) :=
  mapM (build_table doc) (filter (λ s, ts_type s = "table") (structured_data doc)).

(** ** Example documents *)

(** The example of the specification: a sentence and a three-row table
    with a header,
<<
    Weekly report.
    Date,New Cases
    Jan 1,5
    Jan 2,8
>>
    with the dates, raw numbers and tokens the producers give it. *)
Definition newline : string := String (Ascii.ascii_of_nat 10) EmptyString.

Definition day : Z := 86400.

Definition spec_table_text : string :=
  "Weekly report." ++ newline ++ "Date,New Cases" ++ newline ++ "Jan 1,5" ++ newline ++ "Jan 2,8".

Definition spec_table_span : table_span :=
  mk_table_span 15 45 "table"
    [[mk_cell 15 19; mk_cell 20 29]; [mk_cell 30 35; mk_cell 36 37]; [mk_cell 38 43; mk_cell 44 45]].

Definition spec_table_doc_with (sentences : list espan) : annotated_doc :=
  mk_adoc spec_table_text [spec_table_span] []
    [ESpan 30 35 (mk_emeta None (Some (0, day)%Z) None None) [];
     ESpan 38 43 (mk_emeta None (Some (day, 2 * day)%Z) None None) []]
    []
    [ESpan 15 19 empty_meta []; ESpan 20 23 empty_meta []; ESpan 24 29 empty_meta []]
    sentences
    [ESpan 34 35 (mk_emeta None None None (Some 1%Z)) [];
     ESpan 36 37 (mk_emeta None None None (Some 5%Z)) [];
     ESpan 42 43 (mk_emeta None None None (Some 2%Z)) [];
     ESpan 44 45 (mk_emeta None None None (Some 8%Z)) []].

Definition spec_table_doc : annotated_doc := spec_table_doc_with [ESpan 0 14 empty_meta []].

(** * Properties *)

(** ** [split_list] *)

Lemma split_list_go_concat {X} (group : list X) (li : list (option X)) :
  concat (split_list_go group li) = group ++ omap id li.
Proof.
  revert group. induction li as [|[v|] li IH]; intros group; simpl.
  - destruct group; simpl; by rewrite ?app_nil_r.
  - rewrite IH. by rewrite <-app_assoc.
  - destruct group as [|x g]; [apply IH|]. simpl. by rewrite IH.
Qed.

Lemma split_list_go_nonempty {X} (group : list X) (li : list (option X)) :
  Forall (λ g, g ≠ []) (split_list_go group li).
Proof.
  revert group. induction li as [|[v|] li IH]; intros group; simpl.
  - destruct group; constructor; [done | constructor].
  - apply IH.
  - destruct group as [|x g]; [apply IH|]. constructor; [done | apply IH].
Qed.

(** ** [median] *)

Lemma Sorted_lookup_S (R : relation Z) (l : list Z) (k : nat) (a b : Z) :
  Sorted R l → l !! k = Some a → l !! S k = Some b → R a b.
Proof.
  revert k. induction l as [|x l IH]; intros k Hs Ha Hb; [done|].
  apply Sorted_inv in Hs as [Hs Hhd]. destruct k as [|k].
  - simpl in Ha, Hb. injection Ha as <-. destruct l as [|y l]; [done|].
    simpl in Hb. injection Hb as <-. by inversion Hhd.
  - simpl in Ha, Hb. by apply (IH k).
Qed.

Lemma median_sorted_length (li : list Z) :
  length (merge_sort Z.le li) = length li.
Proof. apply Permutation_length, merge_sort_Permutation. Qed.

Lemma median_nil : median [] = Err IndexError.
Proof. reflexivity. Qed.

(** Sorted lists are ordered by position. *)
Lemma sorted_lookup_le (s : list Z) (i j : nat) (x y : Z) :
  Sorted Z.le s → i ≤ j → s !! i = Some x → s !! j = Some y → (x <= y)%Z.
Proof.
  intros Hs. apply Sorted_StronglySorted in Hs; [|apply _].
  revert i j. induction Hs as [|z s Hs IH Hz]; intros [|i] [|j] Hij Hx Hy;
    simplify_eq/=; try lia; [|by apply (IH i j); [lia | |]].
  rewrite Forall_forall in Hz. apply Hz. by eapply list_elem_of_lookup_2.
Qed.

Lemma filter_none {X} (P : X → Prop) `{∀ x, Decision (P x)} (l : list X) :
  (∀ x, x ∈ l → ¬ P x) → filter P l = [].
Proof.
  induction l as [|x l IH]; intros Hl; [done|].
  rewrite filter_cons_False by (apply Hl; by left). apply IH. intros y Hy. apply Hl. by right.
Qed.

(** In a sorted list, fewer than [k] elements lie strictly below a bound
    of the [k]-th element, and the elements after the [k]-th are all
    that can lie strictly above a bound above it. *)
Lemma sorted_filter_lt_length (s : list Z) (k : nat) (b m : Z) :
  Sorted Z.le s → s !! k = Some b → (m <= b)%Z →
  length (filter (λ x, (x < m)%Z) s) ≤ k.
Proof.
  intros Hs Hb Hm. rewrite <-(take_drop k s), filter_app, length_app.
  rewrite (filter_none _ (drop k s)); [pose proof (length_filter (λ x, (x < m)%Z) (take k s));
    rewrite length_take in *; simpl; lia|].
  intros x Hx. apply list_elem_of_lookup in Hx as [i Hi]. rewrite lookup_drop in Hi.
  pose proof (sorted_lookup_le s k (k + i) b x Hs ltac:(lia) Hb Hi). lia.
Qed.

Lemma sorted_filter_gt_length (s : list Z) (k : nat) (a m : Z) :
  Sorted Z.le s → s !! k = Some a → (a <= m)%Z →
  length (filter (λ x, (m < x)%Z) s) ≤ length s - S k.
Proof.
  intros Hs Ha Hm. rewrite <-(take_drop (S k) s), filter_app, length_app.
  rewrite (filter_none _ (take (S k) s)); [pose proof (length_filter (λ x, (m < x)%Z) (drop (S k) s));
    rewrite length_drop in *; rewrite take_drop; simpl; lia|].
  intros x Hx. apply list_elem_of_lookup in Hx as [i Hi].
  pose proof (lookup_lt_Some _ _ _ Hi) as Hlt. rewrite length_take in Hlt.
  rewrite lookup_take_lt in Hi by lia.
  pose proof (sorted_lookup_le s i k x a Hs ltac:(lia) Hi Ha). lia.
Qed.

(** [median] sorts first, so it only depends on the multiset of values. *)
Lemma median_Permutation (li li' : list Z) : li' ≡ₚ li → median li' = median li.
Proof.
  intros Hp. unfold median. rewrite (Permutation_length Hp).
  assert (merge_sort Z.le li' = merge_sort Z.le li) as ->; [|done].
  apply (Sorted_unique Z.le); [apply Sorted_merge_sort; apply _ .. |].
  by rewrite !merge_sort_Permutation.
Qed.

(** The two branches of lines 33-36 on the sorted list [s], at
    [mid_idx = (len(li) - 1) / 2]. *)
Lemma median_Ok_inv (li : list Z) (m : Z) :
  median li = Ok m →
  let s := merge_sort Z.le li in
  let n := Z.of_nat (length li) in
  let k := Z.to_nat ((n - 1) / 2) in
  (1 <= n)%Z ∧
  ((n mod 2 = 1)%Z ∧ s !! k = Some m ∨
   (n mod 2 = 0)%Z ∧ ∃ a b, s !! k = Some a ∧ s !! S k = Some b ∧ m = ((a + b) / 2)%Z).
Proof.
  unfold median. cbv zeta. set (s := merge_sort Z.le li). set (n := Z.of_nat (length li)).
  assert (Hn0 : (0 <= n)%Z) by lia. clearbody s n.
  destruct (Z.eqb_spec (n mod 2) 1) as [Hodd|Heven].
  - destruct (Z.ltb_spec ((n - 1) / 2) 0); [exfalso; zdiv_lia|].
    destruct (Z.leb_spec 0 ((n - 1) / 2)); [|lia].
    destruct (Z.ltb_spec ((n - 1) / 2) n); simpl; [|discriminate].
    destruct (s !! _) as [x|] eqn:Hx; [|discriminate]. intros [= <-].
    split; [zdiv_lia | by left].
  - destruct (Z.ltb_spec ((n - 1) / 2) 0).
    + destruct (Z.leb_spec 0 (n + (n - 1) / 2)); simpl; [|discriminate].
      destruct (Z.ltb_spec (n + (n - 1) / 2) n); simpl; [|discriminate].
      exfalso. zdiv_lia.
    + destruct (Z.leb_spec 0 ((n - 1) / 2)); [|lia].
      destruct (Z.ltb_spec ((n - 1) / 2) n); simpl; [|discriminate].
      destruct (s !! Z.to_nat ((n - 1) / 2)) as [a|] eqn:Ha; [|discriminate]. simpl.
      destruct (Z.ltb_spec ((n - 1) / 2 + 1) 0); [lia|].
      destruct (Z.leb_spec 0 ((n - 1) / 2 + 1)); [|lia].
      destruct (Z.ltb_spec ((n - 1) / 2 + 1) n); simpl; [|discriminate].
      replace (Z.to_nat ((n - 1) / 2 + 1)) with (S (Z.to_nat ((n - 1) / 2))) by lia.
      destruct (s !! S _) as [b|] eqn:Hb; [|discriminate]. intros [= <-].
      split; [lia | right; split; [zdiv_lia | eauto]].
Qed.

Lemma median_sorted (li : list Z) : Sorted Z.le (merge_sort Z.le li).
Proof. apply Sorted_merge_sort. apply _. Qed.

Lemma median_in_range (li : list Z) (m : Z) :
  median li = Ok m → ∃ a b, a ∈ li ∧ b ∈ li ∧ (a <= m <= b)%Z.
Proof.
  intros Hm. apply median_Ok_inv in Hm as [_ Hm]. cbv zeta in Hm.
  assert (Hin : ∀ k x, merge_sort Z.le li !! k = Some x → x ∈ li).
  { intros k x Hk. rewrite <-(merge_sort_Permutation Z.le li). by eapply list_elem_of_lookup_2. }
  destruct Hm as [[_ Hx] | (_ & a & b & Ha & Hb & ->)]; [exists m, m; eauto with lia|].
  assert (a <= b)%Z by (eapply sorted_lookup_le; [apply median_sorted | | exact Ha | exact Hb]; lia).
  exists a, b. split; [by eapply Hin | split; [by eapply Hin | zdiv_lia]].
Qed.

(** [lia] with the division of [n] and [n - 1] by two. *)
Local Ltac half_lia n :=
  pose proof (Nat.div_mod_eq n 2); pose proof (Nat.div_mod_eq (n - 1) 2);
  pose proof (Nat.mod_upper_bound (n - 1) 2); lia.

(** The result of [median] is a median: at most half of the values lie
    strictly below it, and at most half strictly above. *)
Lemma median_balanced (li : list Z) (m : Z) :
  median li = Ok m →
  length (filter (λ x, (x < m)%Z) li) ≤ length li / 2 ∧
  length (filter (λ x, (m < x)%Z) li) ≤ length li / 2.
Proof.
  intros Hm. apply median_Ok_inv in Hm as [Hn Hm]. cbv zeta in Hm.
  pose proof (median_sorted li) as Hs. pose proof (merge_sort_Permutation Z.le li) as Hp.
  rewrite <-!(Permutation_length (filter_Permutation _ _ _ Hp)).
  rewrite <-(Permutation_length Hp) in Hn |- *. rewrite <-(Permutation_length Hp) in Hm.
  set (s := merge_sort Z.le li) in *. set (n := length s) in *.
  assert (Hdiv : Z.to_nat ((Z.of_nat n - 1) / 2) = (n - 1) / 2).
  { apply Nat2Z.inj. rewrite Z2Nat.id by zdiv_lia.
    rewrite Nat2Z.inj_div, Nat2Z.inj_sub by lia. done. }
  rewrite Hdiv in Hm. assert (Hlen : length s = n) by done. clearbody s n.
  destruct Hm as [[Hodd Hx] | (Heven & a & b & Ha & Hb & ->)].
  - assert (n mod 2 = 1) by (apply Nat2Z.inj; rewrite Nat2Z.inj_mod; exact Hodd).
    pose proof (sorted_filter_lt_length s _ m m Hs Hx ltac:(lia)).
    pose proof (sorted_filter_gt_length s _ m m Hs Hx ltac:(lia)).
    split; half_lia n.
  - assert (n mod 2 = 0) by (apply Nat2Z.inj; rewrite Nat2Z.inj_mod; exact Heven).
    assert (a <= b)%Z by (eapply sorted_lookup_le; [exact Hs | | exact Ha | exact Hb]; lia).
    pose proof (sorted_filter_lt_length s _ b ((a + b) / 2) Hs Hb ltac:(zdiv_lia)).
    pose proof (sorted_filter_gt_length s _ a ((a + b) / 2) Hs Ha ltac:(zdiv_lia)).
    split; half_lia n.
Qed.

Lemma median_ok (li : list Z) : li ≠ [] → ∃ m, median li = Ok m.
Proof.
  intros Hne. unfold median. cbv beta zeta.
  pose proof (median_sorted_length li) as Hlen.
  assert (Hpos : (1 <= Z.of_nat (length li))%Z) by (destruct li; [done | simpl; lia]).
  set (s := merge_sort Z.le li) in *. set (n := Z.of_nat (length li)) in *.
  assert (Hs : ∀ k, (0 <= k < n)%Z → is_Some (s !! Z.to_nat k)).
  { intros k Hk. apply lookup_lt_is_Some_2. subst n. lia. }
  clearbody s n.
  destruct (Z.eqb_spec (n mod 2) 1).
  - destruct (Z.ltb_spec ((n - 1) / 2) 0); [zdiv_lia|].
    destruct (Z.leb_spec 0 ((n - 1) / 2)); [|zdiv_lia].
    destruct (Z.ltb_spec ((n - 1) / 2) n); [|zdiv_lia]. simpl.
    destruct (Hs ((n - 1) / 2)%Z) as [x ->]; [zdiv_lia|]. eauto.
  - destruct (Z.ltb_spec ((n - 1) / 2) 0); [zdiv_lia|].
    destruct (Z.leb_spec 0 ((n - 1) / 2)); [|zdiv_lia].
    destruct (Z.ltb_spec ((n - 1) / 2) n); [|zdiv_lia]. simpl.
    destruct (Hs ((n - 1) / 2)%Z) as [a ->]; [zdiv_lia|]. simpl.
    destruct (Z.ltb_spec ((n - 1) / 2 + 1) 0); [zdiv_lia|].
    destruct (Z.leb_spec 0 ((n - 1) / 2 + 1)); [|zdiv_lia].
    destruct (Z.ltb_spec ((n - 1) / 2 + 1) n); [|zdiv_lia]. simpl.
    destruct (Hs ((n - 1) / 2 + 1)%Z) as [b ->]; [zdiv_lia|]. simpl. eauto.
Qed.

(** ** [combine_metadata] follows the pre-order traversal *)

(** Induction on entity spans with a hypothesis for every base span. *)
Fixpoint espan_ind_nested (P : espan → Prop)
    (f : ∀ a b m base, Forall P base → P (ESpan a b m base)) (s : espan) : P s :=
  match s with
  | ESpan a b m base =>
      f a b m base
        ((fix go (l : list espan) : Forall P l :=
            match l with
            | [] => @List.Forall_nil espan P
            | x :: l' => @List.Forall_cons espan P x l' (espan_ind_nested P f x) (go l')
            end) base)
  end.

(** The metadata of a span and of its descendants, in pre-order. *)
Fixpoint preorder (s : espan) : list entity_meta :=
  let '(ESpan _ _ m base) := s in m :: concat (map preorder base).

Definition preorder_list (spans : list espan) : list entity_meta :=
  concat (map preorder spans).

Definition merge_all (l : list entity_meta) : entity_meta :=
  foldr merge_metadata empty_meta l.

Lemma first_some_assoc {X} (a b c : option X) :
  first_some (first_some a b) c = first_some a (first_some b c).
Proof. by destruct a. Qed.

Lemma merge_metadata_assoc (a b c : entity_meta) :
  merge_metadata (merge_metadata a b) c = merge_metadata a (merge_metadata b c).
Proof.
  destruct a as [g1 d1 s1 n1], b as [g2 d2 s2 n2], c as [g3 d3 s3 n3].
  unfold merge_metadata. simpl. rewrite !first_some_assoc. f_equal.
  destruct s1 as [x|], s2 as [y|], s3 as [z|]; simpl; try done;
    repeat (match goal with
            | |- context [(?a <? ?b)%Z] => destruct (Z.ltb_spec a b)
            end; simpl); try done; lia.
Qed.

Lemma merge_metadata_empty_l (a : entity_meta) : merge_metadata empty_meta a = a.
Proof. destruct a as [g d [s|] n]; reflexivity. Qed.

Lemma merge_metadata_empty_r (a : entity_meta) : merge_metadata a empty_meta = a.
Proof. destruct a as [g d [s|] n]; unfold merge_metadata; simpl; by destruct g, d, n. Qed.

Lemma foldl_merge (acc : entity_meta) (l : list espan) :
  foldl (λ acc s, merge_metadata acc (span_metadata s)) acc l =
  merge_metadata acc (merge_all (map span_metadata l)).
Proof.
  revert acc. induction l as [|s l IH]; intros acc; simpl.
  - by rewrite merge_metadata_empty_r.
  - by rewrite IH, merge_metadata_assoc.
Qed.

Lemma merge_all_app (l1 l2 : list entity_meta) :
  merge_all (l1 ++ l2) = merge_metadata (merge_all l1) (merge_all l2).
Proof.
  induction l1 as [|m l1 IH]; simpl.
  - by rewrite merge_metadata_empty_l.
  - by rewrite IH, merge_metadata_assoc.
Qed.

Lemma merge_all_concat (ls : list (list entity_meta)) :
  merge_all (concat ls) = merge_all (map merge_all ls).
Proof. induction ls as [|l ls IH]; simpl; [done|]. by rewrite merge_all_app, IH. Qed.

Lemma span_metadata_preorder (s : espan) : span_metadata s = merge_all (preorder s).
Proof.
  induction s as [a b m base IH] using espan_ind_nested. simpl.
  rewrite foldl_merge, merge_metadata_empty_l, merge_all_concat. f_equal. f_equal.
  induction IH as [|x base Hx Hbase IHb]; simpl; [done|]. by rewrite Hx, IHb.
Qed.

Lemma combine_metadata_merge_all (spans : list espan) :
  combine_metadata spans = merge_all (preorder_list spans).
Proof.
  unfold combine_metadata, preorder_list. rewrite foldl_merge, merge_metadata_empty_l.
  rewrite merge_all_concat. f_equal. induction spans as [|s spans IH]; simpl; [done|].
  by rewrite span_metadata_preorder, IH.
Qed.

Lemma merge_all_first_fields (l : list entity_meta) :
  number (merge_all l) = head (omap number l) ∧
  geoname (merge_all l) = head (omap geoname l) ∧
  datetime_range (merge_all l) = head (omap datetime_range l).
Proof.
  induction l as [|m l (IHn & IHg & IHd)]; simpl; [done|].
  rewrite IHn, IHg, IHd. by destruct (number m), (geoname m), (datetime_range m).
Qed.

Lemma merge_all_species_None (l : list entity_meta) :
  species (merge_all l) = None ↔ omap species l = [].
Proof.
  induction l as [|m l IH]; simpl; [done|].
  destruct (species m) as [x|]; simpl; [|done].
  destruct (species (merge_all l)) as [y|]; simpl; [|done].
  by destruct (Z.ltb_spec (species_weight x) (species_weight y)).
Qed.

(** The species kept is the first one of maximal weight. *)
Lemma merge_all_species_Some (l : list entity_meta) (s : species_resolution) :
  species (merge_all l) = Some s →
  ∃ pre post, omap species l = pre ++ s :: post ∧
    Forall (λ t, (species_weight t < species_weight s)%Z) pre ∧
    Forall (λ t, (species_weight t <= species_weight s)%Z) post.
Proof.
  revert s. induction l as [|m l IH]; intros s; [simpl; discriminate|].
  assert (Homap : omap species (m :: l) =
                  match species m with Some x => x :: omap species l | None => omap species l end)
    by reflexivity.
  assert (Hsp : species (merge_all (m :: l)) =
                match species m, species (merge_all l) with
                | Some x, Some y =>
                    if (species_weight x <? species_weight y)%Z then Some y else Some x
                | _, _ => first_some (species m) (species (merge_all l))
                end) by reflexivity.
  rewrite Hsp, Homap.
  destruct (species m) as [x|] eqn:Hm; [|apply IH].
  destruct (species (merge_all l)) as [y|] eqn:Hrest.
  - destruct (IH y eq_refl) as (pre & post & Hl & Hpre & Hpost).
    destruct (Z.ltb_spec (species_weight x) (species_weight y)); intros [= <-].
    + exists (x :: pre), post. rewrite Hl. split; [done|]. split; [|done].
      constructor; [lia | done].
    + exists [], (omap species l). split; [done|]. split; [constructor|].
      rewrite Hl. apply Forall_app. split.
      * eapply Forall_impl; [exact Hpre | simpl; intros; lia].
      * constructor; [lia|]. eapply Forall_impl; [exact Hpost | simpl; intros; lia].
  - simpl. intros [= <-]. exists [], []. apply merge_all_species_None in Hrest.
    rewrite Hrest. split; [done|]. split; constructor.
Qed.

(** ** Column typing *)

(** The candidate a type gives for a column: its name and, per cell, the
    group of entities of that type the cell contains. *)
Definition column_candidate (dates_tier : list espan) (column : list cell)
    (vt : string * list espan) : string * list (option espan) :=
  let '(value_type, value_spans) := vt in
  (value_type,
   column_entities column
     (if bool_decide (value_type = "number") then without_overlaps value_spans dates_tier
      else value_spans)).

Definition passes (n : nat) (c : string * list (option espan)) : bool :=
  exceeds_threshold (count_matches c.2) n.

(** The loop invariant: either no candidate so far passes the threshold
    and the state is the initial one, or the state holds the first
    candidate of maximal count among those that pass. *)
Definition classify_inv (n : nat) (column : list cell)
    (seen : list (string * list (option espan))) (st : col_state) : Prop :=
  (Forall (λ d, passes n d = false) seen ∧ cs_max st = 0 ∧ cs_type st = "text" ∧
   cs_entities st = match seen with [] => None | _ => Some (map (λ _, None) column) end) ∨
  (∃ pre c post, seen = pre ++ c :: post ∧
     st = mk_cstate (count_matches c.2) (Some c.2) c.1 ∧ passes n c = true ∧
     Forall (λ d, passes n d = true → count_matches d.2 < count_matches c.2) pre ∧
     Forall (λ d, passes n d = true → count_matches d.2 <= count_matches c.2) post).

Lemma passes_pos (n : nat) (c : string * list (option espan)) :
  passes n c = true → 0 < count_matches c.2.
Proof.
  unfold passes, exceeds_threshold. intros [H1 H2]%andb_true_iff.
  apply bool_decide_eq_true_1 in H1, H2. lia.
Qed.

Lemma classify_step_inv (dates_tier : list espan) (column : list cell) (n : nat)
    (seen : list (string * list (option espan))) (st : col_state) (vt : string * list espan) :
  classify_inv n column seen st →
  classify_inv n column (seen ++ [column_candidate dates_tier column vt])
    (classify_step dates_tier column n st vt).
Proof.
  destruct vt as [t spans]. unfold classify_step, column_candidate.
  set (ents := column_entities column _). intros Hinv.
  change (exceeds_threshold (count_matches ents) n) with (passes n (t, ents)).
  destruct (passes n (t, ents)) eqn:Hp; simpl.
  - destruct (decide (cs_max st < count_matches ents)) as [Hlt|Hge].
    + rewrite (bool_decide_eq_true_2 _ Hlt). simpl. right.
      exists seen, (t, ents), []. split; [done|]. split; [done|]. split; [done|].
      split; [|constructor].
      destruct Hinv as [(Hall & Hmax & _ & _) | (pre & c & post & -> & -> & Hc & Hpre & Hpost)].
      * eapply Forall_impl; [exact Hall | simpl; intros d Hd Hd'; congruence].
      * simpl in Hlt. apply Forall_app. split.
        { eapply Forall_impl; [exact Hpre | simpl; intros d Hd Hd'; specialize (Hd Hd'); lia]. }
        constructor; [intros _; simpl; lia|].
        eapply Forall_impl; [exact Hpost | simpl; intros d Hd Hd'; specialize (Hd Hd'); lia].
    + rewrite (bool_decide_eq_false_2 _ Hge). simpl.
      destruct Hinv as [(Hall & Hmax & _ & _) | (pre & c & post & -> & -> & Hc & Hpre & Hpost)].
      * exfalso. apply passes_pos in Hp. simpl in Hp. lia.
      * right. exists pre, c, (post ++ [(t, ents)]). simpl.
        split; [by rewrite <-app_assoc|]. split; [done|]. split; [done|]. split; [done|].
        apply Forall_app. split; [done|]. constructor; [|constructor].
        intros _. simpl in *. lia.
  - simpl.
    destruct Hinv as [(Hall & Hmax & Hty & Hents) | (pre & c & post & -> & -> & Hc & Hpre & Hpost)].
    + left. split; [apply Forall_app; split; [done | by constructor]|].
      rewrite Hents. destruct seen; simpl; auto.
    + right. exists pre, c, (post ++ [(t, ents)]). simpl.
      split; [by rewrite <-app_assoc|]. split; [done|]. split; [done|]. split; [done|].
      apply Forall_app. split; [done|]. constructor; [|constructor]. intros Hp'.
      simpl in Hp'. congruence.
Qed.

Lemma classify_fold_inv (dates_tier : list espan) (column : list cell) (n : nat)
    (ebt : list (string * list espan)) (seen : list (string * list (option espan)))
    (st : col_state) :
  classify_inv n column seen st →
  classify_inv n column (seen ++ map (column_candidate dates_tier column) ebt)
    (foldl (classify_step dates_tier column n) st ebt).
Proof.
  revert seen st. induction ebt as [|vt ebt IH]; intros seen st Hinv; simpl.
  - by rewrite app_nil_r.
  - rewrite cons_middle, app_assoc. apply IH. by apply classify_step_inv.
Qed.

(** C16: the type of a column is the first entity type, in the order of
    [entities_by_type], whose count of matching cells is maximal among the
    types whose count exceeds 30% of the non-null cells; when no type
    exceeds it the column is "text" with no entities. *)
Theorem classify_column_majority (text : string) (dates_tier : list espan)
    (ebt : list (string * list espan)) (column : list cell) :
  let n := length (filter (λ c, is_null (cell_text text c) = false) column) in
  let cands := map (column_candidate dates_tier column) ebt in
  (classify_column text dates_tier ebt column = ("text", map (λ _, None) column) ∧
   Forall (λ d, passes n d = false) cands) ∨
  (∃ pre c post, cands = pre ++ c :: post ∧
     classify_column text dates_tier ebt column = c ∧ passes n c = true ∧
     Forall (λ d, passes n d = true → count_matches d.2 < count_matches c.2) pre ∧
     Forall (λ d, passes n d = true → count_matches d.2 <= count_matches c.2) post).
Proof.
  intros n cands. unfold classify_column. fold n.
  destruct (classify_fold_inv dates_tier column n ebt [] (mk_cstate 0 None "text"))
    as [(Hall & _ & Hty & Hents) | (pre & c & post & Hc & Hst & Hp & Hpre & Hpost)].
  - left. by split; [|done].
  - left. fold cands in Hall, Hty, Hents. rewrite Hty, Hents. split; [|done].
    by destruct cands.
  - right. fold cands in Hc, Hst. exists pre, c, post. rewrite Hst. destruct c. done.
Qed.

(** ** Table shape *)

Lemma column_entities_length (column : list cell) (spans : list espan) :
  length (column_entities column spans) = length column.
Proof. unfold column_entities, group_spans_by_containing_span. by rewrite !length_map. Qed.

Definition entities_fit (column : list cell) (st : col_state) : Prop :=
  ∀ l, cs_entities st = Some l → length l = length column.

Lemma classify_step_fit (dates_tier : list espan) (column : list cell) (n : nat)
    (st : col_state) (vt : string * list espan) :
  entities_fit column st → entities_fit column (classify_step dates_tier column n st vt).
Proof.
  destruct vt as [t spans]. unfold entities_fit, classify_step. intros Hst l.
  destruct (exceeds_threshold _ _ && _); simpl.
  - intros [= <-]. apply column_entities_length.
  - destruct (cs_entities st) eqn:He; simpl; [rewrite He; exact (Hst l)|].
    intros [= <-]. by rewrite length_map.
Qed.

Lemma classify_column_length (text : string) (dates_tier : list espan)
    (ebt : list (string * list espan)) (column : list cell) :
  length (classify_column text dates_tier ebt column).2 = length column.
Proof.
  unfold classify_column. simpl.
  assert (Hfold : ∀ n st, entities_fit column st →
            entities_fit column (foldl (classify_step dates_tier column n) st ebt)).
  { induction ebt as [|vt ebt IH]; intros n st Hst; [done|].
    apply IH, classify_step_fit, Hst. }
  destruct (cs_entities _) eqn:He; simpl.
  - eapply Hfold; [|exact He]. discriminate.
  - by rewrite length_map.
Qed.

Lemma omap_lookup_length {X} (rows : list (list X)) (j : nat) :
  Forall (λ r, j < length r) rows → length (omap (λ r, r !! j) rows) = length rows.
Proof.
  induction 1 as [|r rows Hr Hrows IH]; [done|].
  destruct (lookup_lt_is_Some_2 r j Hr) as [x Hx].
  rewrite (omap_cons_Some (λ r, r !! j) r rows x Hx). simpl. by f_equal.
Qed.

Lemma foldr_min_uniform {X} (rs : list (list X)) (n : nat) :
  Forall (λ r, length r = n) rs → foldr (λ r m, Nat.min (length r) m) n rs = n.
Proof. induction 1 as [|r rs Hr _ IH]; simpl; [done|]. rewrite IH, Hr. lia. Qed.

Lemma zip_star_shape {X} (rows : list (list X)) (n : nat) :
  rows ≠ [] → Forall (λ r, length r = n) rows →
  length (zip_star rows) = n ∧ Forall (λ c, length c = length rows) (zip_star rows).
Proof.
  intros Hne Hlen. destruct rows as [|r0 rs]; [done|]. unfold zip_star.
  assert (Hmin : foldr (λ r m, Nat.min (length r) m) (length r0) (r0 :: rs) = n).
  { inversion Hlen as [|? ? H0 Hrs]. simpl. rewrite H0, foldr_min_uniform by done. lia. }
  rewrite Hmin, length_map, length_seq. split; [done|].
  apply Forall_forall. intros c Hc. apply list_elem_of_In, in_map_iff in Hc as (j & <- & Hj).
  apply in_seq in Hj. apply omap_lookup_length.
  eapply Forall_impl; [exact Hlen | simpl; intros; lia].
Qed.

Lemma median_uniform (li : list Z) (k m : Z) :
  Forall (λ x, x = k) li → median li = Ok m → m = k.
Proof.
  intros Hall Hm. destruct (median_in_range li m Hm) as (a & b & Ha & Hb & Hab).
  rewrite Forall_forall in Hall. apply Hall in Ha, Hb. lia.
Qed.

Lemma rows_with_median_length_uniform (all_rows : list (list cell)) (n : nat) :
  Forall (λ r, length r = n) all_rows →
  rows_with_median_length all_rows (Z.of_nat n) = all_rows.
Proof.
  unfold rows_with_median_length.
  induction 1 as [|r rs Hr _ IH]; [done|].
  rewrite filter_cons_True by lia. by rewrite IH.
Qed.

(** C17: lines 139-146 compute [data_rows = rows[1:]] for a table with a
    header and then overwrite it with the rows of [rows] of median length,
    so a detected header row is kept as a data row: when every row of a
    table span has the same number [n > 0] of cells, the table has one row
    per row of the span, header included. *)
Theorem build_table_keeps_header_row (doc : annotated_doc) (span : table_span)
    (t : table) (n : nat) :
  0 < n → Forall (λ r, length r = n) (ts_data span) →
  build_table doc span = Ok t →
  length (rows t) = length (ts_data span).
Proof.
  intros Hn Hall Hb. unfold build_table in Hb.
  destruct (ts_data span) as [|r0 rs] eqn:Hd; [discriminate|].
  res_simpl. res_inv. subst. rename x into r0, x0 into m.
  assert (m = Z.of_nat n) as ->.
  { eapply median_uniform; [|exact H0].
    apply Forall_fmap. eapply Forall_impl; [exact Hall | simpl; intros; lia]. }
  rewrite rows_with_median_length_uniform in * by done. cbn [rows].
  destruct (zip_star_shape (r0 :: rs) n) as [Hn' Hcols]; [done | done |].
  destruct (zip_star_shape (map snd (map (classify_column (doc_text doc) (dates doc)
              (entities_by_type doc)) (zip_star (r0 :: rs)))) (length (r0 :: rs)))
    as [Hrows _].
  - intros Hnil. apply (f_equal length) in Hnil. rewrite !length_map, Hn' in Hnil. simpl in Hnil. lia.
  - apply Forall_forall. intros c Hc.
    apply list_elem_of_In, in_map_iff in Hc as (p & <- & Hp).
    apply in_map_iff in Hp as (col & <- & Hcol).
    rewrite classify_column_length. rewrite Forall_forall in Hcols.
    by apply Hcols, list_elem_of_In.
  - exact Hrows.
Qed.

Lemma build_table_keeps_header_row_witness :
  ∃ t, build_table spec_table_doc spec_table_span = Ok t ∧ has_header (raw_numbers spec_table_doc)
         [mk_cell 15 19; mk_cell 20 29] = true ∧ length (rows t) = 3.
Proof.
  eexists. split; [vm_compute; reflexivity|]. split; [vm_compute; reflexivity|].
  apply (build_table_keeps_header_row spec_table_doc spec_table_span _ 2);
    [lia | repeat constructor | vm_compute; reflexivity].
Defined.

(** ** Error paths of [build_table] *)

Lemma date_diffs_lonely (ents : list (option espan)) :
  Forall (λ g, length g ≤ 1) (split_list ents) → date_diffs ents = Ok [].
Proof.
  unfold date_diffs. generalize (split_list ents) as gs.
  induction 1 as [|g gs Hg _ IH]; [done|].
  destruct g as [|x [|y g]]; simpl in Hg; try lia;
    cbn [consecutive_pairs mapM]; res_simpl; revert IH; res_simpl;
    destruct (mapM _ gs); intros [=]; simpl; by f_equal.
Qed.

(** C19: when the first date column of a table has no two consecutive
    cells holding a date, the list of date gaps of lines 194-200 is empty
    and [median(date_diffs)] raises [IndexError], so the table is not
    built. *)
Theorem compute_date_period_lonely_dates (pre_defs : list column_def)
    (pre_parsed : list (list (option espan))) (d : column_def) (ents : list (option espan))
    (defs : list column_def) (parsed : list (list (option espan))) :
  length pre_defs = length pre_parsed →
  Forall (λ c, col_type c ≠ "date") pre_defs →
  col_type d = "date" →
  Forall (λ g, length g ≤ 1) (split_list ents) →
  compute_date_period (pre_defs ++ d :: defs) (pre_parsed ++ ents :: parsed) = Err IndexError.
Proof.
  intros Hlen Hpre Hd Hl. revert pre_parsed Hlen.
  induction Hpre as [|c pre_defs Hc _ IH]; intros [|p pre_parsed] Hlen; try discriminate.
  - simpl. rewrite bool_decide_true by done. by rewrite date_diffs_lonely.
  - simpl. rewrite bool_decide_false by done. apply IH. simpl in Hlen. lia.
Qed.

(** C18: [table_title.text] at line 209 is evaluated even when no sentence
    precedes the table ([span_before] returns [None]), so such a table
    raises [AttributeError]: no table is built from it. *)
Theorem build_table_without_title (doc : annotated_doc) (span : table_span) :
  span_before (spacy_sentences doc) span = None →
  ∀ t, build_table doc span ≠ Ok t.
Proof.
  intros Hnone t Hb. unfold build_table in Hb. res_inv.
  match goal with H : title_aggregation _ _ _ = Ok _ |- _ =>
    unfold title_aggregation in H; rewrite Hnone in H; discriminate end.
Qed.

Lemma build_table_without_title_witness :
  span_before (spacy_sentences (spec_table_doc_with [])) spec_table_span = None ∧
  build_table (spec_table_doc_with []) spec_table_span = Err AttributeError ∧
  ∀ t, build_table (spec_table_doc_with []) spec_table_span ≠ Ok t.
Proof.
  split; [reflexivity|]. split; [vm_compute; reflexivity|].
  apply build_table_without_title. reflexivity.
Defined.

Definition jan1 : espan := ESpan 0 5 (mk_emeta None (Some (0, day)%Z) None None) [].

Lemma compute_date_period_lonely_dates_witness :
  compute_date_period [mk_coldef None "date"] [[Some jan1; None; Some jan1]] = Err IndexError.
Proof.
  apply (compute_date_period_lonely_dates [] [] (mk_coldef None "date") _ [] []);
    [reflexivity | constructor | reflexivity | vm_compute; repeat constructor].
Defined.

(** ** [split_list] *)

Lemma split_on_none_cons {X} (li : list (option X)) :
  ∃ g gs, split_on_none li = g :: gs.
Proof.
  induction li as [|[v|] li (g & gs & IH)]; simpl; eauto.
  rewrite IH. eauto.
Qed.

Lemma split_list_go_spec {X} (group : list X) (li : list (option X)) :
  split_list_go group li =
  filter (λ g, g ≠ []) (match split_on_none li with
                        | g :: gs => (group ++ g) :: gs
                        | [] => [group]
                        end).
Proof.
  revert group. induction li as [|[v|] li IH]; intros group; simpl.
  - rewrite app_nil_r. destruct group; simpl; [done|]. by rewrite filter_cons_True.
  - rewrite IH. destruct (split_on_none_cons li) as (g & gs & ->). by rewrite <-app_assoc.
  - rewrite IH. destruct (split_on_none_cons li) as (g & gs & ->).
    rewrite app_nil_r. destruct group as [|x group]; cbn [app].
    + rewrite (filter_cons_False _ []) by (intros []; done). done.
    + rewrite (filter_cons_True _ (x :: group)) by done. done.
Qed.

(** C20: [split_list] (lines 61-71) agrees with the reference that cuts
    the list at every missing value and drops the empty pieces, and
    concatenating its groups gives back the present values in order. *)
Theorem split_list_reference {X} (li : list (option X)) :
  split_list li = filter (λ g, g ≠ []) (split_on_none li) ∧
  concat (split_list li) = omap id li.
Proof.
  split.
  - unfold split_list. rewrite split_list_go_spec.
    by destruct (split_on_none_cons li) as (g & gs & ->).
  - unfold split_list. by rewrite split_list_go_concat.
Qed.

(** ** [combine_metadata] *)

(** C21: [combine_metadata] (lines 47-58), a left fold of [merge_metadata]
    over the spans where each span first merges its own metadata with its
    children's, implements the flat specification over the metadata of the
    spans and their descendants in pre-order: a number, place or date range
    is the first one present, and the species is the first one of maximal
    weight. *)
Theorem combine_metadata_spec (spans : list espan) :
  let l := preorder_list spans in
  number (combine_metadata spans) = head (omap number l) ∧
  geoname (combine_metadata spans) = head (omap geoname l) ∧
  datetime_range (combine_metadata spans) = head (omap datetime_range l) ∧
  (species (combine_metadata spans) = None ↔ omap species l = []) ∧
  (∀ s, species (combine_metadata spans) = Some s →
     ∃ pre post, omap species l = pre ++ s :: post ∧
       Forall (λ t, (species_weight t < species_weight s)%Z) pre ∧
       Forall (λ t, (species_weight t <= species_weight s)%Z) post).
Proof.
  simpl. rewrite combine_metadata_merge_all.
  destruct (merge_all_first_fields (preorder_list spans)) as (-> & -> & ->).
  split; [done|]. split; [done|]. split; [done|]. split.
  - apply merge_all_species_None.
  - apply merge_all_species_Some.
Qed.

(** ** [median] *)

(** C22: [median] (lines 30-36) fails exactly on the empty list, with
    [IndexError]; it sorts first, so it depends only on the multiset of
    values; and what it returns is a median: at most half of the values
    lie strictly below it and at most half strictly above, and it lies
    between two of the values. *)
Theorem median_spec (li : list Z) :
  (∀ e, median li = Err e ↔ li = [] ∧ e = IndexError) ∧
  (∀ li', li' ≡ₚ li → median li' = median li) ∧
  (∀ m, median li = Ok m →
     length (filter (λ x, (x < m)%Z) li) ≤ length li / 2 ∧
     length (filter (λ x, (m < x)%Z) li) ≤ length li / 2) ∧
  (∀ m, median li = Ok m → ∃ a b, a ∈ li ∧ b ∈ li ∧ (a <= m <= b)%Z).
Proof.
  split; [|split; [intros; by apply median_Permutation |
                   split; [apply median_balanced | apply median_in_range]]].
  intros e. split.
  - intros He. destruct li as [|x li]; [by injection He as <-|].
    destruct (median_ok (x :: li)) as [m Hm]; [done|]. congruence.
  - intros [-> ->]. reflexivity.
Qed.

Lemma median_spec_witness :
  median [5; 2; 3; 1]%Z = median [1; 2; 3; 5]%Z ∧
  length (filter (λ x, (x < 2)%Z) [1; 2; 3; 5]%Z) ≤ length [1; 2; 3; 5]%Z / 2.
Proof.
  destruct (median_spec [1; 2; 3; 5]%Z) as (_ & Hperm & Hbal & _). split.
  - apply Hperm. apply (bool_decide_unpack _). vm_compute. reflexivity.
  - apply (Hbal 2%Z). vm_compute. reflexivity.
Defined.
