(* ===== verification/Incidents.v ===== *)
(** * The incident synthesizer of [structured_incident_annotator.py]

    Lines 212-329: for every row of every table, the row context (date,
    location, species, base type, status and aggregation carried from the
    table and from the row's non-number cells), one incident per number
    cell with its base type, status and aggregation inferred from the
    column header, the backdating by the table's reporting period, the
    aggregation pass that reclassifies an unmarked count above the row's
    largest incremental count as cumulative, and the composition of the
    output [type]. *)

From Stdlib Require Import ZArith.
From stdpp Require Import base list strings sorting sets.
From S2P Require Import Prelude Spans TableClassifier.

Open Scope string_scope.
Open Scope list_scope.
Open Scope nat_scope.

Inductive base_type := CaseCount | DeathCount.

#[export] Instance base_type_eq_dec : EqDecision base_type.
Proof. solve_decision. Defined.

(** ["caseCount"], ["deathCount"]. *)
Definition base_type_name (b : base_type) : string :=
  match b with CaseCount => "caseCount" | DeathCount => "deathCount" end.

(** The incident metadata of lines 289-297, before the aggregation pass. *)
Record raw_incident := mk_raw {
  ri_start : Z;
  ri_end : Z;
  ri_base_type : base_type;
  ri_aggregation : option aggregation;
  ri_value : Z;
  ri_attributes : list string;
  ri_location : option string;
  ri_date_range : option (Z * Z);
  ri_species : option (string * string)
}.

(** An output incident: the same fields with [type] in place of
    [base_type] and [aggregation] (lines 320-327). *)
Record incident := mk_incident {
  inc_start : Z;
  inc_end : Z;
  inc_type : string;
  inc_value : Z;
  inc_attributes : list string;
  inc_location : option string;
  inc_date_range : option (Z * Z);
  inc_species : option (string * string)
}.

#[export] Instance incident_span : SpanLike incident :=
  {| span_start := inc_start; span_end := inc_end |}.

(** ** The row context (lines 215-236) *)

Record row_ctx := mk_rctx {
  rc_date : option espan;
  rc_location : option espan;
  rc_species : option espan;
  rc_base_type : option base_type;
  rc_status : option string;
  rc_aggregation : option aggregation
}.

(** Lines 215-220: [last_species_mentioned] is never set, so the row's
    species starts unknown. *)
Definition initial_ctx (tbl : table) : row_ctx :=
  mk_rctx (last_date_mentioned tbl) (last_geoname_mentioned tbl) None None None
          (table_aggregation tbl).

(** Lines 221-236: one non-empty cell updates the context. *)
Definition update_ctx (text : string) (ctx : row_ctx) (column : column_def) (v : espan)
    : row_ctx :=
  let t := col_type column in
  if bool_decide (t = "date") then
    mk_rctx (Some v) (rc_location ctx) (rc_species ctx) (rc_base_type ctx) (rc_status ctx)
            (rc_aggregation ctx)
  else if bool_decide (t = "geoname") then
    mk_rctx (rc_date ctx) (Some v) (rc_species ctx) (rc_base_type ctx) (rc_status ctx)
            (rc_aggregation ctx)
  else if bool_decide (t = "species") then
    mk_rctx (rc_date ctx) (rc_location ctx) (Some v) (rc_base_type ctx) (rc_status ctx)
            (rc_aggregation ctx)
  else if bool_decide (t = "incident_type") then
    let w := lower (espan_text text v) in
    if str_contains "case" w then
      mk_rctx (rc_date ctx) (rc_location ctx) (rc_species ctx) (Some CaseCount) (rc_status ctx)
              (rc_aggregation ctx)
    else if str_contains "death" w then
      mk_rctx (rc_date ctx) (rc_location ctx) (rc_species ctx) (Some DeathCount) (rc_status ctx)
              (rc_aggregation ctx)
    else ctx
  else if bool_decide (t = "incident_status") then
    mk_rctx (rc_date ctx) (rc_location ctx) (rc_species ctx) (rc_base_type ctx)
            (Some (espan_text text v)) (rc_aggregation ctx)
  else ctx.

Definition row_context (text : string) (tbl : table) (row : list (option espan)) : row_ctx :=
  foldl (λ ctx '(column, value),
           match value with None => ctx | Some v => update_ctx text ctx column v end)
        (initial_ctx tbl) (zip (column_definitions tbl) row).

(** ** One incident per number cell (lines 238-297) *)

(** A Python string is true when it is not empty. *)
Definition truthy (s : option string) : option string :=
  match s with Some "" | None => None | Some _ => s end.

Definition base_type_from_name (column_name : string) : option base_type :=
  if str_contains "cases" column_name then Some CaseCount
  else if str_contains "deaths" column_name then Some DeathCount
  else None.

Definition status_from_name (column_name : string) : option string :=
  if str_contains "suspect" column_name || bool_decide (column_name = "reported") then Some "suspected"
  else if str_contains "confirmed" column_name then Some "confirmed"
  else None.

Definition aggregation_from_name (column_name : string) : option aggregation :=
  if str_contains "total" column_name then Some Cumulative
  else if str_contains "new" column_name then Some Incremental
  else None.

(** [d[key]] on the metadata of a value: [KeyError] when the key is
    absent. *)
Definition get_key {X} (o : option X) : res X :=
  match o with Some x => Ok x | None => Err KeyError end.

(** Lines 282-288: the date range, backdated by the reporting period for
    a count not marked cumulative; [incident_date[0]] raises [TypeError]
    when there is no date. *)
Definition incident_date (period : option Z) (agg : option aggregation)
    (date : option espan) : res (option (Z * Z)) :=
  range ← (match date with
           | Some d => r ← get_key (datetime_range (e_meta d)); Ok (Some r)
           | None => Ok None
           end);
  match period with
  | Some p =>
      if bool_decide (p ≠ 0%Z) && negb (bool_decide (agg = Some Cumulative)) then
        match range with
        | Some (s, _) => Ok (Some ((s - p)%Z, s))
        | None => Err TypeError
        end
      else Ok range
  | None => Ok range
  end.

(** Lines 242-297 for one non-empty cell of a number column. *)
Definition emit_incident (tbl : table) (ctx : row_ctx) (column : column_def) (value : espan)
    : res (option raw_incident) :=
  let column_name := lower (default "" (col_name column)) in
  let base0 :=
    match rc_base_type ctx with Some b => Some b | None => base_type_from_name column_name end in
  let count_status :=
    match truthy (rc_status ctx) with Some s => Some s | None => status_from_name column_name end in
  let base :=
    match truthy count_status, base0 with Some _, None => Some CaseCount | _, _ => base0 end in
  let agg :=
    match rc_aggregation ctx with
    | Some a => Some a
    | None => aggregation_from_name column_name
    end in
  incident_count ← get_key (number (e_meta value));
  match base with
  | None => Ok None
  | Some b =>
      sp ← (match rc_species ctx with
            | Some s => r ← get_key (species (e_meta s)); Ok (Some (species_id r, species_label r))
            | None => Ok None
            end);
      date ← incident_date (date_period tbl) agg (rc_date ctx);
      loc ← (match rc_location ctx with
             | Some l => g ← get_key (geoname (e_meta l)); Ok (Some g)
             | None => Ok None
             end);
      Ok (Some (mk_raw (e_start value) (e_end value) b agg incident_count
                       (match truthy count_status with Some s => [s] | None => [] end)
                       loc date sp))
  end.

Definition row_incidents (text : string) (tbl : table) (row : list (option espan))
    : res (list raw_incident) :=
  let ctx := row_context text tbl row in
  incs ← mapM (λ '(column, value),
                 match value with
                 | Some v =>
                     if bool_decide (col_type column = "number") then emit_incident tbl ctx column v
                     else Ok None
                 | None => Ok None
                 end)
              (zip (column_definitions tbl) row);
  Ok (omap id incs).

(** ** The aggregation pass (lines 298-327) *)

Definition is_case (b : base_type) : bool := bool_decide (b = CaseCount).

(** [max_new_cases] / [max_new_deaths]: the largest incremental value of
    the row for a base type, [-1] when there is none. *)
Definition counts_as_new (cases : bool) (inc : raw_incident) : bool :=
  bool_decide (ri_aggregation inc = Some Incremental) &&
  bool_decide (is_case (ri_base_type inc) = cases).

Definition max_new (incs : list raw_incident) (cases : bool) : Z :=
  foldl (λ m inc, if counts_as_new cases inc then Z.max m (ri_value inc) else m) (-1)%Z incs.

(** Lines 311-319. *)
Definition reclassify (max_cases max_deaths : Z) (inc : raw_incident) : option aggregation :=
  match ri_aggregation inc with
  | Some a => Some a
  | None =>
      let m := if is_case (ri_base_type inc) then max_cases else max_deaths in
      if (0 <=? m)%Z && (m <? ri_value inc)%Z then Some Cumulative else None
  end.

Definition capitalize (s : string) : string :=
  match s with
  | EmptyString => EmptyString
  | String c s' =>
      let n := Ascii.nat_of_ascii c in
      String (if (97 <=? n) && (n <=? 122) then Ascii.ascii_of_nat (n - 32) else c) s'
  end.

(** Lines 322-325. *)
Definition incident_type_name (b : base_type) (agg : option aggregation) : string :=
  if bool_decide (agg = Some Cumulative) then "cumulative" ++ capitalize (base_type_name b)
  else base_type_name b.

Definition finalize_row (incs : list raw_incident) : list incident :=
  let mc := max_new incs true in
  let md := max_new incs false in
  map (λ inc,
         mk_incident (ri_start inc) (ri_end inc)
                     (incident_type_name (ri_base_type inc) (reclassify mc md inc))
                     (ri_value inc) (ri_attributes inc) (ri_location inc)
                     (ri_date_range inc) (ri_species inc))
      incs.

(** ** [StructuredIncidentAnnotator.annotate] (lines 79-329) *)

Definition annotate (doc : annotated_doc) : res (list incident) :=
  tables ← build_tables doc;
  per_table ← mapM (λ tbl,
                      mapM (λ row, incs ← row_incidents (doc_text doc) tbl row;
                                   Ok (finalize_row incs))
                           (rows tbl))
                   tables;
  Ok (mk_tier (concat (concat per_table))).

(** ** Example tables *)

(** A table with a date column and two count columns, ["New cases"]
    (incremental by its name) and ["Cases"] (unmarked), with a reporting
    period of one day. *)
Definition backdating_table : table :=
  mk_table [mk_coldef (Some "Date") "date"; mk_coldef (Some "New cases") "number";
            mk_coldef (Some "Cases") "number"]
           [] (Some day) None None None.

Definition backdating_row : list (option espan) :=
  [Some (ESpan 0 5 (mk_emeta None (Some (0, day)%Z) None None) []);
   Some (ESpan 6 7 (mk_emeta None None None (Some 5%Z)) []);
   Some (ESpan 8 11 (mk_emeta None None None (Some 120%Z)) [])].

(** Its incidents: 5 new cases and an unmarked 120 cases, both dated over
    the day before the row's date. *)
Definition backdating_incs : list raw_incident :=
  [mk_raw 6 7 CaseCount (Some Incremental) 5 [] None (Some ((- day)%Z, 0%Z)) None;
   mk_raw 8 11 CaseCount None 120 [] None (Some ((- day)%Z, 0%Z)) None].

(** * Properties *)

(** ** The aggregation pass *)

Lemma max_new_fold (cases : bool) (incs : list raw_incident) (m0 : Z) :
  let r := foldl (λ m inc, if counts_as_new cases inc then Z.max m (ri_value inc) else m) m0 incs in
  (m0 <= r)%Z ∧
  (∀ i, i ∈ incs → counts_as_new cases i = true → (ri_value i <= r)%Z) ∧
  (r = m0 ∨ ∃ i, i ∈ incs ∧ counts_as_new cases i = true ∧ ri_value i = r).
Proof.
  revert m0. induction incs as [|inc incs IH]; intros m0; simpl.
  - split; [lia|]. split; [intros i Hi; inversion Hi | by left].
  - destruct (counts_as_new cases inc) eqn:Hn.
    + destruct (IH (Z.max m0 (ri_value inc))) as (Hle & Hall & Hwit).
      split; [lia|]. split.
      * intros i Hi Hi'. apply elem_of_cons in Hi as [->|Hi]; [lia|]. by apply Hall.
      * destruct Hwit as [Heq|(i & Hi & Hi' & Heq)].
        -- destruct (Z.max_spec m0 (ri_value inc)) as [[_ Hm]|[_ Hm]].
           ++ right. exists inc. split; [left|]. split; [done | lia].
           ++ left. lia.
        -- right. exists i. split; [by right|]. done.
    + destruct (IH m0) as (Hle & Hall & Hwit). split; [done|]. split.
      * intros i Hi Hi'. apply elem_of_cons in Hi as [->|Hi]; [congruence|]. by apply Hall.
      * destruct Hwit as [Heq|(i & Hi & Hi' & Heq)]; [by left|]. right. exists i.
        split; [by right|]. done.
Qed.

Lemma counts_as_new_same (inc i : raw_incident) :
  counts_as_new (is_case (ri_base_type inc)) i = true ↔
  ri_aggregation i = Some Incremental ∧ ri_base_type i = ri_base_type inc.
Proof.
  unfold counts_as_new, is_case. rewrite andb_true_iff, !bool_decide_eq_true.
  destruct (ri_base_type i), (ri_base_type inc); simpl; intuition congruence.
Qed.

(** Whether the aggregation pass marks an unmarked incident of the row
    cumulative: the row has an incremental count of its base type, and
    every such count is below its value. *)
Definition promoted (incs : list raw_incident) (inc : raw_incident) : Prop :=
  (∃ i, i ∈ incs ∧ ri_aggregation i = Some Incremental ∧ ri_base_type i = ri_base_type inc ∧
        (0 <= ri_value i)%Z) ∧
  (∀ i, i ∈ incs → ri_aggregation i = Some Incremental → ri_base_type i = ri_base_type inc →
        (ri_value i < ri_value inc)%Z).

Lemma reclassify_unmarked (incs : list raw_incident) (inc : raw_incident) :
  ri_aggregation inc = None →
  reclassify (max_new incs true) (max_new incs false) inc =
  if bool_decide (0 <= max_new incs (is_case (ri_base_type inc)) <
                  ri_value inc)%Z then Some Cumulative else None.
Proof.
  intros Hu. unfold reclassify. rewrite Hu.
  assert (Hm : (if is_case (ri_base_type inc) then max_new incs true else max_new incs false) =
               max_new incs (is_case (ri_base_type inc))) by by destruct (is_case _).
  rewrite Hm. case_bool_decide as Hb.
  - destruct Hb as [H1 H2]. apply Z.leb_le in H1. apply Z.ltb_lt in H2. by rewrite H1, H2.
  - destruct (Z.leb_spec 0 (max_new incs (is_case (ri_base_type inc)))),
      (Z.ltb_spec (max_new incs (is_case (ri_base_type inc))) (ri_value inc)); simpl; try done.
    exfalso. apply Hb. lia.
Qed.

Lemma promoted_max_new (incs : list raw_incident) (inc : raw_incident) :
  promoted incs inc ↔ (0 <= max_new incs (is_case (ri_base_type inc)) < ri_value inc)%Z.
Proof.
  unfold max_new. destruct (max_new_fold (is_case (ri_base_type inc)) incs (-1)) as (Hle & Hall & Hwit).
  setoid_rewrite counts_as_new_same in Hall. setoid_rewrite counts_as_new_same in Hwit.
  unfold promoted. split.
  - intros [(i & Hi & Ha & Hb & Hv) Hlt]. split.
    + specialize (Hall i Hi (conj Ha Hb)). lia.
    + destruct Hwit as [Heq|(j & Hj & [Ha' Hb'] & Heq)].
      * specialize (Hall i Hi (conj Ha Hb)). lia.
      * rewrite <-Heq. by apply Hlt.
  - intros [H0 Hlt]. destruct Hwit as [Heq|(j & Hj & [Ha' Hb'] & Heq)]; [lia|]. split.
    + exists j. split; [done|]. split; [done|]. split; [done | lia].
    + intros i Hi Ha Hb. specialize (Hall i Hi (conj Ha Hb)). lia.
Qed.

Lemma finalize_row_lookup (incs : list raw_incident) (k : nat) (inc : raw_incident) :
  incs !! k = Some inc →
  finalize_row incs !! k =
  Some (mk_incident (ri_start inc) (ri_end inc)
          (incident_type_name (ri_base_type inc)
             (reclassify (max_new incs true) (max_new incs false) inc))
          (ri_value inc) (ri_attributes inc) (ri_location inc) (ri_date_range inc)
          (ri_species inc)).
Proof. intros Hk. unfold finalize_row. by rewrite list_lookup_fmap, Hk. Qed.

(** C23: the aggregation pass of lines 298-319: an incident of a row with
    no aggregation becomes cumulative exactly when the row has an
    incremental count of the same base type that is not negative and every
    incremental count of that base type in the row is below its value;
    its type is then ["cumulativeCaseCount"] or ["cumulativeDeathCount"],
    and otherwise its base type. *)
Theorem finalize_row_reclassify (incs : list raw_incident) (k : nat) (inc : raw_incident) :
  incs !! k = Some inc → ri_aggregation inc = None →
  ∃ out, finalize_row incs !! k = Some out ∧
    ((promoted incs inc ∧ inc_type out = ("cumulative" ++ capitalize (base_type_name (ri_base_type inc)))%string) ∨
     (¬ promoted incs inc ∧ inc_type out = base_type_name (ri_base_type inc))).
Proof.
  intros Hk Hu. rewrite (finalize_row_lookup _ _ _ Hk). eexists. split; [done|]. simpl.
  rewrite reclassify_unmarked, promoted_max_new by done.
  case_bool_decide as Hp; [left | right]; (split; [done | reflexivity]).
Qed.

(** The row of the specification: an incremental count of 5 cases and an
    unmarked count of 120 cases. *)
Definition spec_row : list raw_incident :=
  [mk_raw 10 11 CaseCount (Some Incremental) 5 [] None None None;
   mk_raw 12 15 CaseCount None 120 [] None None None].

Lemma finalize_row_reclassify_witness :
  map inc_type (finalize_row spec_row) = ["caseCount"; "cumulativeCaseCount"] ∧
  ∃ out, finalize_row spec_row !! 1 = Some out ∧
    ((promoted spec_row (mk_raw 12 15 CaseCount None 120 [] None None None) ∧
      inc_type out = ("cumulative" ++ capitalize (base_type_name CaseCount))%string) ∨
     (¬ promoted spec_row (mk_raw 12 15 CaseCount None 120 [] None None None) ∧
      inc_type out = base_type_name CaseCount)).
Proof.
  split; [reflexivity|].
  apply (finalize_row_reclassify spec_row 1); reflexivity.
Defined.

(** C24: the aggregation pass keeps every incident of the row, in order,
    with its span, value, attributes, location, date range and species;
    its type is one of the four output types, the cumulative one when the
    incident was marked cumulative and its base type when it was marked
    incremental. *)
Theorem finalize_row_shape (incs : list raw_incident) :
  length (finalize_row incs) = length incs ∧
  ∀ k inc, incs !! k = Some inc →
    ∃ out, finalize_row incs !! k = Some out ∧
      inc_start out = ri_start inc ∧ inc_end out = ri_end inc ∧
      inc_value out = ri_value inc ∧ inc_attributes out = ri_attributes inc ∧
      inc_location out = ri_location inc ∧ inc_date_range out = ri_date_range inc ∧
      inc_species out = ri_species inc ∧
      inc_type out ∈ ["caseCount"; "deathCount"; "cumulativeCaseCount"; "cumulativeDeathCount"] ∧
      (ri_aggregation inc = Some Cumulative →
         inc_type out = ("cumulative" ++ capitalize (base_type_name (ri_base_type inc)))%string) ∧
      (ri_aggregation inc = Some Incremental → inc_type out = base_type_name (ri_base_type inc)).
Proof.
  split; [unfold finalize_row; by rewrite length_map|].
  intros k inc Hk. rewrite (finalize_row_lookup _ _ _ Hk). eexists. split; [done|]. simpl.
  do 7 (split; [done|]). unfold reclassify, incident_type_name.
  split; [|split; intros ->; reflexivity].
  destruct (ri_aggregation inc) as [[|]|], (ri_base_type inc);
    repeat case_match; repeat case_bool_decide; simpl; set_solver.
Qed.

(** The date range of an emitted incident is the one [incident_date]
    computes from its aggregation (lines 282-288). *)
Lemma emit_incident_date_range (tbl : table) (ctx : row_ctx) (column : column_def)
    (value : espan) (inc : raw_incident) :
  emit_incident tbl ctx column value = Ok (Some inc) →
  incident_date (date_period tbl) (ri_aggregation inc) (rc_date ctx) = Ok (ri_date_range inc).
Proof.
  unfold emit_incident. cbv zeta. intros H. res_inv.
  case_match; [|discriminate]. res_inv. by subst.
Qed.

(** Every incident of a row comes from one number cell of the row. *)
Lemma row_incidents_emitted (text : string) (tbl : table) (row : list (option espan))
    (incs : list raw_incident) (inc : raw_incident) :
  row_incidents text tbl row = Ok incs → inc ∈ incs →
  ∃ column v, emit_incident tbl (row_context text tbl row) column v = Ok (Some inc).
Proof.
  unfold row_incidents. intros H Hin. res_inv. subst.
  apply list_elem_of_omap in Hin as (o & Ho & Heq). simpl in Heq. subst o.
  apply list_elem_of_lookup in Ho as [i Hi].
  destruct (Forall2_lookup_r _ _ _ _ _ (mapM_res_Ok _ _ _ H) Hi) as ([column [v|]] & _ & Hv);
    simpl in Hv; [|discriminate]. case_bool_decide; [eauto | discriminate].
Qed.

(** A count not marked cumulative, in a table with a non-zero reporting
    period, is backdated: the row has a date and the range ends at its
    start. *)
Lemma incident_date_backdated (p : Z) (date : option espan) (r : option (Z * Z)) :
  p ≠ 0%Z → incident_date (Some p) None date = Ok r →
  ∃ d s e, date = Some d ∧ datetime_range (e_meta d) = Some (s, e) ∧ r = Some ((s - p)%Z, s).
Proof.
  intros Hp H. unfold incident_date in H.
  rewrite (bool_decide_true (p ≠ 0%Z)), (bool_decide_false (None = Some Cumulative)) in H by done.
  destruct date as [d|]; simpl in H; [|discriminate]. unfold get_key in H.
  destruct (datetime_range (e_meta d)) as [[s e]|] eqn:Hdr; simpl in H; [|discriminate].
  injection H as <-. by exists d, s, e.
Qed.

(** C25: the reporting period backdates every count not marked
    cumulative when it is emitted (lines 284-288), before the aggregation
    pass marks an unmarked count cumulative (lines 311-319): a count of
    a row of a table with a non-zero period [p] that the pass promotes
    becomes ["cumulativeCaseCount"] or ["cumulativeDeathCount"] and keeps
    the backdated range [[s - p, s]] of the row's date [s], which the
    specification gives to incremental counts only. *)
Theorem backdated_cumulative_count (text : string) (tbl : table) (row : list (option espan))
    (incs : list raw_incident) (p : Z) (k : nat) (inc : raw_incident) :
  row_incidents text tbl row = Ok incs →
  date_period tbl = Some p → p ≠ 0%Z →
  incs !! k = Some inc → ri_aggregation inc = None → promoted incs inc →
  ∃ d s e out,
    rc_date (row_context text tbl row) = Some d ∧ datetime_range (e_meta d) = Some (s, e) ∧
    finalize_row incs !! k = Some out ∧
    inc_type out = ("cumulative" ++ capitalize (base_type_name (ri_base_type inc)))%string ∧
    inc_date_range out = Some ((s - p)%Z, s).
Proof.
  intros Hr Hp Hp0 Hk Hu Hprom.
  destruct (row_incidents_emitted _ _ _ _ inc Hr) as (column & v & He);
    [by eapply list_elem_of_lookup_2|].
  pose proof (emit_incident_date_range _ _ _ _ _ He) as Hd. rewrite Hp, Hu in Hd.
  destruct (incident_date_backdated _ _ _ Hp0 Hd) as (d & s & e & Hdate & Hse & Hrange).
  exists d, s, e. rewrite (finalize_row_lookup _ _ _ Hk). eexists. do 3 (split; [done|]). simpl.
  rewrite reclassify_unmarked by done. apply promoted_max_new in Hprom.
  by rewrite bool_decide_true.
Qed.

Lemma backdated_cumulative_count_witness :
  ∃ d s e out,
    rc_date (row_context "" backdating_table backdating_row) = Some d ∧
    datetime_range (e_meta d) = Some (s, e) ∧
    finalize_row backdating_incs !! 1 = Some out ∧
    inc_type out = ("cumulative" ++ capitalize (base_type_name CaseCount))%string ∧
    inc_date_range out = Some ((s - day)%Z, s).
Proof.
  apply (backdated_cumulative_count "" backdating_table backdating_row backdating_incs day 1
           (mk_raw 8 11 CaseCount None 120 [] None (Some ((- day)%Z, 0%Z)) None));
    [vm_compute; reflexivity | reflexivity | vm_compute; discriminate | reflexivity | reflexivity |].
  apply promoted_max_new. vm_compute. split; discriminate || reflexivity.
Defined.
(** ** Emission of one count *)

Lemma status_from_name_truthy (name : string) :
  truthy (status_from_name name) = status_from_name name.
Proof. unfold status_from_name. by repeat case_match. Qed.

(** C26: a count is emitted only when a base type is known: from the row,
    from a column name containing ["cases"] or ["deaths"], or (as
    ["caseCount"]) from a known status; it carries the value of the cell,
    the status as its only attribute, and the aggregation of the row or
    of the column name. A cell without a number raises [KeyError]. *)
Theorem emit_incident_spec (tbl : table) (ctx : row_ctx) (column : column_def) (value : espan)
    (o : option raw_incident) :
  emit_incident tbl ctx column value = Ok o →
  let name := lower (default "" (col_name column)) in
  let status := match truthy (rc_status ctx) with Some s => Some s | None => status_from_name name end in
  is_Some (number (e_meta value)) ∧
  match o with
  | None => rc_base_type ctx = None ∧ base_type_from_name name = None ∧ status = None
  | Some r =>
      number (e_meta value) = Some (ri_value r) ∧
      ri_base_type r = default CaseCount (first_some (rc_base_type ctx) (base_type_from_name name)) ∧
      (first_some (rc_base_type ctx) (base_type_from_name name) = None → status ≠ None) ∧
      ri_attributes r = (match status with Some s => [s] | None => [] end) ∧
      ri_aggregation r = first_some (rc_aggregation ctx) (aggregation_from_name name) ∧
      (ri_start r, ri_end r) = (e_start value, e_end value)
  end.
Proof.
  unfold emit_incident. intros H. simpl.
  destruct (number (e_meta value)) as [n|] eqn:Hn; [|discriminate]. simpl in H.
  set (name := lower (default "" (col_name column))) in *.
  assert (Hst : truthy (match truthy (rc_status ctx) with Some s => Some s
                        | None => status_from_name name end) =
                match truthy (rc_status ctx) with Some s => Some s | None => status_from_name name end).
  { destruct (rc_status ctx) as [[|c s]|]; simpl; try apply status_from_name_truthy; done. }
  rewrite Hst in H.
  set (st := match truthy (rc_status ctx) with Some s => Some s | None => status_from_name name end) in *.
  clearbody st.
  destruct st as [s|], (rc_base_type ctx) as [b|], (base_type_from_name name) as [b'|];
    simpl in H |- *; res_inv; subst; simpl;
    repeat split; try (by eexists); try (by destruct (rc_aggregation ctx)); by intros ? ?.
Qed.

Definition status_ctx : row_ctx := mk_rctx None None None None (Some "confirmed") None.

Definition case_ctx : row_ctx := mk_rctx None None None (Some CaseCount) None None.

Definition count_col : column_def := mk_coldef (Some "Count") "number".

Definition seven : espan := ESpan 6 7 (mk_emeta None None None (Some 7%Z)) [].

Definition plain_table : table := mk_table [count_col] [] None None None None.

Lemma emit_incident_spec_witness :
  emit_incident plain_table status_ctx count_col seven =
    Ok (Some (mk_raw 6 7 CaseCount None 7 ["confirmed"] None None None)) ∧
  is_Some (number (e_meta seven)).
Proof.
  split; [vm_compute; reflexivity|].
  edestruct (emit_incident_spec plain_table status_ctx count_col seven) as [Hn _];
    [vm_compute; reflexivity | exact Hn].
Defined.

(** C27: a count to be backdated (the table has a non-zero reporting
    period and the count is not cumulative) in a row without a date, and
    with no date before the table, raises [TypeError] at
    [incident_date[0]] (line 286): the whole document fails. *)
Theorem emit_incident_undated_raises (tbl : table) (ctx : row_ctx) (column : column_def)
    (value : espan) (n p : Z) (b : base_type) :
  let name := lower (default "" (col_name column)) in
  number (e_meta value) = Some n →
  first_some (rc_base_type ctx) (base_type_from_name name) = Some b →
  rc_species ctx = None → rc_date ctx = None →
  date_period tbl = Some p → p ≠ 0%Z →
  first_some (rc_aggregation ctx) (aggregation_from_name name) ≠ Some Cumulative →
  emit_incident tbl ctx column value = Err TypeError.
Proof.
  intros name Hn Hb Hs Hd Hp Hp0 Ha. unfold emit_incident. fold name.
  rewrite Hn. res_simpl.
  assert (Hbase : ∀ st : option string, match st, match rc_base_type ctx with Some b => Some b
                                   | None => base_type_from_name name end with
                        | Some _, None => Some CaseCount | _, _ =>
                          match rc_base_type ctx with Some b => Some b
                          | None => base_type_from_name name end end = Some b).
  { intros st. destruct (rc_base_type ctx); simpl in Hb |- *; rewrite ?Hb; by destruct st. }
  rewrite Hbase, Hs, Hd. res_simpl. unfold incident_date. res_simpl. rewrite Hp.
  rewrite (bool_decide_true (p ≠ 0%Z)) by done.
  rewrite bool_decide_false; [reflexivity|].
  destruct (rc_aggregation ctx); simpl in Ha |- *; done.
Qed.

Lemma emit_incident_undated_raises_witness :
  emit_incident backdating_table case_ctx count_col seven = Err TypeError.
Proof.
  apply (emit_incident_undated_raises backdating_table case_ctx count_col seven 7 day CaseCount);
    vm_compute; first [reflexivity | intros Hc; inversion Hc].
Defined.

(** ** The row context *)

(** The cells of a row whose column has a given type. *)
Definition cells_of_type (t : string) (defs : list column_def) (row : list (option espan))
    : list espan :=
  omap (λ '(c, v), if bool_decide (col_type c = t) then v else None) (zip defs row).

Section CarryDown.
Context (text : string) (field : row_ctx → option espan) (t : string).
Hypothesis field_update : ∀ ctx c v,
  field (update_ctx text ctx c v) = if bool_decide (col_type c = t) then Some v else field ctx.

Lemma carry_down_fold (cells : list (column_def * option espan)) (ctx : row_ctx) :
  field (foldl (λ ctx '(column, value),
                  match value with None => ctx | Some v => update_ctx text ctx column v end)
               ctx cells) =
  first_some (last (omap (λ '(c, v), if bool_decide (col_type c = t) then v else None) cells))
             (field ctx).
Proof.
  revert ctx. induction cells as [|[c [v|]] cells IH]; intros ctx; [done| |].
  - destruct (decide (col_type c = t)) as [Ht|Ht].
    + rewrite (omap_cons_Some _ (c, Some v) cells v) by (by rewrite bool_decide_true).
      simpl. rewrite IH, field_update, bool_decide_true by done.
      rewrite last_cons. by destruct (last _).
    + rewrite (omap_cons_None _ (c, Some v) cells) by (by rewrite bool_decide_false).
      simpl. by rewrite IH, field_update, bool_decide_false.
  - rewrite (omap_cons_None _ (c, None) cells) by (simpl; by case_decide). simpl. by rewrite IH.
Qed.
End CarryDown.

Ltac update_ctx_cases :=
  intros ctx c v; unfold update_ctx;
  repeat (case_bool_decide; simpl; try congruence); repeat case_match; simpl; done.

Lemma update_ctx_date (text : string) : ∀ ctx c v,
  rc_date (update_ctx text ctx c v) = if bool_decide (col_type c = "date") then Some v else rc_date ctx.
Proof. update_ctx_cases. Qed.

Lemma update_ctx_location (text : string) : ∀ ctx c v,
  rc_location (update_ctx text ctx c v) =
  if bool_decide (col_type c = "geoname") then Some v else rc_location ctx.
Proof. update_ctx_cases. Qed.

Lemma update_ctx_species (text : string) : ∀ ctx c v,
  rc_species (update_ctx text ctx c v) =
  if bool_decide (col_type c = "species") then Some v else rc_species ctx.
Proof. update_ctx_cases. Qed.

(** C28: the row context of lines 215-236 carries values down: the date
    and the location of a row are those of its last non-empty date and
    geoname cells, or else the last ones mentioned before the table; its
    species is that of its last species cell, since the table's
    [last_species_mentioned] is never set. *)
Theorem row_context_carry_down (text : string) (tbl : table) (row : list (option espan)) :
  let defs := column_definitions tbl in
  rc_date (row_context text tbl row) =
    first_some (last (cells_of_type "date" defs row)) (last_date_mentioned tbl) ∧
  rc_location (row_context text tbl row) =
    first_some (last (cells_of_type "geoname" defs row)) (last_geoname_mentioned tbl) ∧
  rc_species (row_context text tbl row) = last (cells_of_type "species" defs row).
Proof.
  unfold row_context, cells_of_type. simpl.
  rewrite (carry_down_fold text rc_date "date" (update_ctx_date text)).
  rewrite (carry_down_fold text rc_location "geoname" (update_ctx_location text)).
  rewrite (carry_down_fold text rc_species "species" (update_ctx_species text)).
  simpl. split; [done|]. split; [done|]. by destruct (last _).
Qed.

(** ** Errors are fatal to the document *)

Lemma mapM_res_Err {A B} (f : A → res B) (l : list A) (x : A) (e : py_exn) :
  x ∈ l → f x = Err e → ∃ e', mapM f l = Err e'.
Proof.
  intros Hx Hf. induction l as [|a l IH]; [inversion Hx|]. simpl.
  destruct (f a) as [b|e''] eqn:Ha; simpl; [|eauto].
  apply elem_of_cons in Hx as [->|Hx]; [congruence|].
  destruct (IH Hx) as [e' ->]. simpl. eauto.
Qed.

(** C34: the errors of the table builder and of the rows are not caught:
    when one table of the document cannot be built, or one row of a built
    table raises, [annotate] raises and the document has no incidents at
    all (the spec's section 7 says nothing in the core is fatal). *)
Theorem annotate_error_fatal (doc : annotated_doc) :
  ((∃ span e, span ∈ structured_data doc ∧ ts_type span = "table" ∧ build_table doc span = Err e) ∨
   (∃ tables tbl row e, build_tables doc = Ok tables ∧ tbl ∈ tables ∧ row ∈ rows tbl ∧
      row_incidents (doc_text doc) tbl row = Err e)) →
  ∃ e, annotate doc = Err e.
Proof.
  unfold annotate. intros [(span & e & Hin & Ht & Hb) | (tables & tbl & row & e & Hts & Htbl & Hrow & Hr)].
  - destruct (mapM_res_Err (build_table doc) (filter (λ s, ts_type s = "table") (structured_data doc))
                span e) as [e' He']; [by apply list_elem_of_filter | done |].
    unfold build_tables. rewrite He'. eauto.
  - rewrite Hts. simpl.
    destruct (mapM_res_Err (λ row, incs ← row_incidents (doc_text doc) tbl row; Ok (finalize_row incs))
                (rows tbl) row e) as [e1 He1]; [done | by rewrite Hr |].
    destruct (mapM_res_Err (λ tbl, mapM (λ row, incs ← row_incidents (doc_text doc) tbl row;
                                               Ok (finalize_row incs)) (rows tbl))
                tables tbl e1) as [e2 He2]; [done | done |].
    rewrite He2. eauto.
Qed.

Lemma annotate_error_fatal_witness :
  ∃ e, annotate (spec_table_doc_with []) = Err e.
Proof.
  apply annotate_error_fatal. left. exists spec_table_span, AttributeError.
  split; [left|]. split; [reflexivity|]. vm_compute. reflexivity.
Defined.
